(** * Research orchestration pipeline and source-reliability engine

    A shallow embedding of the research orchestrator
    ([src/server/orchestrator/index.ts]), the evolution engine
    ([src/server/evolution/index.ts]) and the routes that start and
    cancel a run ([src/server/routes/research.ts]), with the properties of
    their scoring, reliability and status logic.

    Conventions of the embedding.
    - A JavaScript [number] is a double.  The numbers of the source
      tables and of the search results are rationals ([Q]) read as the
      double nearest to them ([JS.num]), and the smoothing formulas of the
      evolution engine and the score of a search result are computed in
      double precision: every operation rounds its exact result to the
      nearest double, ties to even ([JS.fl]).  Infinity and NaN are not
      part of the model, which is that of the code as long as every
      result stays below the largest double.  The means of the fuser and
      of the learning insights are taken exactly; counters and scores
      built from integer literals only are integers ([Z]).
    - The Prisma tables are finite maps keyed by their unique column
      ([gmap string _]); the event log is a list, newest event first, so
      that [orderBy: { timestamp: 'desc' }] is the list order.
    - Every Prisma call is a call site ([DbSite]) at which the environment
      may make the call throw; the collaborators are read from the
      environment too, and so is the clock, once for every [new Date()]
      of the source ([ClockSite]).
    - [async] functions are computations [M S A] over a mutable state [S]
      that either return a value or throw a message. *)

From Stdlib Require Import ZArith QArith Qround Qminmax Qpower Lqa Lia List String.
From stdpp Require Import gmap strings list fin_maps sorting.

Open Scope string_scope.
Open Scope Z_scope.

(** ** JavaScript numbers *)

Module JS.

(** [Math.round]: the nearest integer, halves going up. *)
Definition Math_round (x : Q) : Z := Qfloor (x + (1 # 2)).

Definition Math_min (x y : Q) : Q := Qmin x y.
Definition Math_max (x y : Q) : Q := Qmax x y.

(** *** Double precision

    [2 ^ e]. *)
Definition pow2 (e : Z) : Q := (2 ^ e)%Q.

(** The binary exponent of a positive number: the [e] with
    [2 ^ e <= x < 2 ^ (e + 1)]. *)
Definition ilog2 (x : Q) : Z :=
  let k := Z.log2 (Qnum x) - Z.log2 (Zpos (Qden x)) in
  if Qle_bool (pow2 k) x then k else k - 1.

(** The nearest integer, a tie going to the even one. *)
Definition rne (x : Q) : Z :=
  let f := Qfloor x in
  match (x - inject_Z f ?= 1 # 2)%Q with
  | Lt => f
  | Gt => f + 1
  | Eq => if Z.even f then f else f + 1
  end.

(** The exponent of the spacing of the doubles around a positive number:
    53 significant bits, and [2 ^ -1074] for the subnormal numbers. *)
Definition quantum (x : Q) : Z := Z.max (ilog2 x - 52) (-1074).

Definition fl_pos (x : Q) : Q :=
  Qred (inject_Z (rne (x / pow2 (quantum x))) * pow2 (quantum x)).

(** The double nearest to [x], ties to even. *)
Definition fl (x : Q) : Q :=
  match (x ?= 0)%Q with
  | Eq => 0%Q
  | Gt => fl_pos x
  | Lt => (- fl_pos (- x))%Q
  end.

Definition is_double (x : Q) : Prop := (fl x == x)%Q.

(** The double a number of the model stands for. *)
Definition num (x : Q) : Q := fl x.

(** [x + y], [x - y], [x * y] and [x / y] on doubles. *)
Definition add (x y : Q) : Q := fl (x + y).
Definition sub (x y : Q) : Q := fl (x - y).
Definition mul (x y : Q) : Q := fl (x * y).
Definition div (x y : Q) : Q := fl (x / y).

(** The literal [0.1]. *)
Definition tenth : Q := fl (1 # 10).

(** [Number.MAX_VALUE]. *)
Definition max_value : Q := inject_Z (2 ^ 1024 - 2 ^ 971).

(** [x > y] and [x >= y] on numbers. *)
Definition gt (x y : Q) : bool := negb (Qle_bool x y).
Definition ge (x y : Q) : bool := Qle_bool y x.
Definition lt (x y : Q) : bool := negb (Qle_bool y x).

(** [x || d] on a number: [0] is falsy. *)
Definition or_num (x d : Q) : Q := if Qeq_bool x 0 then d else x.

(** [x || d] on a nullable number: [null] and [0] are falsy. *)
Definition or_null (x : option Q) (d : Q) : Q :=
  match x with
  | Some v => or_num v d
  | None => d
  end.

(** Truthiness of an optional string: [null] and the empty string are
    falsy. *)
Definition truthy_string (x : option string) : bool :=
  match x with
  | Some (String _ _) => true
  | _ => false
  end.

(** [x || undefined] on an optional string. *)
Definition or_undefined (x : option string) : option string :=
  if truthy_string x then x else None.

(** Truthiness of [xs?.length] for an optional array. *)
Definition has_length {A} (xs : option (list A)) : bool :=
  match xs with
  | Some (_ :: _) => true
  | _ => false
  end.

(** [xs.join(sep)]. *)
Fixpoint join (sep : string) (xs : list string) : string :=
  match xs with
  | [] => ""
  | [x] => x
  | x :: rest => (x ++ sep ++ join sep rest)%string
  end.

End JS.

(** ** Computations that may throw *)

Inductive Result (A : Type) : Type :=
| Returned (a : A)
| Thrown (message : string).
Arguments Returned {A} a.
Arguments Thrown {A} message.

Definition M (S A : Type) : Type := S -> S * Result A.

Definition ret {S A} (a : A) : M S A := fun s => (s, Returned a).

Definition throw {S A} (message : string) : M S A := fun s => (s, Thrown message).

Definition bind {S A B} (m : M S A) (k : A -> M S B) : M S B :=
  fun s =>
    match m s with
    | (s', Returned a) => k a s'
    | (s', Thrown e) => (s', Thrown e)
    end.

(** [try { body } catch (error) { handler(error.message) }]: the handler
    runs on the state the body left behind. *)
Definition try_catch {S A} (body : M S A) (handler : string -> M S A) : M S A :=
  fun s =>
    match body s with
    | (s', Returned a) => (s', Returned a)
    | (s', Thrown e) => handler e s'
    end.

Definition get {S} : M S S := fun s => (s, Returned s).
Definition modify {S} (f : S -> S) : M S unit := fun s => (f s, Returned tt).

Notation "'let*' x ':=' m 'in' k" := (bind m (fun x => k))
  (at level 10, x name, m at level 100, k at level 200).
Notation "m ';;;' k" := (bind m (fun _ => k))
  (at level 100, k at level 200, right associativity).

(** [wp m Q s]: running [m] from [s] ends in a state and a result that
    satisfy [Q]. *)
Definition wp {S A} (m : M S A) (Q : S -> Result A -> Prop) (s : S) : Prop :=
  Q (m s).1 (m s).2.

(** ** Data model *)

Module WebsiteAnalyst.

Inductive Status := live | down | redirect | error.

Record ContactInfo := {
  emails : option (list string);
  phones : option (list string);
}.

Record WebsiteAnalysisResult := {
  url : string;
  status : Status;
  contactInfo : option ContactInfo;
  confidenceScore : Q;
  errors : list string;
}.

Definition is_live (s : Status) : bool :=
  match s with live => true | _ => false end.

End WebsiteAnalyst.

Module SocialHunter.

Record SocialProfile := {
  platform : string;
  url : string;
  handle : option string;
  verified : bool;
  confidenceScore : Q;
}.

Record SocialHuntResult := {
  companyName : string;
  platforms : list SocialProfile;
  totalFollowers : Z;
  mostActivePlatform : option string;
  socialPresenceScore : Q;
  errors : list string;
}.

(** The best match of an Exa search, as [searchPlatform] reads it. *)
Record BestMatch := {
  match_url : string;
  match_handle : option string;
  match_score : option Q;
}.

End SocialHunter.

Module NewsAggregator.

Record NewsReputationResult := {
  companyName : string;
  totalMentions : Z;
  reputationScore : Q;
  errors : list string;
}.

End NewsAggregator.

Module BusinessAnalyzer.

Record MarketingOpportunity := {
  area : string;
  recommendation : string;
  priority : Z;
}.

Record BusinessAnalysisResult := {
  companyName : string;
  digitalMaturityScore : Q;
  opportunities : list MarketingOpportunity;
  errors : list string;
}.

End BusinessAnalyzer.

Import WebsiteAnalyst(WebsiteAnalysisResult).
Import SocialHunter(SocialProfile, SocialHuntResult).
Import NewsAggregator(NewsReputationResult).
Import BusinessAnalyzer(BusinessAnalysisResult).

Module JobStatus.
Inductive t := PENDING | QUEUED | RUNNING | COMPLETED | FAILED | CANCELLED.
End JobStatus.

Module AgentStatus.
Inductive t := PENDING | RUNNING | COMPLETED | FAILED | SKIPPED.
End AgentStatus.

Module CompanyStatus.
Inductive t := PENDING | QUEUED | RESEARCHING | COMPLETED | FAILED.
End CompanyStatus.

(** A row of [researchJob]; its [id] is its key in the table. *)
Record ResearchJob := {
  job_companyId : string;
  job_userId : string;
  job_status : JobStatus.t;
  job_priority : Z;
  job_progress : Z;
  websiteAnalysis : AgentStatus.t;
  socialMediaHunt : AgentStatus.t;
  ownerInvestigation : AgentStatus.t;
  competitorMapping : AgentStatus.t;
  newsAggregation : AgentStatus.t;
  businessAnalysis : AgentStatus.t;
  startedAt : option Z;
  completedAt : option Z;
  job_errorMessage : option string;
  job_updatedAt : Z;
}.

(** A row of [company]; its [id] is its key in the table. *)
Record Company := {
  company_userId : string;
  companyName : string;
  website : option string;
  phone : option string;
  address : option string;
  company_status : CompanyStatus.t;
}.

Record ComprehensiveIntelligence := {
  companyId : string;
  intel_companyName : string;
  websiteData : option WebsiteAnalysisResult;
  socialData : option SocialHuntResult;
  newsData : option NewsReputationResult;
  businessData : option BusinessAnalysisResult;
  digitalMaturityScore : Q;
  socialPresenceScore : Q;
  reputationScore : Q;
  opportunityScore : Q;
  completenessScore : Z;
  confidenceScore : Z;
  dataGaps : list string;
  researchedAt : Z;
}.

(** A row of [researchResult], keyed by [companyId]. *)
Record ResearchResult := {
  result_completenessScore : Z;
  result_confidenceScore : Z;
  result_qualityScore : Z;
  result_websiteData : option WebsiteAnalysisResult;
  result_socialMediaData : option SocialHuntResult;
  result_newsData : option NewsReputationResult;
  result_businessAnalysisData : option BusinessAnalysisResult;
  mergedIntelligence : ComprehensiveIntelligence;
  result_opportunities : option (list BusinessAnalyzer.MarketingOpportunity);
  result_dataGaps : list string;
  result_updatedAt : option Z;
}.

Inductive EventType :=
| SOURCE_SUCCESS | SOURCE_FAILURE | RESEARCH_COMPLETE | ADAPTATION_APPLIED.

Definition EventType_eqb (a b : EventType) : bool :=
  match a, b with
  | SOURCE_SUCCESS, SOURCE_SUCCESS
  | SOURCE_FAILURE, SOURCE_FAILURE
  | RESEARCH_COMPLETE, RESEARCH_COMPLETE
  | ADAPTATION_APPLIED, ADAPTATION_APPLIED => true
  | _, _ => false
  end.

(** A row of [evolutionLog]; a column left out of [create] is [null]. *)
Record EvolutionLog := {
  eventType : EventType;
  source : option string;
  industry : option string;
  log_companyId : option string;
  durationMs : option Q;
  dataQualityScore : option Q;
  log_completenessScore : option Q;
  errorCode : option string;
  errorMessage : option string;
  retryCount : option Z;
  fallbackUsed : option string;
  sourcesUsed : list string;
  sourcesFailed : list string;
  gaps : list string;
  timestamp : Z;
}.

(** A row of [sourceConfig]; its [sourceName] is its key in the table. *)
Record SourceConfig := {
  isEnabled : bool;
  priority : Z;
  successRate : Q;
  avgDurationMs : Q;
  avgQualityScore : Q;
  requestsPerMinute : Z;
  delayBetweenMs : Z;
  dailyLimit : Z;
  currentDailyUsage : Z;
  lastUsed : option Z;
}.

Record Db := {
  evolutionLog : list EvolutionLog;
  sourceConfig : gmap string SourceConfig;
  researchJob : gmap string ResearchJob;
  company : gmap string Company;
  researchResult : gmap string ResearchResult;
}.

Definition set_evolutionLog (f : list EvolutionLog -> list EvolutionLog) (d : Db) : Db :=
  {| evolutionLog := f (evolutionLog d); sourceConfig := sourceConfig d;
     researchJob := researchJob d; company := company d;
     researchResult := researchResult d |}.

Definition set_sourceConfig (f : gmap string SourceConfig -> gmap string SourceConfig)
    (d : Db) : Db :=
  {| evolutionLog := evolutionLog d; sourceConfig := f (sourceConfig d);
     researchJob := researchJob d; company := company d;
     researchResult := researchResult d |}.

Definition set_researchJob (f : gmap string ResearchJob -> gmap string ResearchJob)
    (d : Db) : Db :=
  {| evolutionLog := evolutionLog d; sourceConfig := sourceConfig d;
     researchJob := f (researchJob d); company := company d;
     researchResult := researchResult d |}.

Definition set_company (f : gmap string Company -> gmap string Company) (d : Db) : Db :=
  {| evolutionLog := evolutionLog d; sourceConfig := sourceConfig d;
     researchJob := researchJob d; company := f (company d);
     researchResult := researchResult d |}.

Definition set_researchResult
    (f : gmap string ResearchResult -> gmap string ResearchResult) (d : Db) : Db :=
  {| evolutionLog := evolutionLog d; sourceConfig := sourceConfig d;
     researchJob := researchJob d; company := company d;
     researchResult := f (researchResult d) |}.

(** ** Environment *)

(** The Prisma call sites of the modelled functions. *)
Inductive DbSite :=
| logSourceSuccess_create
| logSourceFailure_create
| logResearchComplete_create
| updateSourceMetrics_findUnique
| updateSourceMetrics_update
| updateSourceMetrics_create
| insights_topSources
| insights_badSources
| insights_recentLogs
| executeResearch_findUnique
| executeResearch_jobRunning
| executeResearch_companyResearching
| updateJobProgress_update (progress : Z)
| executeResearch_upsert
| executeResearch_jobCompleted
| executeResearch_companyCompleted
| executeResearch_jobFailed
| executeResearch_companyFailed
| cancel_findFirst
| cancel_jobUpdate
| cancel_companyUpdate.

#[global] Instance DbSite_eq_dec : EqDecision DbSite.
Proof. solve_decision. Defined.

(** What a collaborator call does: it resolves or it rejects. *)
Inductive Outcome (A : Type) : Type :=
| Resolves (a : A)
| Rejects (message : string).
Arguments Resolves {A} a.
Arguments Rejects {A} message.

(** The places where the source reads the clock. *)
Inductive ClockSite :=
| clock_logged
| clock_lastUsed
| clock_startedAt
| clock_researchedAt
| clock_progress (progress : Z)
| clock_upsert
| clock_completedAt.

Record Env := {
  (** [new Date()] at a place of the source, as a number; [clock_logged]
      is the time the store gives a new event. *)
  now : ClockSite -> Z;
  (** [Some e]: the Prisma call at this site throws [e]. *)
  dbFault : DbSite -> option string;
  analyzeWebsite : string -> string -> Outcome WebsiteAnalysisResult;
  (** The best match [searchPlatform companyName platform domain location]
      finds, if any; a search that fails finds none. *)
  exaBestMatch :
    string -> string -> string -> option string -> option SocialHunter.BestMatch;
  (** [verifyWithTavily companyName url]. *)
  verifyWithTavily : string -> string -> bool;
  aggregateNewsReputation :
    string -> option string -> Outcome NewsReputationResult;
  analyzeBusinessOpportunities :
    string -> option WebsiteAnalysisResult -> option SocialHuntResult ->
    option NewsReputationResult -> Outcome BusinessAnalysisResult;
}.

(** A Prisma call: it throws when the environment says so. *)
Definition prisma_call {S A} (env : Env) (site : DbSite) (op : M S A) : M S A :=
  match dbFault env site with
  | Some e => throw e
  | None => op
  end.

(** Field updates of a [researchJob] row. *)
Definition set_job_status (v : JobStatus.t) (j : ResearchJob) : ResearchJob :=
  {| job_companyId := job_companyId j; job_userId := job_userId j; job_status := v;
     job_priority := job_priority j; job_progress := job_progress j;
     websiteAnalysis := websiteAnalysis j; socialMediaHunt := socialMediaHunt j;
     ownerInvestigation := ownerInvestigation j;
     competitorMapping := competitorMapping j; newsAggregation := newsAggregation j;
     businessAnalysis := businessAnalysis j; startedAt := startedAt j;
     completedAt := completedAt j; job_errorMessage := job_errorMessage j;
     job_updatedAt := job_updatedAt j |}.
Definition set_job_progress (v : Z) (j : ResearchJob) : ResearchJob :=
  {| job_companyId := job_companyId j; job_userId := job_userId j;
     job_status := job_status j; job_priority := job_priority j; job_progress := v;
     websiteAnalysis := websiteAnalysis j; socialMediaHunt := socialMediaHunt j;
     ownerInvestigation := ownerInvestigation j;
     competitorMapping := competitorMapping j; newsAggregation := newsAggregation j;
     businessAnalysis := businessAnalysis j; startedAt := startedAt j;
     completedAt := completedAt j; job_errorMessage := job_errorMessage j;
     job_updatedAt := job_updatedAt j |}.

(** The [agentUpdates] argument of [updateJobProgress]: a partial object
    over the six stage columns. *)
Record AgentUpdates := {
  upd_websiteAnalysis : option AgentStatus.t;
  upd_socialMediaHunt : option AgentStatus.t;
  upd_ownerInvestigation : option AgentStatus.t;
  upd_competitorMapping : option AgentStatus.t;
  upd_newsAggregation : option AgentStatus.t;
  upd_businessAnalysis : option AgentStatus.t;
}.

(** The object literals the orchestrator passes: one stage column each. *)
Definition websiteAnalysis_is (v : AgentStatus.t) : AgentUpdates :=
  {| upd_websiteAnalysis := Some v; upd_socialMediaHunt := None;
     upd_ownerInvestigation := None; upd_competitorMapping := None;
     upd_newsAggregation := None; upd_businessAnalysis := None |}.
Definition socialMediaHunt_is (v : AgentStatus.t) : AgentUpdates :=
  {| upd_websiteAnalysis := None; upd_socialMediaHunt := Some v;
     upd_ownerInvestigation := None; upd_competitorMapping := None;
     upd_newsAggregation := None; upd_businessAnalysis := None |}.
Definition newsAggregation_is (v : AgentStatus.t) : AgentUpdates :=
  {| upd_websiteAnalysis := None; upd_socialMediaHunt := None;
     upd_ownerInvestigation := None; upd_competitorMapping := None;
     upd_newsAggregation := Some v; upd_businessAnalysis := None |}.
Definition businessAnalysis_is (v : AgentStatus.t) : AgentUpdates :=
  {| upd_websiteAnalysis := None; upd_socialMediaHunt := None;
     upd_ownerInvestigation := None; upd_competitorMapping := None;
     upd_newsAggregation := None; upd_businessAnalysis := Some v |}.

(** The spread [...agentUpdates] in the data of an update: the columns
    the object has are written, the others are left. *)
Definition apply_agentUpdates (u : AgentUpdates) (j : ResearchJob) : ResearchJob :=
  {| job_companyId := job_companyId j; job_userId := job_userId j;
     job_status := job_status j; job_priority := job_priority j;
     job_progress := job_progress j;
     websiteAnalysis := default (websiteAnalysis j) (upd_websiteAnalysis u);
     socialMediaHunt := default (socialMediaHunt j) (upd_socialMediaHunt u);
     ownerInvestigation := default (ownerInvestigation j) (upd_ownerInvestigation u);
     competitorMapping := default (competitorMapping j) (upd_competitorMapping u);
     newsAggregation := default (newsAggregation j) (upd_newsAggregation u);
     businessAnalysis := default (businessAnalysis j) (upd_businessAnalysis u);
     startedAt := startedAt j; completedAt := completedAt j;
     job_errorMessage := job_errorMessage j; job_updatedAt := job_updatedAt j |}.
Definition set_startedAt (v : option Z) (j : ResearchJob) : ResearchJob :=
  {| job_companyId := job_companyId j; job_userId := job_userId j;
     job_status := job_status j; job_priority := job_priority j;
     job_progress := job_progress j; websiteAnalysis := websiteAnalysis j;
     socialMediaHunt := socialMediaHunt j; ownerInvestigation := ownerInvestigation j;
     competitorMapping := competitorMapping j; newsAggregation := newsAggregation j;
     businessAnalysis := businessAnalysis j; startedAt := v;
     completedAt := completedAt j; job_errorMessage := job_errorMessage j;
     job_updatedAt := job_updatedAt j |}.
Definition set_completedAt (v : option Z) (j : ResearchJob) : ResearchJob :=
  {| job_companyId := job_companyId j; job_userId := job_userId j;
     job_status := job_status j; job_priority := job_priority j;
     job_progress := job_progress j; websiteAnalysis := websiteAnalysis j;
     socialMediaHunt := socialMediaHunt j; ownerInvestigation := ownerInvestigation j;
     competitorMapping := competitorMapping j; newsAggregation := newsAggregation j;
     businessAnalysis := businessAnalysis j; startedAt := startedAt j;
     completedAt := v; job_errorMessage := job_errorMessage j;
     job_updatedAt := job_updatedAt j |}.
Definition set_job_errorMessage (v : option string) (j : ResearchJob) : ResearchJob :=
  {| job_companyId := job_companyId j; job_userId := job_userId j;
     job_status := job_status j; job_priority := job_priority j;
     job_progress := job_progress j; websiteAnalysis := websiteAnalysis j;
     socialMediaHunt := socialMediaHunt j; ownerInvestigation := ownerInvestigation j;
     competitorMapping := competitorMapping j; newsAggregation := newsAggregation j;
     businessAnalysis := businessAnalysis j; startedAt := startedAt j;
     completedAt := completedAt j; job_errorMessage := v;
     job_updatedAt := job_updatedAt j |}.
Definition set_job_updatedAt (v : Z) (j : ResearchJob) : ResearchJob :=
  {| job_companyId := job_companyId j; job_userId := job_userId j;
     job_status := job_status j; job_priority := job_priority j;
     job_progress := job_progress j; websiteAnalysis := websiteAnalysis j;
     socialMediaHunt := socialMediaHunt j; ownerInvestigation := ownerInvestigation j;
     competitorMapping := competitorMapping j; newsAggregation := newsAggregation j;
     businessAnalysis := businessAnalysis j; startedAt := startedAt j;
     completedAt := completedAt j; job_errorMessage := job_errorMessage j;
     job_updatedAt := v |}.

Definition set_company_status (v : CompanyStatus.t) (c : Company) : Company :=
  {| company_userId := company_userId c; companyName := companyName c;
     website := website c; phone := phone c; address := address c;
     company_status := v |}.

(** [prisma.researchJob.update({ where: { id }, data })]. *)
Definition researchJob_update (env : Env) (site : DbSite) (id : string)
    (data : ResearchJob -> ResearchJob) : M Db unit :=
  prisma_call env site
    (fun db =>
       match researchJob db !! id with
       | Some j => (set_researchJob (insert id (data j)) db, Returned tt)
       | None => (db, Thrown "Record to update not found.")
       end).

(** [prisma.company.update({ where: { id }, data })]. *)
Definition company_update (env : Env) (site : DbSite) (id : string)
    (data : Company -> Company) : M Db unit :=
  prisma_call env site
    (fun db =>
       match company db !! id with
       | Some c => (set_company (insert id (data c)) db, Returned tt)
       | None => (db, Thrown "Record to update not found.")
       end).

(** [await] of a collaborator call. *)
Definition await {S A} (o : Outcome A) : M S A :=
  match o with
  | Resolves a => ret a
  | Rejects e => throw e
  end.

(** [findMany({ where, orderBy, take })]: insertion by the order, which
    keeps the stored order of rows that compare equal. *)
Fixpoint insert_sorted {A} (leb : A -> A -> bool) (x : A) (l : list A) : list A :=
  match l with
  | [] => [x]
  | y :: l' => if leb x y then x :: y :: l' else y :: insert_sorted leb x l'
  end.

Definition sort_by {A} (leb : A -> A -> bool) (l : list A) : list A :=
  foldr (insert_sorted leb) [] l.

Definition findMany {A} (rows : list A) (where_ : A -> bool)
    (orderBy : A -> A -> bool) (take_ : nat) : list A :=
  take take_ (sort_by orderBy (List.filter where_ rows)).

(** The mean of a list of numbers, as the specification uses it. *)
Definition mean (xs : list Q) : Q :=
  (fold_right Qplus 0 xs / inject_Z (Z.of_nat (length xs)))%Q.

(** ** Evolution engine ([src/server/evolution/index.ts]) *)

Module Evolution.

Inductive QualityTrend := improving | declining | stable.

Record LearningInsights := {
  topSources : list string;
  problematicSources : list string;
  avgProcessingTime : Z;
  qualityTrend : QualityTrend;
  recommendations : list string;
}.

Definition set_topSources (v : list string) (i : LearningInsights) :=
  {| topSources := v; problematicSources := problematicSources i;
     avgProcessingTime := avgProcessingTime i; qualityTrend := qualityTrend i;
     recommendations := recommendations i |}.
Definition set_problematicSources (v : list string) (i : LearningInsights) :=
  {| topSources := topSources i; problematicSources := v;
     avgProcessingTime := avgProcessingTime i; qualityTrend := qualityTrend i;
     recommendations := recommendations i |}.
Definition set_avgProcessingTime (v : Z) (i : LearningInsights) :=
  {| topSources := topSources i; problematicSources := problematicSources i;
     avgProcessingTime := v; qualityTrend := qualityTrend i;
     recommendations := recommendations i |}.
Definition set_qualityTrend (v : QualityTrend) (i : LearningInsights) :=
  {| topSources := topSources i; problematicSources := problematicSources i;
     avgProcessingTime := avgProcessingTime i; qualityTrend := v;
     recommendations := recommendations i |}.
Definition push_recommendation (v : string) (i : LearningInsights) :=
  {| topSources := topSources i; problematicSources := problematicSources i;
     avgProcessingTime := avgProcessingTime i; qualityTrend := qualityTrend i;
     recommendations := (recommendations i ++ [v])%list |}.

Definition is_declining (t : QualityTrend) : bool :=
  match t with declining => true | _ => false end.

(** A row of [evolutionLog] with every optional column [null]. *)
Definition blank_event (type : EventType) (time : Z) : EvolutionLog :=
  {| eventType := type; source := None; industry := None; log_companyId := None;
     durationMs := None; dataQualityScore := None; log_completenessScore := None;
     errorCode := None; errorMessage := None; retryCount := None;
     fallbackUsed := None; sourcesUsed := []; sourcesFailed := []; gaps := [];
     timestamp := time |}.

(** The column default of [currentDailyUsage]; the Prisma schema is not
    among the sources, a fresh counter is taken to start at [0]. *)
Definition default_currentDailyUsage : Z := 0.

Definition review_recommendation (names : list string) : string :=
  ("Consider reviewing: " ++ JS.join ", " names)%string.
Definition declining_recommendation : string :=
  "Research quality is declining. Review agent configurations.".
Definition processing_time_recommendation : string :=
  "Processing time is high. Consider optimizing parallel execution.".

(** The smoothing formulas of [updateSourceMetrics], in double
    precision. *)
Definition rate_after_success (rate : Q) : Q :=
  JS.Math_min 100 (JS.add rate (JS.mul (JS.sub 100 rate) JS.tenth)).

Definition rate_after_failure (rate : Q) : Q :=
  JS.Math_max 0 (JS.sub rate 10).

Definition two_point_average (average value : Q) : Q :=
  JS.div (JS.add average value) 2.

Section WithEnv.

Variable env : Env.

(** [prisma.evolutionLog.create]: the newest event comes first. *)
Definition evolutionLog_create (site : DbSite) (ev : EvolutionLog) : M Db unit :=
  prisma_call env site (modify (set_evolutionLog (cons ev))).

Definition updateSourceMetrics (sourceName : string) (success : bool)
    (durationMs qualityScore : Q) : M Db unit :=
  try_catch
    (let* existing :=
       prisma_call env updateSourceMetrics_findUnique
         (fun db => (db, Returned (sourceConfig db !! sourceName))) in
     match existing with
     | Some existing =>
         let newSuccessRate :=
           if success
           then rate_after_success (JS.num (successRate existing))
           else rate_after_failure (JS.num (successRate existing)) in
         let newAvgDuration :=
           if success && JS.gt (JS.num durationMs) 0
           then inject_Z
                  (JS.Math_round
                     (two_point_average (JS.num (avgDurationMs existing))
                        (JS.num durationMs)))
           else avgDurationMs existing in
         let newAvgQuality :=
           if success && JS.gt (JS.num qualityScore) 0
           then two_point_average (JS.num (avgQualityScore existing))
                  (JS.num qualityScore)
           else avgQualityScore existing in
         prisma_call env updateSourceMetrics_update
           (fun db =>
              match sourceConfig db !! sourceName with
              | Some row =>
                  (set_sourceConfig
                     (insert sourceName
                        {| isEnabled := JS.gt newSuccessRate 20;
                           priority := priority row;
                           successRate := newSuccessRate;
                           avgDurationMs := newAvgDuration;
                           avgQualityScore := newAvgQuality;
                           requestsPerMinute := requestsPerMinute row;
                           delayBetweenMs := delayBetweenMs row;
                           dailyLimit := dailyLimit row;
                           currentDailyUsage := currentDailyUsage row + 1;
                           lastUsed := Some (now env clock_lastUsed) |}) db,
                   Returned tt)
              | None => (db, Thrown "Record to update not found.")
              end)
     | None =>
         prisma_call env updateSourceMetrics_create
           (fun db =>
              match sourceConfig db !! sourceName with
              | Some _ => (db, Thrown "Unique constraint failed on sourceName")
              | None =>
                  (set_sourceConfig
                     (insert sourceName
                        {| isEnabled := true;
                           priority := 5;
                           successRate := if success then 100 else 0;
                           avgDurationMs := JS.or_num (JS.num durationMs) 0;
                           avgQualityScore := JS.or_num (JS.num qualityScore) 50;
                           requestsPerMinute := 10;
                           delayBetweenMs := 6000;
                           dailyLimit := 500;
                           currentDailyUsage := default_currentDailyUsage;
                           lastUsed := Some (now env clock_lastUsed) |}) db,
                   Returned tt)
              end)
     end)
    (fun _ => ret tt).

Definition logSourceSuccess (source_ : string) (durationMs_ dataQualityScore_ : Q)
    (industry_ : option string) : M Db unit :=
  try_catch
    (evolutionLog_create logSourceSuccess_create
       {| eventType := SOURCE_SUCCESS; source := Some source_; industry := industry_;
          log_companyId := None; durationMs := Some durationMs_;
          dataQualityScore := Some dataQualityScore_;
          log_completenessScore := None; errorCode := None; errorMessage := None;
          retryCount := None; fallbackUsed := None; sourcesUsed := [];
          sourcesFailed := []; gaps := []; timestamp := now env clock_logged |} ;;;
     updateSourceMetrics source_ true durationMs_ dataQualityScore_)
    (fun _ => ret tt).

Definition logSourceFailure (source_ errorCode_ errorMessage_ : string)
    (retryCount_ : option Z) (fallbackUsed_ : option string) : M Db unit :=
  try_catch
    (evolutionLog_create logSourceFailure_create
       {| eventType := SOURCE_FAILURE; source := Some source_; industry := None;
          log_companyId := None; durationMs := None; dataQualityScore := None;
          log_completenessScore := None; errorCode := Some errorCode_;
          errorMessage := Some errorMessage_; retryCount := retryCount_;
          fallbackUsed := fallbackUsed_; sourcesUsed := []; sourcesFailed := [];
          gaps := []; timestamp := now env clock_logged |} ;;;
     updateSourceMetrics source_ false 0 0)
    (fun _ => ret tt).

Definition logResearchComplete (companyId_ : string) (completenessScore_ : Q)
    (sourcesUsed_ sourcesFailed_ gaps_ : list string) : M Db unit :=
  try_catch
    (evolutionLog_create logResearchComplete_create
       {| eventType := RESEARCH_COMPLETE; source := None; industry := None;
          log_companyId := Some companyId_; durationMs := None;
          dataQualityScore := None;
          log_completenessScore := Some completenessScore_; errorCode := None;
          errorMessage := None; retryCount := None; fallbackUsed := None;
          sourcesUsed := sourcesUsed_; sourcesFailed := sourcesFailed_;
          gaps := gaps_; timestamp := now env clock_logged |})
    (fun _ => ret tt).

(** The rows of [sourceConfig], each with its [sourceName]. *)
Definition sourceConfig_rows (db : Db) : list (string * SourceConfig) :=
  map_to_list (sourceConfig db).

(** [reduce((s, r) => s + (f(r) || 0), 0)]. *)
Definition sum_or_zero (f : EvolutionLog -> option Q) (l : list EvolutionLog) : Q :=
  fold_left (fun s r => s + JS.or_null (f r) 0)%Q l 0%Q.

(** The body of the [try] block of [analyzeLearningInsights]; the
    [insights] object is the mutable state. *)
Definition analyzeLearningInsights_try (db : Db) : M LearningInsights unit :=
  let* topSources_ :=
    prisma_call env insights_topSources
      (ret (findMany (sourceConfig_rows db)
              (fun s => isEnabled s.2 && JS.ge (successRate s.2) 70)
              (fun a b => JS.ge (successRate a.2) (successRate b.2)) 5)) in
  modify (set_topSources (map fst topSources_)) ;;;
  let* badSources :=
    prisma_call env insights_badSources
      (ret (findMany (sourceConfig_rows db)
              (fun s => JS.lt (successRate s.2) 50)
              (fun a b => JS.ge (successRate b.2) (successRate a.2)) 5)) in
  modify (set_problematicSources (map fst badSources)) ;;;
  let* recentLogs :=
    prisma_call env insights_recentLogs
      (ret (take 20 (List.filter
                       (fun r => EventType_eqb (eventType r) RESEARCH_COMPLETE)
                       (evolutionLog db)))) in
  (if (0 <? length recentLogs)%nat
   then
     let totalDuration := sum_or_zero durationMs recentLogs in
     modify (set_avgProcessingTime
               (JS.Math_round
                  (totalDuration / inject_Z (Z.of_nat (length recentLogs)) / 1000)))
   else ret tt) ;;;
  (if (10 <=? length recentLogs)%nat
   then
     let firstHalf := take 10 recentLogs in
     let secondHalf := take 10 (drop 10 recentLogs) in
     let firstAvg :=
       (sum_or_zero log_completenessScore firstHalf
        / inject_Z (Z.of_nat (length firstHalf)))%Q in
     let secondAvg :=
       if (0 <? length secondHalf)%nat
       then (sum_or_zero log_completenessScore secondHalf
             / inject_Z (Z.of_nat (length secondHalf)))%Q
       else firstAvg in
     if JS.gt firstAvg (secondAvg + 5)
     then modify (set_qualityTrend improving)
     else if JS.lt firstAvg (secondAvg - 5)
          then modify (set_qualityTrend declining)
          else ret tt
   else ret tt) ;;;
  let* insights := get in
  (if (0 <? length (problematicSources insights))%nat
   then modify (push_recommendation
                  (review_recommendation (problematicSources insights)))
   else ret tt) ;;;
  (if is_declining (qualityTrend insights)
   then modify (push_recommendation declining_recommendation)
   else ret tt) ;;;
  (if (300 <? avgProcessingTime insights)%Z
   then modify (push_recommendation processing_time_recommendation)
   else ret tt).

Definition analyzeLearningInsights (db : Db) : LearningInsights :=
  fst (try_catch (analyzeLearningInsights_try db) (fun _ => ret tt)
         {| topSources := []; problematicSources := []; avgProcessingTime := 0;
            qualityTrend := stable; recommendations := [] |}).

(** A caller that logs a run of success events for one source, each
    with its duration and quality. *)
Fixpoint logSourceSuccesses (source_ : string) (events : list (Q * Q)) : M Db unit :=
  match events with
  | [] => ret tt
  | (d, q) :: rest =>
      logSourceSuccess source_ d q None ;;; logSourceSuccesses source_ rest
  end.

End WithEnv.

(** The logging calls of the engine, to speak of a history of them. *)
Inductive LogCall :=
| call_logSourceSuccess (source_ : string) (durationMs_ dataQualityScore_ : Q)
    (industry_ : option string)
| call_logSourceFailure (source_ errorCode_ errorMessage_ : string)
    (retryCount_ : option Z) (fallbackUsed_ : option string)
| call_logResearchComplete (companyId_ : string) (completenessScore_ : Q)
    (sourcesUsed_ sourcesFailed_ gaps_ : list string).

Definition run_call (env : Env) (c : LogCall) : M Db unit :=
  match c with
  | call_logSourceSuccess s d q i => logSourceSuccess env s d q i
  | call_logSourceFailure s c m r f => logSourceFailure env s c m r f
  | call_logResearchComplete c s u f g => logResearchComplete env c s u f g
  end.

(** A history: each call under the environment of its time. *)
Fixpoint run_calls (calls : list (Env * LogCall)) : M Db unit :=
  match calls with
  | [] => ret tt
  | (env, c) :: rest => run_call env c ;;; run_calls rest
  end.


(** The completion events [analyzeLearningInsights] looks at: the 20
    most recent ones, most recent first. *)
Definition recent_completions (db : Db) : list EvolutionLog :=
  take 20 (List.filter (fun r => EventType_eqb (eventType r) RESEARCH_COMPLETE)
             (evolutionLog db)).

(** No completion event of the log carries a duration. *)
Definition no_completion_duration (log : list EvolutionLog) : Prop :=
  Forall (fun r => eventType r = RESEARCH_COMPLETE -> durationMs r = None) log.

End Evolution.

(** ** Social hunter: how [platforms] is assembled
    ([src/server/agents/social-hunter.ts]) *)

Module SocialHunt.
Import SocialHunter.

Definition platformDomains : list (string * string) :=
  [("linkedin", "linkedin.com"); ("facebook", "facebook.com");
   ("instagram", "instagram.com"); ("twitter", "twitter.com");
   ("youtube", "youtube.com"); ("tiktok", "tiktok.com")].

Definition platformWeights : list (string * Q) :=
  [("linkedin", 25%Q); ("facebook", 20%Q); ("instagram", 20%Q);
   ("twitter", 15%Q); ("youtube", 15%Q); ("tiktok", 5%Q)].

(** [platformWeights[name] || 5]. *)
Fixpoint weight_of (table : list (string * Q)) (name : string) : Q :=
  match table with
  | [] => 5
  | (k, w) :: rest => if String.eqb k name then JS.or_num w 5 else weight_of rest name
  end.

Section WithEnv.

Variable env : Env.

Definition searchPlatform (companyName_ platform_ domain_ : string)
    (location_ : option string) : option SocialProfile :=
  match exaBestMatch env companyName_ platform_ domain_ location_ with
  | None => None
  | Some bestMatch =>
      Some {| platform := platform_;
              url := match_url bestMatch;
              handle := match_handle bestMatch;
              verified := false;
              confidenceScore :=
                match match_score bestMatch with
                | Some score =>
                    if Qeq_bool (JS.num score) 0 then 70
                    else inject_Z (JS.Math_round (JS.mul (JS.num score) 100))
                | None => 70
                end |}
  end.

(** One turn of the verification loop. *)
Definition verify_profile (companyName_ : string) (profile : SocialProfile)
    : SocialProfile :=
  let verified_ := verifyWithTavily env companyName_ (url profile) in
  {| platform := platform profile;
     url := url profile;
     handle := handle profile;
     verified := verified_;
     confidenceScore :=
       if verified_
       then JS.Math_min (confidenceScore profile + 10) 100
       else JS.Math_max (confidenceScore profile - 20) 30 |}.

Definition huntSocialProfiles (companyName_ : string)
    (website_ phone_ location_ : option string) : SocialHuntResult :=
  let profiles :=
    map (fun entry => searchPlatform companyName_ entry.1 entry.2 location_)
      platformDomains in
  let foundProfiles :=
    map (verify_profile companyName_) (omap id profiles) in
  let score :=
    fold_left
      (fun score profile =>
         if verified profile
         then (score + weight_of platformWeights (platform profile))%Q
         else score)
      foundProfiles 0%Q in
  {| companyName := companyName_;
     platforms := foundProfiles;
     totalFollowers := 0;
     mostActivePlatform := platform <$> head foundProfiles;
     socialPresenceScore := JS.Math_min score 100;
     errors := [] |}.

End WithEnv.

End SocialHunt.

(** ** Research orchestrator ([src/server/orchestrator/index.ts]) *)

Module Orchestrator.

Definition set_scores (websiteData_ : option WebsiteAnalysisResult)
    (socialData_ : option SocialHuntResult) (newsData_ : option NewsReputationResult)
    (businessData_ : option BusinessAnalysisResult)
    (digital social reputation opportunity : Q) (completeness confidence : Z)
    (gaps_ : list string) (i : ComprehensiveIntelligence) : ComprehensiveIntelligence :=
  {| companyId := companyId i; intel_companyName := intel_companyName i;
     websiteData := websiteData_; socialData := socialData_; newsData := newsData_;
     businessData := businessData_; digitalMaturityScore := digital;
     socialPresenceScore := social; reputationScore := reputation;
     opportunityScore := opportunity; completenessScore := completeness;
     confidenceScore := confidence; dataGaps := gaps_;
     researchedAt := researchedAt i |}.

(** [intel.socialData?.platforms], [undefined] read as no platform
    where only the length is looked at. *)
Definition social_platforms (intel : ComprehensiveIntelligence) : list SocialProfile :=
  match socialData intel with
  | Some social => SocialHunter.platforms social
  | None => []
  end.

(** [intel.websiteData?.contactInfo?.emails] and [...?.phones]. *)
Definition contact_emails (intel : ComprehensiveIntelligence) : option (list string) :=
  match websiteData intel with
  | Some w =>
      match WebsiteAnalyst.contactInfo w with
      | Some c => WebsiteAnalyst.emails c
      | None => None
      end
  | None => None
  end.

Definition contact_phones (intel : ComprehensiveIntelligence) : option (list string) :=
  match websiteData intel with
  | Some w =>
      match WebsiteAnalyst.contactInfo w with
      | Some c => WebsiteAnalyst.phones c
      | None => None
      end
  | None => None
  end.

Definition website_is_live (intel : ComprehensiveIntelligence) : bool :=
  match websiteData intel with
  | Some w => WebsiteAnalyst.is_live (WebsiteAnalyst.status w)
  | None => false
  end.

Definition calculateCompleteness (intel : ComprehensiveIntelligence) : Z :=
  let score := 0 in
  let score := if website_is_live intel then score + 30 else score in
  let score :=
    match socialData intel with
    | Some social =>
        if (0 <? length (SocialHunter.platforms social))%nat
        then score + 20 else score
    | None => score
    end in
  let score :=
    match newsData intel with
    | Some news => if 0 <? NewsAggregator.totalMentions news then score + 15 else score
    | None => score
    end in
  let score :=
    match businessData intel with
    | Some business =>
        if (0 <? length (BusinessAnalyzer.opportunities business))%nat
        then score + 15 else score
    | None => score
    end in
  let score :=
    if JS.has_length (contact_emails intel) || JS.has_length (contact_phones intel)
    then score + 10 else score in
  let score :=
    match socialData intel with
    | Some social =>
        if (2 <=? length (SocialHunter.platforms social))%nat
        then score + 10 else score
    | None => score
    end in
  score.

Definition identifyDataGaps (intel : ComprehensiveIntelligence) : list string :=
  let gaps := [] in
  let gaps :=
    if negb (website_is_live intel)
    then (gaps ++ ["Website not accessible"])%list else gaps in
  let gaps :=
    if negb (JS.has_length (contact_emails intel))
    then (gaps ++ ["No email found"])%list else gaps in
  let gaps :=
    if match socialData intel with
       | Some social => (length (SocialHunter.platforms social) =? 0)%nat
       | None => true
       end
    then (gaps ++ ["No social profiles found"])%list else gaps in
  let gaps :=
    if negb (existsb (fun p => String.eqb (SocialHunter.platform p) "linkedin")
               (social_platforms intel))
    then (gaps ++ ["LinkedIn profile not found"])%list else gaps in
  let gaps :=
    if match newsData intel with
       | Some news => NewsAggregator.totalMentions news =? 0
       | None => true
       end
    then (gaps ++ ["No news coverage found"])%list else gaps in
  gaps.

(** The [confidenceScore] expression of [executeResearch]. *)
Definition calculateConfidence (intel : ComprehensiveIntelligence) : Z :=
  JS.Math_round
    (JS.or_null (WebsiteAnalyst.confidenceScore <$> websiteData intel) 0 / 2
     + JS.or_null
         ((fun social =>
             fold_left (fun sum p => sum + SocialHunter.confidenceScore p)%Q
               (SocialHunter.platforms social) 0%Q) <$> socialData intel) 0
       / JS.or_null
           ((fun social => inject_Z (Z.of_nat (length (SocialHunter.platforms social))))
              <$> socialData intel) 1
       / 4
     + 25)%Q.

(** The block "Calculate final scores" of [executeResearch]. *)
Definition calculateFinalScores (intel : ComprehensiveIntelligence)
    : ComprehensiveIntelligence :=
  let digital :=
    JS.or_null (BusinessAnalyzer.digitalMaturityScore <$> businessData intel) 0 in
  let social :=
    JS.or_null (SocialHunter.socialPresenceScore <$> socialData intel) 0 in
  let reputation :=
    JS.or_null (NewsAggregator.reputationScore <$> newsData intel) 50 in
  let opportunity :=
    match businessData intel with
    | Some business =>
        let n := length (BusinessAnalyzer.opportunities business) in
        if (0 <? n)%nat
        then JS.Math_min (inject_Z (Z.of_nat n) * 15) 100
        else 0%Q
    | None => 0%Q
    end in
  (* the four merged scores are assigned first *)
  let intel :=
    set_scores (websiteData intel) (socialData intel) (newsData intel)
      (businessData intel) digital social reputation opportunity
      (completenessScore intel) (confidenceScore intel) (dataGaps intel) intel in
  (* intel.completenessScore = calculateCompleteness(intel) *)
  let intel :=
    set_scores (websiteData intel) (socialData intel) (newsData intel)
      (businessData intel) digital social reputation opportunity
      (calculateCompleteness intel) (confidenceScore intel) (dataGaps intel) intel in
  (* intel.confidenceScore = Math.round(...) *)
  let intel :=
    set_scores (websiteData intel) (socialData intel) (newsData intel)
      (businessData intel) digital social reputation opportunity
      (completenessScore intel) (calculateConfidence intel) (dataGaps intel) intel in
  (* intel.dataGaps = identifyDataGaps(intel) *)
  set_scores (websiteData intel) (socialData intel) (newsData intel)
    (businessData intel) digital social reputation opportunity
    (completenessScore intel) (confidenceScore intel) (identifyDataGaps intel) intel.

(** The row [upsert] writes: [create] when there is none, [update]
    otherwise, where an [undefined] field keeps the stored value. *)
Definition upsert_row (time : Z) (intel : ComprehensiveIntelligence)
    (old : option ResearchResult) : ResearchResult :=
  let keep {A} (new : option A) (stored : ResearchResult -> option A) : option A :=
    match new, old with
    | Some v, _ => Some v
    | None, Some r => stored r
    | None, None => None
    end in
  {| result_completenessScore := completenessScore intel;
     result_confidenceScore := confidenceScore intel;
     result_qualityScore := completenessScore intel;
     result_websiteData := keep (websiteData intel) result_websiteData;
     result_socialMediaData := keep (socialData intel) result_socialMediaData;
     result_newsData := keep (newsData intel) result_newsData;
     result_businessAnalysisData :=
       keep (businessData intel) result_businessAnalysisData;
     mergedIntelligence := intel;
     result_opportunities :=
       keep (BusinessAnalyzer.opportunities <$> businessData intel)
         result_opportunities;
     result_dataGaps := dataGaps intel;
     result_updatedAt :=
       match old with
       | Some _ => Some time
       | None => None
       end |}.

Section WithEnv.

Variable env : Env.

Definition updateJobProgress (jobId : string) (progress : Z)
    (agentUpdates : AgentUpdates) : M Db unit :=
  try_catch
    (researchJob_update env (updateJobProgress_update progress) jobId
       (fun j => set_job_updatedAt (now env (clock_progress progress))
                   (apply_agentUpdates agentUpdates (set_job_progress progress j))))
    (fun _ => ret tt).

(** The four stages, the fusion and the persistence of the result:
    the body of the [try] block. *)
Definition executeResearch_try (jobId companyId_ : string) (company_ : Company)
    (intel : ComprehensiveIntelligence) : M Db ComprehensiveIntelligence :=
  updateJobProgress jobId 5 (websiteAnalysis_is AgentStatus.RUNNING) ;;;
  let* websiteData_ :=
    if JS.truthy_string (website company_)
    then let* r := await (analyzeWebsite env (default "" (website company_))
                            (companyName company_)) in
         ret (Some r)
    else ret (websiteData intel) in
  updateJobProgress jobId 25 (websiteAnalysis_is AgentStatus.COMPLETED) ;;;
  updateJobProgress jobId 30 (socialMediaHunt_is AgentStatus.RUNNING) ;;;
  let socialData_ :=
    Some (SocialHunt.huntSocialProfiles env (companyName company_)
            (JS.or_undefined (website company_)) (JS.or_undefined (phone company_))
            (JS.or_undefined (address company_))) in
  updateJobProgress jobId 50 (socialMediaHunt_is AgentStatus.COMPLETED) ;;;
  updateJobProgress jobId 55 (newsAggregation_is AgentStatus.RUNNING) ;;;
  let* newsData_ :=
    await (aggregateNewsReputation env (companyName company_)
             (JS.or_undefined (address company_))) in
  updateJobProgress jobId 75 (newsAggregation_is AgentStatus.COMPLETED) ;;;
  updateJobProgress jobId 80 (businessAnalysis_is AgentStatus.RUNNING) ;;;
  let* businessData_ :=
    await (analyzeBusinessOpportunities env (companyName company_)
             websiteData_ socialData_ (Some newsData_)) in
  updateJobProgress jobId 100 (businessAnalysis_is AgentStatus.COMPLETED) ;;;
  let intel :=
    calculateFinalScores
      (set_scores websiteData_ socialData_ (Some newsData_) (Some businessData_)
         (digitalMaturityScore intel) (socialPresenceScore intel)
         (reputationScore intel) (opportunityScore intel)
         (completenessScore intel) (confidenceScore intel) (dataGaps intel)
         intel) in
  prisma_call env executeResearch_upsert
    (modify (set_researchResult
               (fun table =>
                  <[companyId_ := upsert_row (now env clock_upsert) intel
                                     (table !! companyId_)]>
                    table))) ;;;
  researchJob_update env executeResearch_jobCompleted jobId
    (fun j => set_completedAt (Some (now env clock_completedAt))
                (set_job_status JobStatus.COMPLETED j)) ;;;
  company_update env executeResearch_companyCompleted companyId_
    (set_company_status CompanyStatus.COMPLETED) ;;;
  ret intel.

Definition executeResearch (jobId : string) : M Db ComprehensiveIntelligence :=
  let* job :=
    prisma_call env executeResearch_findUnique
      (fun db => (db, Returned (researchJob db !! jobId))) in
  match job with
  | None => throw ("Job not found: " ++ jobId)%string
  | Some job =>
      (* include: { company: true } *)
      let* company_ := (fun db => (db, Returned (company db !! job_companyId job))) in
      researchJob_update env executeResearch_jobRunning jobId
        (fun j => set_startedAt (Some (now env clock_startedAt))
                    (set_job_status JobStatus.RUNNING j)) ;;;
      match company_ with
      | None =>
          (* a job without its company: [company.id] cannot be read *)
          throw "Cannot read properties of null (reading 'id')"
      | Some company_ =>
          let companyId_ := job_companyId job in
          company_update env executeResearch_companyResearching companyId_
            (set_company_status CompanyStatus.RESEARCHING) ;;;
          let intel :=
            {| companyId := companyId_; intel_companyName := companyName company_;
               websiteData := None; socialData := None; newsData := None;
               businessData := None; digitalMaturityScore := 0;
               socialPresenceScore := 0; reputationScore := 0;
               opportunityScore := 0; completenessScore := 0;
               confidenceScore := 0; dataGaps := [];
               researchedAt := now env clock_researchedAt |} in
          try_catch
            (executeResearch_try jobId companyId_ company_ intel)
            (fun error =>
               researchJob_update env executeResearch_jobFailed jobId
                 (fun j => set_job_errorMessage (Some error)
                             (set_job_status JobStatus.FAILED j)) ;;;
               company_update env executeResearch_companyFailed companyId_
                 (set_company_status CompanyStatus.FAILED) ;;;
               throw error)
      end
  end.

End WithEnv.

End Orchestrator.

(** ** The scores as the specification words them *)

Module Criteria.
Import Orchestrator.

Definition weight (met : bool) (w : Z) : Z := if met then w else 0.

(** The distinct social platforms that were found. *)
Definition platforms_found (intel : ComprehensiveIntelligence) : gset string :=
  list_to_set (map SocialHunter.platform (social_platforms intel)).

Definition site_is_live (intel : ComprehensiveIntelligence) : bool :=
  match websiteData intel with
  | Some w => WebsiteAnalyst.is_live (WebsiteAnalyst.status w)
  | None => false
  end.

Definition platform_found (intel : ComprehensiveIntelligence) : bool :=
  bool_decide (1 <= size (platforms_found intel))%nat.

Definition mention_found (intel : ComprehensiveIntelligence) : bool :=
  match newsData intel with
  | Some news => bool_decide (1 <= NewsAggregator.totalMentions news)
  | None => false
  end.

Definition opportunity_found (intel : ComprehensiveIntelligence) : bool :=
  match businessData intel with
  | Some business =>
      bool_decide (1 <= length (BusinessAnalyzer.opportunities business))%nat
  | None => false
  end.

Definition contact_found (intel : ComprehensiveIntelligence) : bool :=
  match websiteData intel with
  | Some {| WebsiteAnalyst.contactInfo := Some c |} =>
      match WebsiteAnalyst.emails c, WebsiteAnalyst.phones c with
      | Some (_ :: _), _ | _, Some (_ :: _) => true
      | _, _ => false
      end
  | _ => false
  end.

Definition two_platforms_found (intel : ComprehensiveIntelligence) : bool :=
  bool_decide (2 <= size (platforms_found intel))%nat.

(** The sum of the six all-or-nothing weighted criteria. *)
Definition weighted_sum (intel : ComprehensiveIntelligence) : Z :=
  weight (site_is_live intel) 30
  + weight (platform_found intel) 20
  + weight (mention_found intel) 15
  + weight (opportunity_found intel) 15
  + weight (contact_found intel) 10
  + weight (two_platforms_found intel) 10.

Definition website_confidence (intel : ComprehensiveIntelligence) : Q :=
  match websiteData intel with
  | Some w => WebsiteAnalyst.confidenceScore w
  | None => 0
  end.

(** The mean of the per-platform confidences, [0] without platforms. *)
Definition social_confidence (intel : ComprehensiveIntelligence) : Q :=
  match social_platforms intel with
  | [] => 0
  | ps => mean (map SocialHunter.confidenceScore ps)
  end.

Definition confidence_formula (intel : ComprehensiveIntelligence) : Z :=
  JS.Math_round (website_confidence intel / 2 + social_confidence intel / 4 + 25).

End Criteria.

(** What [executeResearch] returns went through the social hunt and the
    final scores. *)
Definition fused_by (env : Env) (intel : ComprehensiveIntelligence) : Prop :=
  (exists name website_ phone_ location_,
      socialData intel
      = Some (SocialHunt.huntSocialProfiles env name website_ phone_ location_))
  /\ completenessScore intel = Orchestrator.calculateCompleteness intel
  /\ confidenceScore intel = Orchestrator.calculateConfidence intel
  /\ dataGaps intel = Orchestrator.identifyDataGaps intel
  /\ is_Some (newsData intel)
  /\ is_Some (businessData intel).

(** ** Outcomes of a run of [executeResearch] *)

Section RunOutcomes.

Variables (env : Env) (db : Db) (jobId : string) (job : ResearchJob) (comp : Company).

(** A collaborator call of one of the stages rejects with [e]. *)
Definition stage_rejects (e : string) : Prop :=
  (exists url, analyzeWebsite env url (companyName comp) = Rejects e)
  \/ aggregateNewsReputation env (companyName comp)
       (JS.or_undefined (address comp)) = Rejects e
  \/ (exists w s n,
        analyzeBusinessOpportunities env (companyName comp) w s n = Rejects e).

(** The intelligence table holds, besides what it held, the row that
    the upsert of the fused record [intel] writes for the subject. *)
Definition result_persisted (intel : ComprehensiveIntelligence) (db' : Db) : Prop :=
  fused_by env intel
  /\ researchResult db'
     = <[job_companyId job :=
           Orchestrator.upsert_row (now env clock_upsert) intel
             (researchResult db !! job_companyId job)]> (researchResult db).

(** Job and subject are marked Failed with the message [e], which came
    out of a stage or of a persistence step of the guarded sequence; the
    intelligence table is as it was, unless the exception came from a
    write that follows the upsert. *)
Definition run_failed (e : string) (db' : Db) : Prop :=
  job_status <$> researchJob db' !! jobId = Some JobStatus.FAILED
  /\ job_errorMessage <$> researchJob db' !! jobId = Some (Some e)
  /\ company_status <$> company db' !! job_companyId job = Some CompanyStatus.FAILED
  /\ (((stage_rejects e \/ dbFault env executeResearch_upsert = Some e)
       /\ researchResult db' = researchResult db)
      \/ ((dbFault env executeResearch_jobCompleted = Some e
           \/ dbFault env executeResearch_companyCompleted = Some e)
          /\ exists intel, result_persisted intel db')).

(** Job and subject are marked Completed and the one record [intel] was
    upserted. *)
Definition run_completed (intel : ComprehensiveIntelligence) (db' : Db) : Prop :=
  job_status <$> researchJob db' !! jobId = Some JobStatus.COMPLETED
  /\ company_status <$> company db' !! job_companyId job
     = Some CompanyStatus.COMPLETED
  /\ result_persisted intel db'.

(** Inside the guarded sequence: the job and the subject are there and
    the intelligence table is as at the start. *)
Definition tables_ok (db' : Db) : Prop :=
  is_Some (researchJob db' !! jobId)
  /\ is_Some (company db' !! job_companyId job)
  /\ researchResult db' = researchResult db.

(** What the [try] block leaves behind. *)
Definition try_outcome (db' : Db) (r : Result ComprehensiveIntelligence) : Prop :=
  match r with
  | Returned intel => run_completed intel db'
  | Thrown e =>
      is_Some (researchJob db' !! jobId)
      /\ is_Some (company db' !! job_companyId job)
      /\ (((stage_rejects e \/ dbFault env executeResearch_upsert = Some e)
           /\ researchResult db' = researchResult db)
          \/ ((dbFault env executeResearch_jobCompleted = Some e
               \/ dbFault env executeResearch_companyCompleted = Some e)
              /\ exists intel, result_persisted intel db'))
  end.

End RunOutcomes.

(** The run gets as far as the guarded stage sequence. *)
Definition enters_stages (env : Env) : Prop :=
  dbFault env executeResearch_findUnique = None
  /\ dbFault env executeResearch_jobRunning = None
  /\ dbFault env executeResearch_companyResearching = None.

(** The two writes of the [catch] block go through. *)
Definition failure_marking_ok (env : Env) : Prop :=
  dbFault env executeResearch_jobFailed = None
  /\ dbFault env executeResearch_companyFailed = None.

(** The tables of the evolution engine are as they were. *)
Definition engine_untouched (db0 db : Db) : Prop :=
  evolutionLog db = evolutionLog db0 /\ sourceConfig db = sourceConfig db0.

(** ** Cancel route ([src/server/routes/research.ts]) *)

Module ResearchRoutes.

Inductive Body :=
| success_true
| error_body (message : string).

(** [res.status(code).json(body)]; [res.json] alone answers 200. *)
Record Response := { statusCode : Z; body : Body }.

Definition cancellable (s : JobStatus.t) : bool :=
  match s with
  | JobStatus.PENDING | JobStatus.QUEUED | JobStatus.RUNNING => true
  | _ => false
  end.

Section WithEnv.

Variable env : Env.

(** [POST /api/research/:id/cancel] for the authenticated [userId]. *)
Definition cancel (userId id : string) : M Db Response :=
  try_catch
    (let* job :=
       prisma_call env cancel_findFirst
         (fun db =>
            (db, Returned
                   (match researchJob db !! id with
                    | Some j => if String.eqb (job_userId j) userId
                                then Some j else None
                    | None => None
                    end))) in
     match job with
     | None =>
         ret {| statusCode := 404; body := error_body "Research job not found" |}
     | Some job =>
         if negb (cancellable (job_status job))
         then ret {| statusCode := 400;
                     body := error_body "Job cannot be cancelled" |}
         else
           researchJob_update env cancel_jobUpdate id
             (set_job_status JobStatus.CANCELLED) ;;;
           company_update env cancel_companyUpdate (job_companyId job)
             (set_company_status CompanyStatus.PENDING) ;;;
           ret {| statusCode := 200; body := success_true |}
     end)
    (fun _ => ret {| statusCode := 500; body := error_body "Failed to cancel job" |}).

End WithEnv.

End ResearchRoutes.

(** ** Environments in which the engine's Prisma calls go through *)

Definition metrics_sites_ok (env : Env) : Prop :=
  dbFault env updateSourceMetrics_findUnique = None /\
  dbFault env updateSourceMetrics_update = None /\
  dbFault env updateSourceMetrics_create = None.

Definition success_sites_ok (env : Env) : Prop :=
  dbFault env logSourceSuccess_create = None /\ metrics_sites_ok env.

Definition failure_sites_ok (env : Env) : Prop :=
  dbFault env logSourceFailure_create = None /\ metrics_sites_ok env.


(** The three Prisma calls of the cancel route go through. *)
Definition cancel_sites_ok (env : Env) : Prop :=
  dbFault env cancel_findFirst = None
  /\ dbFault env cancel_jobUpdate = None
  /\ dbFault env cancel_companyUpdate = None.

(** ** Sample data *)

Module Samples.

Definition website_live : WebsiteAnalysisResult :=
  {| WebsiteAnalyst.url := "acme.example";
     WebsiteAnalyst.status := WebsiteAnalyst.live;
     WebsiteAnalyst.contactInfo :=
       Some {| WebsiteAnalyst.emails := Some ["info@acme.example"];
               WebsiteAnalyst.phones := None |};
     WebsiteAnalyst.confidenceScore := 80;
     WebsiteAnalyst.errors := [] |}.

Definition news_none : NewsReputationResult :=
  {| NewsAggregator.companyName := "Acme"; NewsAggregator.totalMentions := 0;
     NewsAggregator.reputationScore := 50; NewsAggregator.errors := [] |}.

Definition business_one : BusinessAnalysisResult :=
  {| BusinessAnalyzer.companyName := "Acme";
     BusinessAnalyzer.digitalMaturityScore := 40;
     BusinessAnalyzer.opportunities :=
       [{| BusinessAnalyzer.area := "Website";
           BusinessAnalyzer.recommendation := "Add a contact form";
           BusinessAnalyzer.priority := 1 |}];
     BusinessAnalyzer.errors := [] |}.

(** A clock that has moved on between the readings of a run. *)
Definition sample_clock (site : ClockSite) : Z :=
  match site with
  | clock_logged | clock_lastUsed => 1000
  | clock_startedAt => 1000
  | clock_researchedAt => 1001
  | clock_progress progress => 1001 + progress
  | clock_upsert => 1102
  | clock_completedAt => 1103
  end.

(** Every Prisma call goes through; the site is live with one email,
    LinkedIn and Twitter profiles are found and verified, there is no
    news and one opportunity. *)
Definition env_ok : Env :=
  {| now := sample_clock;
     dbFault := fun _ => None;
     analyzeWebsite := fun _ _ => Resolves website_live;
     exaBestMatch :=
       fun _ p _ _ =>
         if String.eqb p "linkedin" || String.eqb p "twitter"
         then Some {| SocialHunter.match_url := "https://social.example/acme";
                      SocialHunter.match_handle := Some "acme";
                      SocialHunter.match_score := Some (9 # 10) |}
         else None;
     verifyWithTavily := fun _ _ => true;
     aggregateNewsReputation := fun _ _ => Resolves news_none;
     analyzeBusinessOpportunities := fun _ _ _ _ => Resolves business_one |}.

(** As [env_ok], but the website analysis reports a confidence of 200,
    above its documented range. *)
Definition env_overrated : Env :=
  {| now := now env_ok;
     dbFault := dbFault env_ok;
     analyzeWebsite :=
       fun _ _ =>
         Resolves {| WebsiteAnalyst.url := "acme.example";
                     WebsiteAnalyst.status := WebsiteAnalyst.live;
                     WebsiteAnalyst.contactInfo := None;
                     WebsiteAnalyst.confidenceScore := 200;
                     WebsiteAnalyst.errors := [] |};
     exaBestMatch := exaBestMatch env_ok;
     verifyWithTavily := verifyWithTavily env_ok;
     aggregateNewsReputation := aggregateNewsReputation env_ok;
     analyzeBusinessOpportunities := analyzeBusinessOpportunities env_ok |}.

(** As [env_ok], but the Prisma call at [site] throws [message]. *)
Definition env_fault (site : DbSite) (message : string) : Env :=
  {| now := now env_ok;
     dbFault :=
       fun s => if decide (s = site) then Some message else None;
     analyzeWebsite := analyzeWebsite env_ok;
     exaBestMatch := exaBestMatch env_ok;
     verifyWithTavily := verifyWithTavily env_ok;
     aggregateNewsReputation := aggregateNewsReputation env_ok;
     analyzeBusinessOpportunities := analyzeBusinessOpportunities env_ok |}.

Definition source_row (rate avgDuration avgQuality : Q) : SourceConfig :=
  {| isEnabled := true; priority := 5; successRate := rate;
     avgDurationMs := avgDuration; avgQualityScore := avgQuality;
     requestsPerMinute := 10; delayBetweenMs := 6000; dailyLimit := 500;
     currentDailyUsage := 0; lastUsed := None |}.

Definition job_queued : ResearchJob :=
  {| job_companyId := "c1"; job_userId := "u1"; job_status := JobStatus.QUEUED;
     job_priority := 0; job_progress := 0;
     websiteAnalysis := AgentStatus.PENDING; socialMediaHunt := AgentStatus.PENDING;
     ownerInvestigation := AgentStatus.PENDING;
     competitorMapping := AgentStatus.PENDING;
     newsAggregation := AgentStatus.PENDING; businessAnalysis := AgentStatus.PENDING;
     startedAt := None; completedAt := None; job_errorMessage := None;
     job_updatedAt := 0 |}.

Definition acme : Company :=
  {| company_userId := "u1"; companyName := "Acme";
     website := Some "acme.example"; phone := None; address := None;
     company_status := CompanyStatus.QUEUED |}.

Definition db_empty : Db :=
  {| evolutionLog := []; sourceConfig := ∅; researchJob := ∅; company := ∅;
     researchResult := ∅ |}.

(** One source, [exa], with the given row. *)
Definition db_source (row : SourceConfig) : Db :=
  {| evolutionLog := []; sourceConfig := {["exa" := row]};
     researchJob := ∅; company := ∅; researchResult := ∅ |}.

(** The source [exa] at a success rate of [100 - 2 ^ -44]. *)
Definition db_stalled : Db :=
  db_source (source_row (1759218604441599 # 17592186044416) 100 60).

(** One source, [exa], at a success rate of 80. *)
Definition db_exa : Db :=
  {| evolutionLog := []; sourceConfig := {["exa" := source_row 80 100 60]};
     researchJob := ∅; company := ∅; researchResult := ∅ |}.

(** One queued job [j1] of user [u1] for the company [c1]. *)
Definition db_job : Db :=
  {| evolutionLog := []; sourceConfig := ∅;
     researchJob := {["j1" := job_queued]}; company := {["c1" := acme]};
     researchResult := ∅ |}.


(** As [db_job], with the job [j1] in the given status. *)
Definition db_job_in (status : JobStatus.t) : Db :=
  {| evolutionLog := []; sourceConfig := ∅;
     researchJob := {["j1" := set_job_status status job_queued]};
     company := {["c1" := set_company_status CompanyStatus.RESEARCHING acme]};
     researchResult := ∅ |}.


End Samples.

(** ** Further vocabulary of the orchestrator *)

(** The gap descriptions of [identifyDataGaps], in the order of its tests. *)
Definition all_gaps : list string :=
  ["Website not accessible"; "No email found"; "No social profiles found";
   "LinkedIn profile not found"; "No news coverage found"].

(** The news stage counts its mentions up from zero. *)
Definition mentions_counted (intel : ComprehensiveIntelligence) : Prop :=
  match newsData intel with
  | Some news => 0 <= NewsAggregator.totalMentions news
  | None => True
  end.

(** The columns of a job that identify it and that no stage of the
    pipeline owns. *)
Definition job_identity (j : ResearchJob)
    : string * string * Z * AgentStatus.t * AgentStatus.t :=
  (job_companyId j, job_userId j, job_priority j, ownerInvestigation j,
   competitorMapping j).

(** The attributes of a subject, its mirrored status apart. *)
Definition company_attributes (c : Company)
    : string * string * option string * option string * option string :=
  (company_userId c, companyName c, website c, phone c, address c).

(** A stage status is as it was, or Running, or Completed. *)
Definition stage_moved (before after : AgentStatus.t) : Prop :=
  after = before \/ after = AgentStatus.RUNNING \/ after = AgentStatus.COMPLETED.

Definition job_advanced (j0 j : ResearchJob) : Prop :=
  job_identity j = job_identity j0
  /\ stage_moved (websiteAnalysis j0) (websiteAnalysis j)
  /\ stage_moved (socialMediaHunt j0) (socialMediaHunt j)
  /\ stage_moved (newsAggregation j0) (newsAggregation j)
  /\ stage_moved (businessAnalysis j0) (businessAnalysis j).

(** What a run for the job [jobId], first read as [j0], may have changed
    between [db0] and [db]: that job, the status of its subject and the
    intelligence row of its subject. *)
Definition run_frame (jobId : string) (j0 : ResearchJob) (db0 db : Db) : Prop :=
  (forall id, id <> jobId -> researchJob db !! id = researchJob db0 !! id)
  /\ (forall c, c <> job_companyId j0 -> company db !! c = company db0 !! c)
  /\ (forall c, c <> job_companyId j0 ->
                researchResult db !! c = researchResult db0 !! c)
  /\ company_attributes <$> company db !! job_companyId j0
     = company_attributes <$> company db0 !! job_companyId j0
  /\ exists j, researchJob db !! jobId = Some j /\ job_advanced j0 j.

(** Every progress write goes through. *)
Definition progress_sites_ok (env : Env) : Prop :=
  forall p, dbFault env (updateJobProgress_update p) = None.

(** The job as a completed run with all its progress writes leaves it:
    started at the reading [started] of the clock, completed at the
    reading [completed]. *)
Definition job_completed (started completed : Z) (j : ResearchJob) : Prop :=
  job_status j = JobStatus.COMPLETED
  /\ job_progress j = 100
  /\ websiteAnalysis j = AgentStatus.COMPLETED
  /\ socialMediaHunt j = AgentStatus.COMPLETED
  /\ newsAggregation j = AgentStatus.COMPLETED
  /\ businessAnalysis j = AgentStatus.COMPLETED
  /\ startedAt j = Some started
  /\ completedAt j = Some completed.

(** The platform names the social hunt searches, in its order. *)
Definition platform_names : list string := map fst SocialHunt.platformDomains.

(** The weights of the verified profiles, added up. *)
Definition verified_weight (profiles : list SocialProfile) : Q :=
  fold_right Qplus 0%Q
    (map (fun p => SocialHunt.weight_of SocialHunt.platformWeights (SocialHunter.platform p))
       (List.filter SocialHunter.verified profiles)).

(** Every score the Exa search reports lies in [0,1]. *)
Definition exa_scores_in_range (env : Env) : Prop :=
  forall name platform domain location m score,
    exaBestMatch env name platform domain location = Some m ->
    SocialHunter.match_score m = Some score ->
    (0 <= score <= 1)%Q.

(** More sample data. *)
Module MoreSamples.

(** The record [executeResearch] starts from, for the company [c1]. *)
Definition intel_blank : ComprehensiveIntelligence :=
  {| companyId := "c1"; intel_companyName := "Acme"; websiteData := None;
     socialData := None; newsData := None; businessData := None;
     digitalMaturityScore := 0; socialPresenceScore := 0; reputationScore := 0;
     opportunityScore := 0; completenessScore := 0; confidenceScore := 0;
     dataGaps := []; researchedAt := 0 |}.

(** A subject without a website, researched before: the row [c1] of the
    intelligence table holds the website data of that earlier run. *)
Definition acme_offline : Company :=
  {| company_userId := "u1"; companyName := "Acme"; website := None; phone := None;
     address := None; company_status := CompanyStatus.QUEUED |}.

Definition db_rerun : Db :=
  {| evolutionLog := []; sourceConfig := ∅;
     researchJob := {["j1" := Samples.job_queued]};
     company := {["c1" := acme_offline]};
     researchResult :=
       {["c1" := Orchestrator.upsert_row 0
                   (Orchestrator.set_scores (Some Samples.website_live) None None None
                      0 0 0 0 30 50 [] intel_blank) None]} |}.

(** A record with a live website, an email, the profiles the social hunt
    finds under [env_ok] and three news mentions. *)
Definition news_some : NewsReputationResult :=
  {| NewsAggregator.companyName := "Acme"; NewsAggregator.totalMentions := 3;
     NewsAggregator.reputationScore := 60; NewsAggregator.errors := [] |}.

Definition intel_covered : ComprehensiveIntelligence :=
  Orchestrator.set_scores (Some Samples.website_live)
    (Some (SocialHunt.huntSocialProfiles Samples.env_ok "Acme" None None None))
    (Some news_some) None 0 0 0 0 0 0 [] intel_blank.

End MoreSamples.

(** ** Further vocabulary of the evolution engine *)

(** The columns of a source that the engine reads its limits from. *)
Definition source_limits (row : SourceConfig) : Z * Z * Z * Z :=
  (priority row, requestsPerMinute row, delayBetweenMs row, dailyLimit row).

(** Every rate of the table is a percentage, and a disabled source has
    a rate of at most 20. *)
Definition rates_in_range (db : Db) : Prop :=
  map_Forall
    (fun _ row => (0 <= successRate row <= 100)%Q
                  /\ (isEnabled row = false -> (successRate row <= 20)%Q))
    (sourceConfig db).

(** No event of the log is an [ADAPTATION_APPLIED] event. *)
Definition no_adaptation (log : list EvolutionLog) : Prop :=
  Forall (fun r => eventType r <> ADAPTATION_APPLIED) log.

(** What [updateSourceMetrics] makes of the row of a source: [old] is
    the row it read, [new] the row it wrote. *)
Definition row_updated (old : option SourceConfig) (new : SourceConfig) : Prop :=
  match old with
  | Some row =>
      source_limits new = source_limits row
      /\ currentDailyUsage new = currentDailyUsage row + 1
      /\ (successRate new
          = Evolution.rate_after_success (JS.num (successRate row))
          \/ successRate new
             = Evolution.rate_after_failure (JS.num (successRate row)))
      /\ isEnabled new = JS.gt (successRate new) 20
  | None =>
      source_limits new = (5, 10, 6000, 500)
      /\ currentDailyUsage new = Evolution.default_currentDailyUsage
      /\ (successRate new = 100%Q \/ successRate new = 0%Q)
      /\ isEnabled new = true
  end.

(** What one logging call of the engine may change. *)
Definition engine_step (db db' : Db) : Prop :=
  researchJob db' = researchJob db
  /\ company db' = company db
  /\ researchResult db' = researchResult db
  /\ (evolutionLog db' = evolutionLog db
      \/ exists ev, evolutionLog db' = ev :: evolutionLog db
                    /\ eventType ev <> ADAPTATION_APPLIED)
  /\ (sourceConfig db' = sourceConfig db
      \/ exists name row',
           sourceConfig db' = <[name := row']> (sourceConfig db)
           /\ row_updated (sourceConfig db !! name) row').

(** ** The read side of the evolution engine

    [getSourcePerformance], [getBestSources] and [getEvolutionStats] only
    read the tables and have no [catch]: a failing Prisma call makes them
    throw. *)

Module EvolutionReads.

(** The Prisma calls of the read side, each of which may fail. *)
Inductive ReadSite :=
| getSourcePerformance_findMany
| getBestSources_findMany
| getEvolutionStats_total
| getEvolutionStats_success
| getEvolutionStats_failure
| getEvolutionStats_researchComplete
| getEvolutionStats_recent.

Record SourcePerformance := {
  sourceName : string;
  perf_successRate : Q;
  perf_avgDurationMs : Q;
  perf_avgQualityScore : Q;
  perf_lastUsed : option Z;
  perf_isEnabled : bool;
}.

Record EvolutionStats := {
  totalEvents : nat;
  successCount : nat;
  failureCount : nat;
  researchCompleteCount : nat;
  recentEvents : list EvolutionLog;
}.

Section WithFaults.

(** [Some e]: the Prisma call at this site throws [e]. *)
Variable readFault : ReadSite -> option string.

Definition read_call {A} (site : ReadSite) (read : Db -> A) : M Db A :=
  match readFault site with
  | Some e => throw e
  | None => fun db => (db, Returned (read db))
  end.

Definition getSourcePerformance : M Db (list SourcePerformance) :=
  let* sources :=
    read_call getSourcePerformance_findMany
      (fun db =>
         sort_by (fun a b => JS.ge (successRate a.2) (successRate b.2))
           (Evolution.sourceConfig_rows db)) in
  ret (map (fun s =>
              {| sourceName := s.1;
                 perf_successRate := successRate s.2;
                 perf_avgDurationMs := avgDurationMs s.2;
                 perf_avgQualityScore := avgQualityScore s.2;
                 perf_lastUsed := lastUsed s.2;
                 perf_isEnabled := isEnabled s.2 |}) sources).

(** [orderBy: [{ successRate: 'desc' }, { avgQualityScore: 'desc' }]]. *)
Definition by_rate_then_quality (a b : string * SourceConfig) : bool :=
  JS.gt (successRate a.2) (successRate b.2)
  || (Qeq_bool (successRate a.2) (successRate b.2)
      && JS.ge (avgQualityScore a.2) (avgQualityScore b.2)).

Definition getBestSources (minSuccessRate : Q) : M Db (list string) :=
  let* sources :=
    read_call getBestSources_findMany
      (fun db =>
         findMany (Evolution.sourceConfig_rows db)
           (fun s => isEnabled s.2 && JS.ge (successRate s.2) minSuccessRate)
           by_rate_then_quality 5) in
  ret (map fst sources).

(** The default of the parameter [minSuccessRate]. *)
Definition default_minSuccessRate : Q := 50.

(** [prisma.evolutionLog.count({ where: { eventType } })]. *)
Definition count_events (type : EventType) (db : Db) : nat :=
  length (List.filter (fun r => EventType_eqb (eventType r) type) (evolutionLog db)).

(** The five calls of the [Promise.all], awaited in the order of the
    array. *)
Definition getEvolutionStats : M Db EvolutionStats :=
  let* total :=
    read_call getEvolutionStats_total (fun db => length (evolutionLog db)) in
  let* success :=
    read_call getEvolutionStats_success (count_events SOURCE_SUCCESS) in
  let* failure :=
    read_call getEvolutionStats_failure (count_events SOURCE_FAILURE) in
  let* researchComplete :=
    read_call getEvolutionStats_researchComplete (count_events RESEARCH_COMPLETE) in
  let* recent :=
    read_call getEvolutionStats_recent (fun db => take 10 (evolutionLog db)) in
  ret {| totalEvents := total; successCount := success; failureCount := failure;
         researchCompleteCount := researchComplete; recentEvents := recent |}.

End WithFaults.

(** No read fails. *)
Definition reads_ok (readFault : ReadSite -> option string) : Prop :=
  forall site, readFault site = None.

End EvolutionReads.

(** The source table of a database with the given rows. *)
Definition db_sources (rows : list (string * SourceConfig)) : Db :=
  {| evolutionLog := []; sourceConfig := list_to_map rows; researchJob := ∅;
     company := ∅; researchResult := ∅ |}.

(** ** The routes that start a run ([src/server/routes/research.ts])

    [POST /start] queues a job and lets the run go on its own;
    [POST /execute/:companyId] creates a job and waits for the run. *)

Module StartRoutes.

(** The Prisma calls of the two routes, each of which may fail. *)
Inductive RouteSite :=
| start_companyFindFirst
| start_jobFindFirst
| start_jobCreate
| start_companyUpdate
| execute_companyFindFirst
| execute_jobCreate.

(** What the routes take from outside, besides the environment of the
    run: the Prisma schema is not among the sources, so the id that
    [create] gives a job and the columns that it leaves to their defaults
    are read from here. *)
Record RouteEnv := {
  (** [Some e]: the Prisma call at this site throws [e]. *)
  routeFault : RouteSite -> option string;
  newJobId : string;
  jobDefaults : ResearchJob;
}.

(** The body of a request to [/start]: [companyId] is [None] when it is
    missing or not a string; a priority, when there is one, is taken to be
    an integer. *)
Record StartRequest := {
  req_companyId : option string;
  req_priority : option Z;
}.

Inductive Body :=
| job_body (id : string) (job : ResearchJob)
| in_progress_body (message : string) (jobId : string)
| result_body (jobId : string) (result : ComprehensiveIntelligence)
| error_body (message : string).

(** [res.status(code).json(body)]; [res.json] alone answers 200. *)
Record Response := { statusCode : Z; body : Body }.

(** [z.object({ companyId: z.string(),
                priority: z.number().min(0).max(10).optional() }).parse],
    with the default [priority = 0] of the destructuring. *)
Definition parse (request : StartRequest) : option (string * Z) :=
  match req_companyId request with
  | None => None
  | Some companyId_ =>
      match req_priority request with
      | None => Some (companyId_, 0)
      | Some priority_ =>
          if (0 <=? priority_) && (priority_ <=? 10)
          then Some (companyId_, priority_)
          else None
      end
  end.

(** [status: { in: ['PENDING', 'QUEUED', 'RUNNING'] }]. *)
Definition in_progress (s : JobStatus.t) : bool :=
  match s with
  | JobStatus.PENDING | JobStatus.QUEUED | JobStatus.RUNNING => true
  | _ => false
  end.

(** [prisma.company.findFirst({ where: { id: companyId, userId } })]. *)
Definition company_findFirst (companyId_ userId : string) (db : Db) : option Company :=
  match company db !! companyId_ with
  | Some c => if String.eqb (company_userId c) userId then Some c else None
  | None => None
  end.

(** [prisma.researchJob.findFirst({ where: { companyId, status: { in } } })]:
    the first such job in the order of the table. *)
Definition job_findFirst (companyId_ : string) (db : Db)
    : option (string * ResearchJob) :=
  head (List.filter
          (fun row => String.eqb (job_companyId row.2) companyId_
                      && in_progress (job_status row.2))
          (map_to_list (researchJob db))).

(** The row [prisma.researchJob.create({ data })] writes. *)
Definition created_job (defaults : ResearchJob) (companyId_ userId : string)
    (priority_ : Z) : ResearchJob :=
  {| job_companyId := companyId_; job_userId := userId;
     job_status := JobStatus.QUEUED; job_priority := priority_;
     job_progress := job_progress defaults;
     websiteAnalysis := websiteAnalysis defaults;
     socialMediaHunt := socialMediaHunt defaults;
     ownerInvestigation := ownerInvestigation defaults;
     competitorMapping := competitorMapping defaults;
     newsAggregation := newsAggregation defaults;
     businessAnalysis := businessAnalysis defaults;
     startedAt := startedAt defaults; completedAt := completedAt defaults;
     job_errorMessage := job_errorMessage defaults;
     job_updatedAt := job_updatedAt defaults |}.

Definition researchJob_create (id : string) (row : ResearchJob)
    : M Db (string * ResearchJob) :=
  fun db =>
    match researchJob db !! id with
    | Some _ => (db, Thrown "Unique constraint failed on the fields: (`id`)")
    | None => (set_researchJob (insert id row) db, Returned (id, row))
    end.

Definition company_write (id : string) (data : Company -> Company) : M Db unit :=
  fun db =>
    match company db !! id with
    | Some c => (set_company (insert id (data c)) db, Returned tt)
    | None => (db, Thrown "Record to update not found.")
    end.

Section WithEnv.

Variable renv : RouteEnv.

Definition route_call {A} (site : RouteSite) (op : M Db A) : M Db A :=
  match routeFault renv site with
  | Some e => throw e
  | None => op
  end.

(** [POST /api/research/start] for the authenticated [userId].  Only
    [parse] throws a [ZodError], so the 400 of the [catch] block is the
    answer to a body that does not parse.  [spawn] is what the call
    [executeResearch(job.id).catch(...)] sets going: the route does not
    wait for it and answers the same whatever becomes of it. *)
Definition start (spawn : string -> M Db unit) (userId : string)
    (request : StartRequest) : M Db Response :=
  match parse request with
  | None => ret {| statusCode := 400; body := error_body "Invalid input" |}
  | Some (companyId_, priority_) =>
      try_catch
        (let* company_ :=
           route_call start_companyFindFirst
             (fun db => (db, Returned (company_findFirst companyId_ userId db))) in
         match company_ with
         | None =>
             ret {| statusCode := 404; body := error_body "Company not found" |}
         | Some _ =>
             let* existingJob :=
               route_call start_jobFindFirst
                 (fun db => (db, Returned (job_findFirst companyId_ db))) in
             match existingJob with
             | Some existingJob =>
                 ret {| statusCode := 400;
                        body := in_progress_body "Research job already in progress"
                                  existingJob.1 |}
             | None =>
                 let* job :=
                   route_call start_jobCreate
                     (researchJob_create (newJobId renv)
                        (created_job (jobDefaults renv) companyId_ userId
                           (if priority_ =? 0 then 0 else priority_))) in
                 route_call start_companyUpdate
                   (company_write companyId_
                      (set_company_status CompanyStatus.QUEUED)) ;;;
                 spawn job.1 ;;;
                 ret {| statusCode := 201; body := job_body job.1 job.2 |}
             end
         end)
        (fun _ =>
           ret {| statusCode := 500; body := error_body "Failed to start research" |})
  end.

(** The run in the background, once it has settled: its failure is
    logged and goes no further. *)
Definition background (env : Env) (jobId : string) : M Db unit :=
  try_catch (Orchestrator.executeResearch env jobId ;;; ret tt) (fun _ => ret tt).

(** The route up to its answer, before the run has done anything. *)
Definition no_spawn (jobId : string) : M Db unit := ret tt.

(** [POST /api/research/execute/:companyId] for the authenticated
    [userId]. *)
Definition execute (env : Env) (userId companyId_ : string) : M Db Response :=
  try_catch
    (let* company_ :=
       route_call execute_companyFindFirst
         (fun db => (db, Returned (company_findFirst companyId_ userId db))) in
     match company_ with
     | None => ret {| statusCode := 404; body := error_body "Company not found" |}
     | Some _ =>
         let* job :=
           route_call execute_jobCreate
             (researchJob_create (newJobId renv)
                (created_job (jobDefaults renv) companyId_ userId 10)) in
         let* result := Orchestrator.executeResearch env job.1 in
         ret {| statusCode := 200; body := result_body job.1 result |}
     end)
    (fun _ =>
       ret {| statusCode := 500; body := error_body "Failed to execute research" |}).

End WithEnv.

(** The four Prisma calls of [start] go through. *)
Definition start_sites_ok (renv : RouteEnv) : Prop :=
  routeFault renv start_companyFindFirst = None
  /\ routeFault renv start_jobFindFirst = None
  /\ routeFault renv start_jobCreate = None
  /\ routeFault renv start_companyUpdate = None.

(** The two Prisma calls of [execute] go through. *)
Definition execute_sites_ok (renv : RouteEnv) : Prop :=
  routeFault renv execute_companyFindFirst = None
  /\ routeFault renv execute_jobCreate = None.

(** No job of the subject [companyId_] is pending, queued or running. *)
Definition no_job_in_progress (companyId_ : string) (db : Db) : Prop :=
  forall id job,
    researchJob db !! id = Some job ->
    job_companyId job = companyId_ ->
    in_progress (job_status job) = false.

(** The tables after a [start] that was accepted. *)
Definition started (renv : RouteEnv) (userId companyId_ : string) (priority_ : Z)
    (comp : Company) (db : Db) : Db :=
  set_company
    (insert companyId_ (set_company_status CompanyStatus.QUEUED comp))
    (set_researchJob
       (insert (newJobId renv)
          (created_job (jobDefaults renv) companyId_ userId priority_)) db).

End StartRoutes.

Module RouteSamples.

(** Every call of the routes goes through; the next job is [j2]. *)
Definition renv_ok : StartRoutes.RouteEnv :=
  {| StartRoutes.routeFault := fun _ => None;
     StartRoutes.newJobId := "j2";
     StartRoutes.jobDefaults := Samples.job_queued |}.


(** The subject [c1] of user [u1], without any job. *)
Definition db_company : Db :=
  {| evolutionLog := []; sourceConfig := ∅; researchJob := ∅;
     company := {["c1" := set_company_status CompanyStatus.PENDING Samples.acme]};
     researchResult := ∅ |}.

Definition request (priority_ : option Z) : StartRoutes.StartRequest :=
  {| StartRoutes.req_companyId := Some "c1"; StartRoutes.req_priority := priority_ |}.

End RouteSamples.

(** * Properties *)

Lemma prisma_call_ok {S A} env site (op : M S A) :
  dbFault env site = None -> prisma_call env site op = op.
Proof. intros H. unfold prisma_call. now rewrite H. Qed.

Lemma prisma_call_fault {S A} env site e (op : M S A) :
  dbFault env site = Some e -> prisma_call env site op = throw e.
Proof. intros H. unfold prisma_call. now rewrite H. Qed.

Lemma gt_iff (x y : Q) : JS.gt x y = true <-> (y < x)%Q.
Proof.
  unfold JS.gt. rewrite negb_true_iff, <- not_true_iff_false, Qle_bool_iff.
  split; [apply Qnot_le_lt | apply Qlt_not_le].
Qed.

Lemma gt_false_iff (x y : Q) : JS.gt x y = false <-> (x <= y)%Q.
Proof. unfold JS.gt. rewrite negb_false_iff. apply Qle_bool_iff. Qed.

Lemma lt_iff (x y : Q) : JS.lt x y = true <-> (x < y)%Q.
Proof. apply (gt_iff y x). Qed.


(** A [reduce] that sums from the left is the sum of the list. *)
Lemma fold_left_sum (T : Type) (g : T -> Q) (l : list T) (a : Q) :
  (fold_left (fun s r => s + g r)%Q l a == a + fold_right Qplus 0 (map g l))%Q.
Proof.
  revert a. induction l as [|x l IH]; intros a; cbn [fold_left fold_right map].
  - lra.
  - rewrite IH. lra.
Qed.

Lemma or_num_zero (x : Q) : (JS.or_num x 0 == x)%Q.
Proof.
  unfold JS.or_num. destruct (Qeq_bool x 0) eqn:H; [|reflexivity].
  apply Qeq_bool_eq in H. now rewrite H.
Qed.

(** A [try] whose [catch] only logs always returns. *)
Lemma try_catch_swallow {S} (body : M S unit) (s : S) :
  (try_catch body (fun _ => ret tt) s).2 = Returned tt.
Proof.
  unfold try_catch. destruct (body s) as [s' [[]|e]]; reflexivity.
Qed.

(** ** Double-precision rounding *)

Module DoubleFacts.
Import JS.

Lemma pow2_pos (e : Z) : (0 < pow2 e)%Q.
Proof. apply Qpower_0_lt. reflexivity. Qed.

Lemma pow2_add (a b : Z) : (pow2 (a + b) == pow2 a * pow2 b)%Q.
Proof. apply Qpower_plus. intros H. discriminate H. Qed.

Lemma pow2_sub (a b : Z) : (pow2 (a - b) == pow2 a / pow2 b)%Q.
Proof. apply Qpower_minus. intros H. discriminate H. Qed.

Lemma pow2_le (a b : Z) : a <= b -> (pow2 a <= pow2 b)%Q.
Proof. intros H. apply Qpower_le_compat_l; [exact H | discriminate]. Qed.

Lemma pow2_lt (a b : Z) : a < b -> (pow2 a < pow2 b)%Q.
Proof. intros H. apply Qpower_lt_compat_l; [exact H | reflexivity]. Qed.

Lemma pow2_lt_inv (a b : Z) : (pow2 a < pow2 b)%Q -> a < b.
Proof. intros H. apply (Qpower_lt_compat_l_inv 2); [exact H | reflexivity]. Qed.

Lemma pow2_inject (e : Z) : 0 <= e -> (pow2 e == inject_Z (2 ^ e))%Q.
Proof. intros H. unfold pow2. rewrite Zpower_Qpower by exact H. reflexivity. Qed.

Lemma pow2_succ (e : Z) : (pow2 (e + 1) == 2 * pow2 e)%Q.
Proof. rewrite pow2_add. change (pow2 1) with 2%Q. ring. Qed.

(** [x / pow2 q], as a product that [lra] can work with. *)
Lemma div_pow2 (x : Q) (q : Z) : (x / pow2 q == x * pow2 (- q))%Q.
Proof.
  unfold Qdiv. apply Qmult_comp; [reflexivity|].
  unfold pow2. rewrite Qpower_opp. reflexivity.
Qed.

Lemma pow2_cancel (q : Z) : (pow2 (- q) * pow2 q == 1)%Q.
Proof. rewrite <- pow2_add. replace (- q + q) with 0 by lia. reflexivity. Qed.

Lemma ilog2_spec (x : Q) :
  (0 < x)%Q -> (pow2 (ilog2 x) <= x < pow2 (ilog2 x + 1))%Q.
Proof.
  intros Hx. destruct x as [n d]. unfold ilog2. cbn [Qnum Qden].
  assert (Hn : 0 < n) by (unfold Qlt in Hx; cbn in Hx; lia).
  set (ln := Z.log2 n). set (ld := Z.log2 (Z.pos d)).
  assert (Hln : 2 ^ ln <= n < 2 ^ (ln + 1)).
  { pose proof (Z.log2_spec n Hn). unfold ln. replace (Z.log2 n + 1) with (Z.succ (Z.log2 n)) by lia. lia. }
  assert (Hld : 2 ^ ld <= Z.pos d < 2 ^ (ld + 1)).
  { pose proof (Z.log2_spec (Z.pos d) ltac:(lia)). unfold ld.
    replace (Z.log2 (Z.pos d) + 1) with (Z.succ (Z.log2 (Z.pos d))) by lia. lia. }
  assert (Hln0 : 0 <= ln) by apply Z.log2_nonneg.
  assert (Hld0 : 0 <= ld) by apply Z.log2_nonneg.
  assert (Hx' : (n # d == inject_Z n / inject_Z (Z.pos d))%Q).
  { rewrite (Qmake_Qdiv n d). reflexivity. }
  assert (Hdpos : (0 < inject_Z (Z.pos d))%Q).
  { change 0%Q with (inject_Z 0). rewrite <- Zlt_Qlt. lia. }
  assert (Hnq : (pow2 ln <= inject_Z n < pow2 (ln + 1))%Q).
  { rewrite !pow2_inject by lia. rewrite <- Zle_Qle, <- Zlt_Qlt. exact Hln. }
  assert (Hdq : (pow2 ld <= inject_Z (Z.pos d) < pow2 (ld + 1))%Q).
  { rewrite !pow2_inject by lia. rewrite <- Zle_Qle, <- Zlt_Qlt. exact Hld. }
  (* x * d = n *)
  assert (Hmul : ((n # d) * inject_Z (Z.pos d) == inject_Z n)%Q).
  { rewrite Hx'. field. intros H. rewrite H in Hdpos. apply (Qlt_irrefl 0). exact Hdpos. }
  pose proof (pow2_pos ld) as Hpld. pose proof (pow2_pos (ln - ld)) as Hpk.
  pose proof (pow2_pos (ln - ld - 1)) as Hpk1.
  assert (Hk : (pow2 ln == pow2 (ln - ld) * pow2 ld)%Q).
  { rewrite <- pow2_add. replace (ln - ld + ld) with ln by lia. reflexivity. }
  assert (Hk1 : (pow2 (ln - ld) == 2 * pow2 (ln - ld - 1))%Q).
  { rewrite <- pow2_succ. replace (ln - ld - 1 + 1) with (ln - ld) by lia. reflexivity. }
  assert (Hk2 : (pow2 (ln - ld + 1) == 2 * pow2 (ln - ld))%Q) by apply pow2_succ.
  assert (Hl1 : (pow2 (ln + 1) == 2 * pow2 ln)%Q) by apply pow2_succ.
  assert (Hd1 : (pow2 (ld + 1) == 2 * pow2 ld)%Q) by apply pow2_succ.
  set (X := (n # d)%Q) in *. set (D := inject_Z (Z.pos d)) in *.
  set (N := inject_Z n) in *.
  set (A := pow2 (ln - ld)) in *. set (B := pow2 ld) in *.
  set (A1 := pow2 (ln - ld - 1)) in *.
  destruct (Qle_bool A X) eqn:Hle.
  - apply Qle_bool_iff in Hle. split; [exact Hle|].
    rewrite Hk2.
    (* X * D = N < 2 * 2^ln = 2 * A * B <= 2 * A * D *)
    apply Qnot_le_lt. intros Hcontra.
    assert (H1 : (2 * A * D <= X * D)%Q)
      by (apply Qmult_le_compat_r; [exact Hcontra | apply Qlt_le_weak, Hdpos]).
    assert (H2 : (2 * A * B <= 2 * A * D)%Q) by nra.
    rewrite Hmul in H1. rewrite Hl1, Hk in Hnq. nra.
  - assert (Hlt : (X < A)%Q).
    { apply Qnot_le_lt. intros H. apply Qle_bool_iff in H. congruence. }
    replace (ln - ld - 1 + 1) with (ln - ld) by lia. fold A. split; [|exact Hlt].
    (* A1 * D < A1 * 2 * B = A * B = 2^ln <= N = X * D *)
    apply Qnot_lt_le. intros Hcontra.
    assert (H1 : (X * D < A1 * D)%Q) by (apply Qmult_lt_compat_r; assumption).
    rewrite Hmul in H1. rewrite Hd1 in Hdq. rewrite Hk, Hk1 in Hnq. nra.
Qed.

Lemma ilog2_unique (x : Q) (e : Z) :
  (pow2 e <= x < pow2 (e + 1))%Q -> ilog2 x = e.
Proof.
  intros [Hlo Hhi].
  assert (Hx : (0 < x)%Q) by (pose proof (pow2_pos e); lra).
  destruct (ilog2_spec x Hx) as [Hlo' Hhi'].
  assert (H1 : ilog2 x < e + 1) by (apply pow2_lt_inv; lra).
  assert (H2 : e < ilog2 x + 1) by (apply pow2_lt_inv; lra).
  lia.
Qed.

Lemma ilog2_comp (x y : Q) : (0 < x)%Q -> (x == y)%Q -> ilog2 x = ilog2 y.
Proof.
  intros Hx Hxy. symmetry. apply ilog2_unique. rewrite <- Hxy. apply ilog2_spec, Hx.
Qed.

Lemma rne_cases (x : Q) :
  (rne x = Qfloor x /\ (x - inject_Z (Qfloor x) <= 1 # 2)%Q)
  \/ (rne x = Qfloor x + 1 /\ (1 # 2 <= x - inject_Z (Qfloor x))%Q).
Proof.
  unfold rne. destruct (Qcompare_spec (x - inject_Z (Qfloor x)) (1 # 2)) as [H|H|H].
  - destruct (Z.even (Qfloor x)); [left | right]; split; try reflexivity; lra.
  - left. split; [reflexivity | lra].
  - right. split; [reflexivity | lra].
Qed.

Lemma floor_bounds (x : Q) :
  (inject_Z (Qfloor x) <= x < inject_Z (Qfloor x) + 1)%Q.
Proof.
  split; [apply Qfloor_le|].
  pose proof (Qlt_floor x) as H. rewrite inject_Z_plus in H. exact H.
Qed.

Lemma rne_spec (x : Q) :
  (x - (1 # 2) <= inject_Z (rne x) <= x + (1 # 2))%Q.
Proof.
  pose proof (floor_bounds x) as Hf.
  destruct (rne_cases x) as [[-> H] | [-> H]].
  - lra.
  - rewrite inject_Z_plus. change (inject_Z 1) with 1%Q. lra.
Qed.

Lemma rne_inject (n : Z) : rne (inject_Z n) = n.
Proof.
  unfold rne. rewrite Qfloor_Z.
  destruct (Qcompare_spec (inject_Z n - inject_Z n) (1 # 2)) as [H|H|H];
    [lra | reflexivity | lra].
Qed.

Lemma rne_comp (x y : Q) : (x == y)%Q -> rne x = rne y.
Proof.
  intros H. unfold rne. rewrite (Qfloor_comp _ _ H).
  assert (Hc : ((x - inject_Z (Qfloor y) ?= 1 # 2) = (y - inject_Z (Qfloor y) ?= 1 # 2))%Q)
    by (rewrite H; reflexivity).
  rewrite Hc. reflexivity.
Qed.

Lemma rne_mono (x y : Q) : (x <= y)%Q -> rne x <= rne y.
Proof.
  intros Hxy.
  pose proof (Qfloor_resp_le _ _ Hxy) as Hfl.
  pose proof (floor_bounds x) as Hx. pose proof (floor_bounds y) as Hy.
  destruct (Z.eq_dec (Qfloor x) (Qfloor y)) as [Heq|Hne].
  - unfold rne. rewrite Heq in *.
    destruct (Qcompare_spec (x - inject_Z (Qfloor y)) (1 # 2)) as [H1|H1|H1];
      destruct (Qcompare_spec (y - inject_Z (Qfloor y)) (1 # 2)) as [H2|H2|H2];
      try destruct (Z.even (Qfloor y)); try lia; lra.
  - destruct (rne_cases x) as [[-> _] | [-> _]];
      destruct (rne_cases y) as [[-> _] | [-> _]]; lia.
Qed.

Lemma rne_opp (x : Q) : rne (- x) = - rne x.
Proof.
  pose proof (floor_bounds x) as Hx. pose proof (floor_bounds (- x)) as Hn.
  destruct (Qeq_dec x (inject_Z (Qfloor x))) as [Hint|Hfrac].
  - rewrite (rne_comp x _ Hint).
    assert (H : (- x == inject_Z (- Qfloor x))%Q) by (rewrite inject_Z_opp; lra).
    rewrite (rne_comp _ _ H), !rne_inject. reflexivity.
  - assert (Hfl : Qfloor (- x) = - Qfloor x - 1).
    { assert (H1 : (inject_Z (- Qfloor x - 1) <= - x)%Q).
      { unfold Z.sub. rewrite !inject_Z_plus, !inject_Z_opp.
        change (inject_Z 1) with 1%Q. lra. }
      assert (H2 : (- x < inject_Z (- Qfloor x - 1 + 1))%Q).
      { replace (- Qfloor x - 1 + 1) with (- Qfloor x) by lia.
        rewrite inject_Z_opp.
        assert (inject_Z (Qfloor x) < x)%Q.
        { destruct Hx as [Hle _]. apply Qle_lteq in Hle.
          destruct Hle as [Hlt | Heq]; [exact Hlt|].
          exfalso. apply Hfrac. symmetry. exact Heq. }
        lra. }
      apply Qfloor_resp_le in H1. rewrite Qfloor_Z in H1.
      assert (H3 : Qfloor (- x) < - Qfloor x - 1 + 1).
      { rewrite Zlt_Qlt. eapply Qle_lt_trans; [apply Qfloor_le | exact H2]. }
      lia. }
    unfold rne. rewrite Hfl.
    assert (Hfrac' : (- x - inject_Z (- Qfloor x - 1)
                      == 1 - (x - inject_Z (Qfloor x)))%Q).
    { unfold Z.sub. rewrite !inject_Z_plus, !inject_Z_opp.
      change (inject_Z 1) with 1%Q. ring. }
    assert (Hev : Z.even (- Qfloor x - 1) = negb (Z.even (Qfloor x))).
    { replace (- Qfloor x - 1) with (- (Qfloor x + 1)) by lia.
      rewrite Z.even_opp, Z.add_1_r, Z.even_succ, <- Z.negb_even. reflexivity. }
    destruct (Qcompare_spec (- x - inject_Z (- Qfloor x - 1)) (1 # 2)) as [H1|H1|H1];
      destruct (Qcompare_spec (x - inject_Z (Qfloor x)) (1 # 2)) as [H2|H2|H2];
      try (exfalso; lra); rewrite ?Hev; try destruct (Z.even (Qfloor x));
      cbn [negb]; lia.
Qed.

(** [fl_pos] without the reduction of the fraction. *)
Lemma fl_pos_eq (x : Q) :
  (fl_pos x == inject_Z (rne (x / pow2 (quantum x))) * pow2 (quantum x))%Q.
Proof. unfold fl_pos. apply Qred_correct. Qed.

Lemma quantum_comp (x y : Q) : (0 < x)%Q -> (x == y)%Q -> quantum x = quantum y.
Proof. intros Hx Hxy. unfold quantum. rewrite (ilog2_comp x y Hx Hxy). reflexivity. Qed.

Lemma fl_pos_comp (x y : Q) : (0 < x)%Q -> (x == y)%Q -> fl_pos x = fl_pos y.
Proof.
  intros Hx Hxy. unfold fl_pos. apply Qred_complete.
  rewrite (quantum_comp x y Hx Hxy).
  assert (H : (x / pow2 (quantum y) == y / pow2 (quantum y))%Q) by (rewrite Hxy; reflexivity).
  rewrite (rne_comp _ _ H). reflexivity.
Qed.

(** Equal numbers round to the same fraction. *)
Lemma fl_comp (x y : Q) : (x == y)%Q -> fl x = fl y.
Proof.
  intros Hxy. unfold fl.
  assert (Hc : (x ?= 0)%Q = (y ?= 0)%Q) by (rewrite Hxy; reflexivity).
  rewrite <- Hc.
  destruct (Qcompare_spec x 0) as [H|H|H]; [reflexivity| |].
  - assert (Hn : (- x == - y)%Q) by (rewrite Hxy; reflexivity).
    rewrite (fl_pos_comp (- x) (- y)); [reflexivity | lra | exact Hn].
  - apply fl_pos_comp; assumption.
Qed.

#[global] Instance fl_proper : Proper (Qeq ==> Qeq) fl.
Proof. intros x y H. rewrite (fl_comp x y H). reflexivity. Qed.

Lemma fl_zero : fl 0 = 0%Q.
Proof. reflexivity. Qed.

Lemma fl_of_pos (x : Q) : (0 < x)%Q -> fl x = fl_pos x.
Proof.
  intros H. unfold fl. destruct (Qcompare_spec x 0) as [H'|H'|H']; [lra | lra | reflexivity].
Qed.

Lemma fl_of_neg (x : Q) : (x < 0)%Q -> fl x = (- fl_pos (- x))%Q.
Proof.
  intros H. unfold fl. destruct (Qcompare_spec x 0) as [H'|H'|H']; [lra | reflexivity | lra].
Qed.

Lemma fl_opp (x : Q) : (fl (- x) == - fl x)%Q.
Proof.
  destruct (Q_dec x 0) as [[H|H]|H].
  - rewrite (fl_of_neg x H), (fl_of_pos (- x)) by lra. ring.
  - rewrite (fl_of_pos x H), (fl_of_neg (- x)) by lra.
    rewrite (fl_pos_comp (- - x) x); [reflexivity | lra | ring].
  - rewrite (fl_comp x 0 H). rewrite (fl_comp (- x) 0) by lra. reflexivity.
Qed.

(** Scaled by its quantum, a positive number lies below [2 ^ 53]. *)
Lemma scaled_bounds (x : Q) :
  (0 < x)%Q ->
  (0 < x / pow2 (quantum x) < pow2 53)%Q
  /\ (ilog2 x - 52 >= -1074 -> (pow2 52 <= x / pow2 (quantum x))%Q).
Proof.
  intros Hx. destruct (ilog2_spec x Hx) as [Hlo Hhi].
  pose proof (pow2_pos (quantum x)) as Hq. pose proof (pow2_pos (- quantum x)) as Hnq.
  rewrite div_pow2.
  assert (Hq52 : ilog2 x - 52 <= quantum x) by (unfold quantum; lia).
  split; [split|].
  - nra.
  - apply Qlt_le_trans with (pow2 (ilog2 x + 1) * pow2 (- quantum x))%Q.
    + apply Qmult_lt_compat_r; assumption.
    + rewrite <- pow2_add. apply pow2_le. lia.
  - intros Hnormal. assert (Hqe : quantum x = ilog2 x - 52) by (unfold quantum; lia).
    rewrite Hqe.
    apply Qle_trans with (pow2 (ilog2 x) * pow2 (- (ilog2 x - 52)))%Q.
    + rewrite <- pow2_add. apply pow2_le. lia.
    + apply Qmult_le_compat_r; [exact Hlo | apply Qlt_le_weak, pow2_pos].
Qed.

Lemma fl_pos_nonneg (x : Q) : (0 < x)%Q -> (0 <= fl_pos x)%Q.
Proof.
  intros Hx. rewrite fl_pos_eq.
  destruct (scaled_bounds x Hx) as [[Hpos _] _].
  assert (H : 0 <= rne (x / pow2 (quantum x))).
  { rewrite <- (rne_inject 0). apply rne_mono. apply Qlt_le_weak, Hpos. }
  apply Qmult_le_0_compat; [|apply Qlt_le_weak, pow2_pos].
  change 0%Q with (inject_Z 0). rewrite <- Zle_Qle. exact H.
Qed.

Lemma fl_nonneg (x : Q) : (0 <= x)%Q -> (0 <= fl x)%Q.
Proof.
  intros Hx. destruct (Qle_lt_or_eq _ _ Hx) as [H|H].
  - rewrite (fl_of_pos x H). apply fl_pos_nonneg, H.
  - rewrite (fl_comp x 0) by (symmetry; exact H). apply Qle_refl.
Qed.

(** A number [G * 2 ^ k] with [|G| <= 2 ^ 53] and [k >= -1074] is a
    double. *)
Lemma fl_pos_exact (G k : Z) :
  0 < G <= 2 ^ 53 -> -1074 <= k ->
  (fl_pos (inject_Z G * pow2 k) == inject_Z G * pow2 k)%Q.
Proof.
  intros [HG0 HG] Hk. set (x := (inject_Z G * pow2 k)%Q).
  assert (Hx : (0 < x)%Q).
  { apply Qmult_lt_0_compat; [|apply pow2_pos].
    change 0%Q with (inject_Z 0). rewrite <- Zlt_Qlt. exact HG0. }
  destruct (ilog2_spec x Hx) as [Hlo Hhi].
  assert (Hq : quantum x <= k \/ (quantum x = k + 1 /\ G = 2 ^ 53)).
  { destruct (Z.eq_dec G (2 ^ 53)) as [->|Hne].
    - right. split; [|reflexivity].
      assert (He : ilog2 x = 53 + k).
      { apply ilog2_unique. unfold x. rewrite <- (pow2_inject 53) by lia.
        rewrite <- pow2_add. split; [apply Qle_refl | apply pow2_lt; lia]. }
      unfold quantum. rewrite He. lia.
    - left. assert (He : ilog2 x < 53 + k).
      { apply pow2_lt_inv. apply Qle_lt_trans with x; [exact Hlo|].
        unfold x. rewrite pow2_add. apply Qmult_lt_compat_r; [apply pow2_pos|].
        rewrite pow2_inject by lia. rewrite <- Zlt_Qlt. lia. }
      unfold quantum. lia. }
  rewrite fl_pos_eq. fold x.
  destruct Hq as [Hq | [Hq ->]].
  - assert (Hint : (x / pow2 (quantum x) == inject_Z (G * 2 ^ (k - quantum x)))%Q).
    { rewrite inject_Z_mult, <- pow2_inject by lia. unfold x.
      rewrite pow2_sub. unfold Qdiv. ring. }
    rewrite (rne_comp _ _ Hint), rne_inject, <- Hint.
    field. intros H. pose proof (pow2_pos (quantum x)). lra.
  - assert (Hint : (x / pow2 (quantum x) == inject_Z (2 ^ 52))%Q).
    { rewrite Hq. unfold x. rewrite <- !pow2_inject by lia.
      rewrite <- pow2_add, <- pow2_sub. apply Qpower_comp; [reflexivity | lia]. }
    rewrite (rne_comp _ _ Hint), rne_inject. rewrite Hq. unfold x.
    rewrite <- !pow2_inject by lia. rewrite <- !pow2_add.
    apply Qpower_comp; [reflexivity | lia].
Qed.

Lemma fl_exact (G k : Z) :
  - 2 ^ 53 <= G <= 2 ^ 53 -> -1074 <= k ->
  is_double (inject_Z G * pow2 k).
Proof.
  intros HG Hk. unfold is_double.
  destruct (Z.lt_trichotomy G 0) as [Hneg | [-> | Hpos]].
  - assert (H : (inject_Z G * pow2 k == - (inject_Z (- G) * pow2 k))%Q)
      by (rewrite inject_Z_opp; ring).
    rewrite (fl_comp _ _ H), fl_opp.
    rewrite fl_of_pos.
    + rewrite fl_pos_exact by lia. symmetry. exact H.
    + apply Qmult_lt_0_compat; [|apply pow2_pos].
      change 0%Q with (inject_Z 0). rewrite <- Zlt_Qlt. lia.
  - rewrite (fl_comp _ 0) by ring. rewrite fl_zero. ring.
  - rewrite fl_of_pos.
    + apply fl_pos_exact; lia.
    + apply Qmult_lt_0_compat; [|apply pow2_pos].
      change 0%Q with (inject_Z 0). rewrite <- Zlt_Qlt. lia.
Qed.

(** Integers up to [2 ^ 53] are doubles. *)
Lemma integer_is_double (n : Z) : - 2 ^ 53 <= n <= 2 ^ 53 -> is_double (inject_Z n).
Proof.
  intros H. pose proof (fl_exact n 0 H ltac:(lia)) as Hd. unfold is_double in *.
  assert (He : (inject_Z n * pow2 0 == inject_Z n)%Q) by (change (pow2 0) with 1%Q; ring).
  rewrite <- (fl_comp _ _ He). rewrite Hd. exact He.
Qed.

(** What [fl] returns is a double. *)
Lemma fl_pos_is_double (x : Q) : (0 < x)%Q -> is_double (fl_pos x).
Proof.
  intros Hx. unfold is_double. rewrite (fl_pos_eq x).
  destruct (scaled_bounds x Hx) as [[Hpos Hlt] _].
  apply fl_exact.
  - assert (H0 : 0 <= rne (x / pow2 (quantum x))).
    { rewrite <- (rne_inject 0). apply rne_mono. apply Qlt_le_weak, Hpos. }
    assert (H1 : rne (x / pow2 (quantum x)) <= 2 ^ 53).
    { rewrite <- (rne_inject (2 ^ 53)). apply rne_mono.
      rewrite <- pow2_inject by lia. apply Qlt_le_weak, Hlt. }
    lia.
  - unfold quantum. lia.
Qed.

Lemma is_double_opp (x : Q) : is_double x -> is_double (- x).
Proof. unfold is_double. intros H. rewrite fl_opp, H. reflexivity. Qed.

Lemma fl_is_double (x : Q) : is_double (fl x).
Proof.
  destruct (Q_dec x 0) as [[H|H]|H].
  - rewrite (fl_of_neg x H). apply is_double_opp, fl_pos_is_double. lra.
  - rewrite (fl_of_pos x H). apply fl_pos_is_double, H.
  - rewrite (fl_comp x 0 H). unfold is_double. reflexivity.
Qed.

Lemma ilog2_mono (x y : Q) : (0 < x)%Q -> (x <= y)%Q -> ilog2 x <= ilog2 y.
Proof.
  intros Hx Hxy. destruct (ilog2_spec x Hx) as [Hlo _].
  destruct (ilog2_spec y ltac:(lra)) as [_ Hhi].
  assert (H : ilog2 x < ilog2 y + 1) by (apply pow2_lt_inv; lra). lia.
Qed.

Lemma rne_le_integer (t : Q) (n : Z) : (t <= inject_Z n)%Q -> rne t <= n.
Proof. intros H. rewrite <- (rne_inject n). apply rne_mono, H. Qed.

Lemma rne_ge_integer (t : Q) (n : Z) : (inject_Z n <= t)%Q -> n <= rne t.
Proof. intros H. rewrite <- (rne_inject n). apply rne_mono, H. Qed.

Lemma fl_pos_mono (x y : Q) : (0 < x)%Q -> (x <= y)%Q -> (fl_pos x <= fl_pos y)%Q.
Proof.
  intros Hx Hxy. assert (Hy : (0 < y)%Q) by lra.
  pose proof (ilog2_mono x y Hx Hxy) as He.
  rewrite !fl_pos_eq.
  destruct (Z.eq_dec (quantum x) (quantum y)) as [Hq | Hq].
  - rewrite Hq. apply Qmult_le_compat_r; [|apply Qlt_le_weak, pow2_pos].
    rewrite <- Zle_Qle. apply rne_mono.
    rewrite !div_pow2. apply Qmult_le_compat_r; [exact Hxy | apply Qlt_le_weak, pow2_pos].
  - assert (Hqy : quantum y = ilog2 y - 52 /\ ilog2 x < ilog2 y
                  /\ -1074 <= quantum x < quantum y)
      by (unfold quantum in *; lia).
    destruct Hqy as (Hqy & Hlt & Hqx).
    apply Qle_trans with (pow2 (ilog2 y)).
    + (* below the binade of y *)
      destruct (ilog2_spec x Hx) as [_ Hhi].
      assert (Hs : 0 <= ilog2 y - quantum x) by lia.
      assert (Ht : (x / pow2 (quantum x) <= inject_Z (2 ^ (ilog2 y - quantum x)))%Q).
      { rewrite <- pow2_inject by exact Hs. rewrite pow2_sub.
        unfold Qdiv. apply Qmult_le_compat_r.
        - apply Qle_trans with (pow2 (ilog2 x + 1)); [lra | apply pow2_le; lia].
        - apply Qlt_le_weak, Qinv_lt_0_compat, pow2_pos. }
      apply rne_le_integer in Ht.
      apply Qle_trans
        with (inject_Z (2 ^ (ilog2 y - quantum x)) * pow2 (quantum x))%Q.
      * apply Qmult_le_compat_r; [|apply Qlt_le_weak, pow2_pos].
        rewrite <- Zle_Qle. exact Ht.
      * rewrite <- pow2_inject by exact Hs. rewrite <- pow2_add.
        apply pow2_le. lia.
    + (* the binade of y *)
      destruct (scaled_bounds y Hy) as [_ Hnormal].
      specialize (Hnormal ltac:(lia)).
      rewrite (pow2_inject 52) in Hnormal by lia.
      apply rne_ge_integer in Hnormal.
      apply Qle_trans with (inject_Z (2 ^ 52) * pow2 (quantum y))%Q.
      * rewrite <- pow2_inject by lia. rewrite <- pow2_add.
        apply pow2_le. lia.
      * apply Qmult_le_compat_r; [|apply Qlt_le_weak, pow2_pos].
        rewrite <- Zle_Qle. exact Hnormal.
Qed.

Lemma fl_nonpos (x : Q) : (x <= 0)%Q -> (fl x <= 0)%Q.
Proof.
  intros Hx. pose proof (fl_nonneg (- x) ltac:(lra)) as H.
  rewrite fl_opp in H. lra.
Qed.

(** Rounding keeps the order. *)
Lemma fl_mono (x y : Q) : (x <= y)%Q -> (fl x <= fl y)%Q.
Proof.
  intros Hxy. destruct (Q_dec y 0) as [[Hy|Hy]|Hy].
  - rewrite (fl_of_neg y Hy), (fl_of_neg x) by lra.
    apply Qopp_le_compat. apply fl_pos_mono; lra.
  - destruct (Qlt_le_dec 0 x) as [Hx|Hx].
    + rewrite (fl_of_pos x Hx), (fl_of_pos y Hy). apply fl_pos_mono; assumption.
    + apply Qle_trans with 0%Q; [apply fl_nonpos, Hx | apply fl_nonneg; lra].
  - rewrite (fl_comp y 0 Hy). apply fl_nonpos. lra.
Qed.

(** A double above (below) a number is above (below) what the number
    rounds to. *)
Lemma fl_le_double (x y : Q) : is_double y -> (x <= y)%Q -> (fl x <= y)%Q.
Proof. unfold is_double. intros Hy Hxy. rewrite <- Hy. apply fl_mono, Hxy. Qed.

Lemma fl_ge_double (x y : Q) : is_double y -> (y <= x)%Q -> (y <= fl x)%Q.
Proof. unfold is_double. intros Hy Hxy. rewrite <- Hy. apply fl_mono, Hxy. Qed.

(** The rounding error below [2 ^ (e + 1)] is at most half the quantum
    of the binade of [e]. *)
Lemma fl_error (x : Q) (e : Z) :
  (0 <= x < pow2 (e + 1))%Q -> -1074 <= e - 52 ->
  (x - pow2 (e - 53) <= fl x <= x + pow2 (e - 53))%Q.
Proof.
  intros [Hx0 Hxe] He. pose proof (pow2_pos (e - 53)) as Hp.
  destruct (Qle_lt_or_eq _ _ Hx0) as [Hx | Hx].
  - rewrite (fl_of_pos x Hx), fl_pos_eq.
    destruct (ilog2_spec x Hx) as [Hlo _].
    assert (Hq : quantum x <= e - 52).
    { assert (ilog2 x < e + 1) by (apply pow2_lt_inv; lra). unfold quantum. lia. }
    pose proof (rne_spec (x / pow2 (quantum x))) as Hr.
    set (m := inject_Z (rne (x / pow2 (quantum x)))) in *.
    rewrite (div_pow2 x (quantum x)) in Hr.
    pose proof (pow2_pos (quantum x)) as Hpq.
    pose proof (pow2_cancel (quantum x)) as Hc.
    assert (Hhalf : (pow2 (quantum x) <= 2 * pow2 (e - 53))%Q).
    { rewrite <- pow2_succ. apply pow2_le. lia. }
    set (P := pow2 (quantum x)) in *. set (I := pow2 (- quantum x)) in *.
    assert (H1 : ((x * I - (1 # 2)) * P <= m * P)%Q)
      by (apply Qmult_le_compat_r; lra).
    assert (H2 : (m * P <= (x * I + (1 # 2)) * P)%Q)
      by (apply Qmult_le_compat_r; lra).
    assert (H3 : (x * I * P == x)%Q) by (rewrite <- Qmult_assoc, Hc; ring).
    assert (H4 : ((x * I - (1 # 2)) * P == x - P * (1 # 2))%Q) by (rewrite <- H3 at 2; ring).
    assert (H5 : ((x * I + (1 # 2)) * P == x + P * (1 # 2))%Q) by (rewrite <- H3 at 2; ring).
    rewrite H4 in H1. rewrite H5 in H2. lra.
  - rewrite (fl_comp x 0) by (symmetry; exact Hx). rewrite fl_zero. lra.
Qed.

(** The doubles of a binade are the multiples of its quantum. *)
Lemma double_grid (r : Q) (e : Z) :
  is_double r -> (pow2 e <= r < pow2 (e + 1))%Q -> -1074 <= e - 52 ->
  exists N, (r == inject_Z N * pow2 (e - 52))%Q /\ 2 ^ 52 <= N < 2 ^ 53.
Proof.
  intros Hd Hr He.
  assert (Hpos : (0 < r)%Q) by (pose proof (pow2_pos e); lra).
  assert (Hq : quantum r = e - 52).
  { unfold quantum. rewrite (ilog2_unique r e Hr). lia. }
  unfold is_double in Hd. rewrite (fl_of_pos r Hpos), fl_pos_eq, Hq in Hd.
  exists (rne (r / pow2 (e - 52))). split; [symmetry; exact Hd|].
  set (N := rne (r / pow2 (e - 52))) in *.
  pose proof (pow2_pos (e - 52)) as Hp.
  assert (H52 : (pow2 e == inject_Z (2 ^ 52) * pow2 (e - 52))%Q).
  { rewrite <- pow2_inject, <- pow2_add by lia. apply Qpower_comp; [reflexivity|lia]. }
  assert (H53 : (pow2 (e + 1) == inject_Z (2 ^ 53) * pow2 (e - 52))%Q).
  { rewrite <- pow2_inject, <- pow2_add by lia. apply Qpower_comp; [reflexivity|lia]. }
  rewrite <- Hd, H52, H53 in Hr. destruct Hr as [Hlo Hhi].
  split.
  - rewrite Zle_Qle. apply Qmult_le_r in Hlo; assumption.
  - rewrite Zlt_Qlt. apply Qmult_lt_r in Hhi; assumption.
Qed.

Lemma num_is_double (x : Q) : is_double (num x).
Proof. apply fl_is_double. Qed.

Lemma num_of_double (x : Q) : is_double x -> (num x == x)%Q.
Proof. intros H. exact H. Qed.

Lemma pow2_is_double (k : Z) : -1074 <= k -> is_double (pow2 k).
Proof.
  intros Hk. pose proof (fl_exact 1 k ltac:(lia) Hk) as H. unfold is_double in *.
  assert (He : (inject_Z 1 * pow2 k == pow2 k)%Q) by (change (inject_Z 1) with 1%Q; ring).
  rewrite <- (fl_comp _ _ He). rewrite H. exact He.
Qed.

(** The relative rounding error of a normal number is at most
    [2 ^ -53]. *)
Lemma fl_relative_error (x : Q) :
  (pow2 (-1022) <= x)%Q ->
  (x - x * pow2 (-53) <= fl x <= x + x * pow2 (-53))%Q.
Proof.
  intros Hx. assert (Hpos : (0 < x)%Q) by (pose proof (pow2_pos (-1022)); lra).
  destruct (ilog2_spec x Hpos) as [Hlo Hhi].
  assert (He : -1022 <= ilog2 x).
  { assert (-1022 < ilog2 x + 1) by (apply pow2_lt_inv; lra). lia. }
  destruct (fl_error x (ilog2 x)) as [H1 H2]; [lra | lia |].
  assert (Hp : (pow2 (ilog2 x - 53) == pow2 (ilog2 x) * pow2 (-53))%Q).
  { rewrite <- pow2_add. apply Qpower_comp; [reflexivity | lia]. }
  pose proof (pow2_pos (-53)) as H53.
  assert (Hle : (pow2 (ilog2 x) * pow2 (-53) <= x * pow2 (-53))%Q)
    by (apply Qmult_le_compat_r; lra).
  rewrite Hp in H1, H2. lra.
Qed.

(** Halving a double is exact, unless the half is subnormal. *)
Lemma half_is_double (y : Q) :
  is_double y -> (pow2 (-1021) <= y)%Q -> is_double (y / 2).
Proof.
  intros Hd Hy. assert (Hpos : (0 < y)%Q) by (pose proof (pow2_pos (-1021)); lra).
  destruct (ilog2_spec y Hpos) as [Hlo Hhi].
  assert (He : -1021 <= ilog2 y).
  { assert (-1021 < ilog2 y + 1) by (apply pow2_lt_inv; lra). lia. }
  destruct (double_grid y (ilog2 y) Hd) as (N & HN & HNb); [lra | lia |].
  remember (ilog2 y) as e eqn:Heqe. clear Heqe Hlo Hhi.
  assert (Hhalf : (y / 2 == inject_Z N * pow2 (e - 53))%Q).
  { rewrite HN.
    assert (Hp : (pow2 (e - 52) == 2 * pow2 (e - 53))%Q).
    { rewrite <- pow2_succ. apply Qpower_comp; [reflexivity | lia]. }
    rewrite Hp. field. }
  unfold is_double. rewrite (fl_comp _ _ Hhalf). rewrite Hhalf.
  apply fl_exact; lia.
Qed.

End DoubleFacts.

(** ** The reliability update *)

Module EvolutionFacts.
Import Evolution.

Lemma updateSourceMetrics_existing env name success d q db row :
  metrics_sites_ok env ->
  sourceConfig db !! name = Some row ->
  exists row',
    updateSourceMetrics env name success d q db
    = (set_sourceConfig (insert name row') db, Returned tt)
    /\ successRate row'
       = (if success
          then rate_after_success (JS.num (successRate row))
          else rate_after_failure (JS.num (successRate row)))
    /\ avgDurationMs row'
       = (if success && JS.gt (JS.num d) 0
          then inject_Z (JS.Math_round
                           (two_point_average (JS.num (avgDurationMs row))
                              (JS.num d)))
          else avgDurationMs row)
    /\ avgQualityScore row'
       = (if success && JS.gt (JS.num q) 0
          then two_point_average (JS.num (avgQualityScore row)) (JS.num q)
          else avgQualityScore row)
    /\ isEnabled row' = JS.gt (successRate row') 20.
Proof.
  intros (Hf & Hu & Hc) Hrow.
  unfold updateSourceMetrics, try_catch, bind.
  rewrite (prisma_call_ok _ _ _ Hf), Hrow.
  rewrite (prisma_call_ok _ _ _ Hu), Hrow.
  eexists. split; [reflexivity|].
  cbn [successRate avgDurationMs avgQualityScore isEnabled].
  repeat split; reflexivity.
Qed.

Lemma updateSourceMetrics_fresh env name success d q db :
  metrics_sites_ok env ->
  sourceConfig db !! name = None ->
  exists row',
    updateSourceMetrics env name success d q db
    = (set_sourceConfig (insert name row') db, Returned tt)
    /\ successRate row' = (if success then 100 else 0)%Q
    /\ isEnabled row' = true.
Proof.
  intros (Hf & Hu & Hc) Hrow.
  unfold updateSourceMetrics, try_catch, bind.
  rewrite (prisma_call_ok _ _ _ Hf), Hrow.
  rewrite (prisma_call_ok _ _ _ Hc), Hrow.
  eexists. split; [reflexivity|]. split; reflexivity.
Qed.

(** The row an update writes, whether the source had one or not. *)
Lemma updateSourceMetrics_row env name success d q db :
  metrics_sites_ok env ->
  exists row',
    updateSourceMetrics env name success d q db
    = (set_sourceConfig (insert name row') db, Returned tt)
    /\ row_updated (sourceConfig db !! name) row'
    /\ successRate row'
       = match sourceConfig db !! name with
         | Some row =>
             if success
             then rate_after_success (JS.num (successRate row))
             else rate_after_failure (JS.num (successRate row))
         | None => if success then 100%Q else 0%Q
         end.
Proof.
  intros (Hf & Hu & Hc).
  unfold updateSourceMetrics, try_catch, bind.
  rewrite (prisma_call_ok _ _ _ Hf).
  destruct (sourceConfig db !! name) as [row|] eqn:Hrow.
  - rewrite (prisma_call_ok _ _ _ Hu), Hrow.
    eexists. split; [reflexivity|].
    cbn [row_updated source_limits priority requestsPerMinute delayBetweenMs
           dailyLimit currentDailyUsage successRate isEnabled].
    repeat split. destruct success; [left | right]; reflexivity.
  - rewrite (prisma_call_ok _ _ _ Hc), Hrow.
    eexists. split; [reflexivity|].
    cbn [row_updated source_limits priority requestsPerMinute delayBetweenMs
           dailyLimit currentDailyUsage successRate isEnabled].
    repeat split; destruct success; try reflexivity; [left | right]; reflexivity.
Qed.

Lemma logSourceSuccess_existing env name d q ind db row :
  success_sites_ok env ->
  sourceConfig db !! name = Some row ->
  exists row',
    sourceConfig (logSourceSuccess env name d q ind db).1
    = <[name := row']> (sourceConfig db)
    /\ successRate row' = rate_after_success (JS.num (successRate row))
    /\ avgDurationMs row'
       = (if JS.gt (JS.num d) 0
          then inject_Z (JS.Math_round
                           (two_point_average (JS.num (avgDurationMs row))
                              (JS.num d)))
          else avgDurationMs row)
    /\ avgQualityScore row'
       = (if JS.gt (JS.num q) 0
          then two_point_average (JS.num (avgQualityScore row)) (JS.num q)
          else avgQualityScore row)
    /\ isEnabled row' = JS.gt (successRate row') 20.
Proof.
  intros (Hc & Hm) Hrow.
  unfold logSourceSuccess, try_catch, bind, evolutionLog_create.
  rewrite (prisma_call_ok _ _ _ Hc). cbn [modify].
  destruct (updateSourceMetrics_existing env name true d q
              (set_evolutionLog
                 (cons {| eventType := SOURCE_SUCCESS; source := Some name;
                          industry := ind; log_companyId := None;
                          durationMs := Some d; dataQualityScore := Some q;
                          log_completenessScore := None; errorCode := None;
                          errorMessage := None; retryCount := None;
                          fallbackUsed := None; sourcesUsed := [];
                          sourcesFailed := []; gaps := [];
                          timestamp := now env clock_logged |}) db) row Hm Hrow)
    as (row' & Hrun & Hs & Hd & Hq & He).
  rewrite Hrun. exists row'. cbn in Hd, Hq. repeat split; assumption.
Qed.

Lemma logSourceFailure_existing env name code msg rc fb db row :
  failure_sites_ok env ->
  sourceConfig db !! name = Some row ->
  exists row',
    sourceConfig (logSourceFailure env name code msg rc fb db).1
    = <[name := row']> (sourceConfig db)
    /\ successRate row' = rate_after_failure (JS.num (successRate row))
    /\ avgDurationMs row' = avgDurationMs row
    /\ avgQualityScore row' = avgQualityScore row
    /\ isEnabled row' = JS.gt (successRate row') 20.
Proof.
  intros (Hc & Hm) Hrow.
  unfold logSourceFailure, try_catch, bind, evolutionLog_create.
  rewrite (prisma_call_ok _ _ _ Hc). cbn [modify].
  destruct (updateSourceMetrics_existing env name false 0 0
              (set_evolutionLog
                 (cons {| eventType := SOURCE_FAILURE; source := Some name;
                          industry := None; log_companyId := None;
                          durationMs := None; dataQualityScore := None;
                          log_completenessScore := None; errorCode := Some code;
                          errorMessage := Some msg; retryCount := rc;
                          fallbackUsed := fb; sourcesUsed := [];
                          sourcesFailed := []; gaps := [];
                          timestamp := now env clock_logged |}) db) row Hm Hrow)
    as (row' & Hrun & Hs & Hd & Hq & He).
  rewrite Hrun. exists row'. cbn in Hd, Hq. repeat split; assumption.
Qed.

(** *** The smoothing of the rate, in double precision *)

Lemma tenth_value : JS.tenth = (3602879701896397 # 36028797018963968)%Q.
Proof. vm_compute. reflexivity. Qed.

Lemma double_100 : JS.is_double 100.
Proof. vm_compute. reflexivity. Qed.

Lemma rate_after_success_comp (r1 r2 : Q) :
  (r1 == r2)%Q -> rate_after_success r1 = rate_after_success r2.
Proof.
  intros H. unfold rate_after_success, JS.add, JS.mul, JS.sub.
  assert (H1 : JS.fl (100 - r1) = JS.fl (100 - r2))
    by (apply DoubleFacts.fl_comp; rewrite H; reflexivity).
  rewrite H1.
  assert (H2 : JS.fl (r1 + JS.fl (JS.fl (100 - r2) * JS.tenth))
               = JS.fl (r2 + JS.fl (JS.fl (100 - r2) * JS.tenth)))
    by (apply DoubleFacts.fl_comp; rewrite H; reflexivity).
  rewrite H2. reflexivity.
Qed.

Lemma rate_after_failure_comp (r1 r2 : Q) :
  (r1 == r2)%Q -> rate_after_failure r1 = rate_after_failure r2.
Proof.
  intros H. unfold rate_after_failure, JS.sub.
  assert (H1 : JS.fl (r1 - 10) = JS.fl (r2 - 10))
    by (apply DoubleFacts.fl_comp; rewrite H; reflexivity).
  rewrite H1. reflexivity.
Qed.

(** The powers of two of the proofs below, as numerals. *)
Ltac pow2_numerals :=
  change (JS.pow2 (-40)) with (1 # 1099511627776)%Q in *;
  change (JS.pow2 (-44)) with (1 # 17592186044416)%Q in *;
  change (JS.pow2 (-46)) with (1 # 70368744177664)%Q in *;
  change (JS.pow2 (-47)) with (1 # 140737488355328)%Q in *;
  change (JS.pow2 (-49)) with (1 # 562949953421312)%Q in *;
  change (JS.pow2 (-50)) with (1 # 1125899906842624)%Q in *.

(** [100 - rate], rounded. *)
Lemma gap_bounds (r : Q) :
  (0 <= r <= 100)%Q ->
  (0 <= JS.sub 100 r <= 100)%Q
  /\ (100 - r - JS.pow2 (-47) <= JS.sub 100 r <= 100 - r + JS.pow2 (-47))%Q.
Proof.
  intros Hr. unfold JS.sub. split; [split|].
  - apply DoubleFacts.fl_nonneg. lra.
  - apply DoubleFacts.fl_le_double; [exact double_100 | lra].
  - apply (DoubleFacts.fl_error (100 - r) 6); [|lia].
    change (JS.pow2 (6 + 1)) with 128%Q. lra.
Qed.

(** [gap * 0.1], rounded. *)
Lemma increment_bounds (g : Q) :
  (0 <= g <= 100)%Q ->
  (0 <= JS.mul g JS.tenth <= 25 # 2)%Q
  /\ (g * JS.tenth - JS.pow2 (-50) <= JS.mul g JS.tenth
      <= g * JS.tenth + JS.pow2 (-50))%Q.
Proof.
  intros Hg. unfold JS.mul. split; [split|].
  - apply DoubleFacts.fl_nonneg. rewrite tenth_value. lra.
  - apply DoubleFacts.fl_le_double; [vm_compute; reflexivity|].
    rewrite tenth_value. lra.
  - apply (DoubleFacts.fl_error _ 3); [|lia].
    change (JS.pow2 (3 + 1)) with 16%Q. rewrite tenth_value. lra.
Qed.

(** [rate + increment], rounded. *)
Lemma sum_bounds (r p : Q) :
  (0 <= r <= 100)%Q -> (0 <= p <= 25 # 2)%Q ->
  (r + p - JS.pow2 (-47) <= JS.add r p <= r + p + JS.pow2 (-47))%Q.
Proof.
  intros Hr Hp. unfold JS.add.
  apply (DoubleFacts.fl_error (r + p) 6); [|lia].
  change (JS.pow2 (6 + 1)) with 128%Q. lra.
Qed.

Lemma min_100_is_double (s : Q) :
  JS.is_double s -> JS.is_double (JS.Math_min 100 s).
Proof.
  intros Hs. unfold JS.Math_min, JS.is_double in *.
  destruct (Q.min_spec 100 s) as [[_ H] | [_ H]];
    rewrite (DoubleFacts.fl_comp _ _ H), H; [exact double_100 | exact Hs].
Qed.

Lemma rate_after_success_is_double (r : Q) : JS.is_double (rate_after_success r).
Proof. apply min_100_is_double, DoubleFacts.fl_is_double. Qed.

(** A success never lowers the rate, and the new rate is within
    [2 ^ -46] of the exact [min(100, rate + (100 - rate) / 10)]. *)
Lemma rate_after_success_bounds (r : Q) :
  JS.is_double r -> (0 <= r <= 100)%Q ->
  (r <= rate_after_success r <= 100)%Q
  /\ (Qmin 100 (r + (100 - r) * (1 # 10)) - JS.pow2 (-46)
      <= rate_after_success r
      <= Qmin 100 (r + (100 - r) * (1 # 10)) + JS.pow2 (-46))%Q.
Proof.
  intros Hd Hr. unfold rate_after_success, JS.Math_min.
  destruct (gap_bounds r Hr) as [Hg Hge].
  destruct (increment_bounds (JS.sub 100 r) Hg) as [Hp Hpe].
  pose proof (sum_bounds r _ Hr Hp) as Hse.
  assert (Hup : (r <= JS.add r (JS.mul (JS.sub 100 r) JS.tenth))%Q).
  { unfold JS.add at 1. apply DoubleFacts.fl_ge_double; [exact Hd | lra]. }
  set (g := JS.sub 100 r) in *. set (p := JS.mul g JS.tenth) in *.
  set (s := JS.add r p) in *.
  rewrite tenth_value in Hpe. pow2_numerals.
  destruct (Q.min_spec 100 s) as [[H1 H2] | [H1 H2]];
    destruct (Q.min_spec 100 (r + (100 - r) * (1 # 10))) as [[H3 H4] | [H3 H4]];
    rewrite H2, H4; lra.
Qed.

(** A success never takes a rate below 100 to 100. *)
Lemma rate_after_success_below_100 (r : Q) :
  JS.is_double r -> (0 <= r < 100)%Q -> (rate_after_success r < 100)%Q.
Proof.
  intros Hd Hr. unfold rate_after_success, JS.Math_min.
  apply Q.min_lt_iff. right.
  destruct (gap_bounds r ltac:(lra)) as [Hg _].
  destruct (increment_bounds (JS.sub 100 r) Hg) as [Hp _].
  destruct (Qlt_le_dec r 64) as [Hlow | Hhigh].
  - apply Qle_lt_trans with (153 # 2)%Q; [|reflexivity].
    unfold JS.add at 1. apply DoubleFacts.fl_le_double; [vm_compute; reflexivity | lra].
  - destruct (DoubleFacts.double_grid r 6 Hd) as (N & HN & HNb);
      [change (JS.pow2 6) with 64%Q; change (JS.pow2 (6 + 1)) with 128%Q; lra | lia |].
    change (JS.pow2 (6 - 52)) with (JS.pow2 (-46)) in HN.
    assert (Hunit : (inject_Z (2 ^ 46) * JS.pow2 (-46) == 1)%Q) by reflexivity.
    assert (HN100 : N < 100 * 2 ^ 46).
    { rewrite Zlt_Qlt.
      apply (Qmult_lt_r _ _ (JS.pow2 (-46))); [reflexivity|].
      rewrite <- HN, inject_Z_mult, <- Qmult_assoc, Hunit.
      change (inject_Z 100) with 100%Q. lra. }
    set (G := 100 * 2 ^ 46 - N).
    assert (Hgap : (100 - r == inject_Z G * JS.pow2 (-46))%Q).
    { rewrite HN. unfold G. unfold Z.sub.
      rewrite inject_Z_plus, inject_Z_opp, inject_Z_mult.
      change (inject_Z 100) with 100%Q.
      assert (H100 : (100 * (inject_Z (2 ^ 46) * JS.pow2 (-46)) == 100)%Q)
        by (rewrite Hunit; ring).
      rewrite <- H100 at 1. ring. }
    assert (Hexact : (JS.sub 100 r == 100 - r)%Q).
    { unfold JS.sub. rewrite (DoubleFacts.fl_comp _ _ Hgap), Hgap.
      apply DoubleFacts.fl_exact; unfold G; lia. }
    assert (Heighth : JS.is_double ((100 - r) * (1 # 8))).
    { assert (H : ((100 - r) * (1 # 8) == inject_Z G * JS.pow2 (-49))%Q).
      { rewrite Hgap.
        assert (H49 : (JS.pow2 (-49) == JS.pow2 (-46) * (1 # 8))%Q) by reflexivity.
        rewrite H49. ring. }
      unfold JS.is_double. rewrite (DoubleFacts.fl_comp _ _ H), H.
      apply DoubleFacts.fl_exact; unfold G; lia. }
    assert (Hinc : (JS.mul (JS.sub 100 r) JS.tenth <= (100 - r) * (1 # 8))%Q).
    { unfold JS.mul. apply DoubleFacts.fl_le_double; [exact Heighth|].
      rewrite Hexact, tenth_value. lra. }
    assert (Hone : (JS.pow2 (-46) <= 100 - r)%Q).
    { rewrite Hgap.
      assert (H1 : (inject_Z 1 <= inject_Z G)%Q) by (rewrite <- Zle_Qle; unfold G; lia).
      change (inject_Z 1) with 1%Q in H1.
      assert (H2 : (1 * JS.pow2 (-46) <= inject_Z G * JS.pow2 (-46))%Q)
        by (apply Qmult_le_compat_r; [exact H1 | discriminate]).
      lra. }
    pose proof (sum_bounds r _ ltac:(lra) Hp) as [_ Hs].
    pow2_numerals. lra.
Qed.

(** A success raises every rate that is not within [2 ^ -40] of 100. *)
Lemma rate_after_success_rises (r : Q) :
  JS.is_double r -> (0 <= r <= 100 - JS.pow2 (-40))%Q ->
  (r < rate_after_success r)%Q.
Proof.
  intros Hd Hr. unfold rate_after_success, JS.Math_min.
  assert (Hr100 : (0 <= r <= 100)%Q) by (pow2_numerals; lra).
  destruct (gap_bounds r Hr100) as [Hg _].
  destruct (increment_bounds (JS.sub 100 r) Hg) as [Hp _].
  assert (Hgap : (JS.pow2 (-40) <= JS.sub 100 r)%Q).
  { unfold JS.sub. apply DoubleFacts.fl_ge_double; [vm_compute; reflexivity | lra]. }
  assert (Hinc : (JS.pow2 (-44) <= JS.mul (JS.sub 100 r) JS.tenth)%Q).
  { unfold JS.mul. apply DoubleFacts.fl_ge_double; [vm_compute; reflexivity |].
    rewrite tenth_value. pow2_numerals. lra. }
  pose proof (sum_bounds r _ Hr100 Hp) as [Hs _].
  apply Q.min_glb_lt; pow2_numerals; lra.
Qed.

(** A failure takes exactly 10 off a rate, or takes it to 0. *)
Lemma rate_after_failure_exact (r : Q) :
  JS.is_double r -> (0 <= r <= 100)%Q ->
  (rate_after_failure r == Qmax 0 (r - 10))%Q
  /\ JS.is_double (rate_after_failure r).
Proof.
  intros Hd Hr. unfold rate_after_failure, JS.Math_max, JS.sub.
  destruct (Qlt_le_dec r 10) as [Hlow | Hhigh].
  - assert (H : (JS.fl (r - 10) <= 0)%Q) by (apply DoubleFacts.fl_nonpos; lra).
    assert (Hmax : (Qmax 0 (JS.fl (r - 10)) == 0)%Q) by (apply Q.max_l; exact H).
    split.
    + rewrite Hmax. symmetry. apply Q.max_l. lra.
    + unfold JS.is_double. rewrite (DoubleFacts.fl_comp _ _ Hmax), Hmax. reflexivity.
  - assert (Hexact : JS.is_double (r - 10)).
    { assert (Hpos : (0 < r)%Q) by lra.
      destruct (DoubleFacts.ilog2_spec r Hpos) as [Hlo Hhi].
      assert (He : 3 <= JS.ilog2 r <= 6).
      { split.
        - assert (3 < JS.ilog2 r + 1); [|lia].
          apply DoubleFacts.pow2_lt_inv. change (JS.pow2 3) with 8%Q. lra.
        - assert (JS.ilog2 r < 7); [|lia].
          apply DoubleFacts.pow2_lt_inv. change (JS.pow2 7) with 128%Q. lra. }
      destruct (DoubleFacts.double_grid r (JS.ilog2 r) Hd) as (N & HN & HNb);
        [lra | lia |].
      remember (JS.ilog2 r) as e eqn:Heqe. clear Heqe Hlo Hhi.
      assert (Hten : (10 == inject_Z (10 * 2 ^ (52 - e)) * JS.pow2 (e - 52))%Q).
      { rewrite inject_Z_mult, <- DoubleFacts.pow2_inject by lia.
        rewrite <- Qmult_assoc, <- DoubleFacts.pow2_add.
        replace (52 - e + (e - 52)) with 0 by lia.
        change (JS.pow2 0) with 1%Q. reflexivity. }
      assert (Hdiff : (r - 10 == inject_Z (N - 10 * 2 ^ (52 - e)) * JS.pow2 (e - 52))%Q).
      { unfold Z.sub at 1. rewrite inject_Z_plus, inject_Z_opp.
        rewrite Hten at 1. rewrite HN. ring. }
      unfold JS.is_double. rewrite (DoubleFacts.fl_comp _ _ Hdiff), Hdiff.
      apply DoubleFacts.fl_exact; [|lia].
      assert (0 < 2 ^ (52 - e) <= 2 ^ 49).
      { split; [apply Z.pow_pos_nonneg; lia | apply Z.pow_le_mono_r; lia]. }
      lia. }
    assert (Hfl : (JS.fl (r - 10) == r - 10)%Q) by exact Hexact.
    split.
    + rewrite Hfl. reflexivity.
    + unfold JS.is_double.
      assert (Hmax : (Qmax 0 (JS.fl (r - 10)) == JS.fl (r - 10))%Q)
        by (apply Q.max_r; rewrite Hfl; lra).
      rewrite (DoubleFacts.fl_comp _ _ Hmax), Hmax.
      apply DoubleFacts.fl_is_double.
Qed.

(** The rate after a run of successes. *)
Lemma successes_rate env name events :
  success_sites_ok env ->
  forall db row,
    sourceConfig db !! name = Some row ->
    JS.is_double (successRate row) ->
    (0 <= successRate row <= 100)%Q ->
    exists row',
      sourceConfig (logSourceSuccesses env name events db).1 !! name = Some row'
      /\ JS.is_double (successRate row')
      /\ (successRate row <= successRate row' <= 100)%Q
      /\ ((successRate row < 100)%Q -> (successRate row' < 100)%Q).
Proof.
  intros Hok. induction events as [|[d q] events IH]; intros db row Hrow Hd Hr.
  - exists row. split; [exact Hrow|]. split; [exact Hd|]. split; [lra | tauto].
  - destruct (logSourceSuccess_existing env name d q None db row Hok Hrow)
      as (row1 & Hdb & Hs & _).
    rewrite (rate_after_success_comp _ _ (DoubleFacts.num_of_double _ Hd)) in Hs.
    destruct (rate_after_success_bounds _ Hd Hr) as [Hb _].
    rewrite <- Hs in Hb.
    cbn [logSourceSuccesses]. unfold bind.
    destruct (logSourceSuccess env name d q None db) as [db1 r1] eqn:Hrun.
    cbn [fst] in Hdb.
    assert (Hr1 : r1 = Returned tt).
    { change r1 with (db1, r1).2. rewrite <- Hrun. apply try_catch_swallow. }
    subst r1.
    assert (Hrow1 : sourceConfig db1 !! name = Some row1)
      by (rewrite Hdb; apply lookup_insert_eq).
    assert (Hd1 : JS.is_double (successRate row1))
      by (rewrite Hs; apply rate_after_success_is_double).
    destruct (IH db1 row1 Hrow1 Hd1 ltac:(lra)) as (row' & Hrow' & Hd' & Hb' & Hlt').
    exists row'. split; [exact Hrow'|]. split; [exact Hd'|]. split; [lra|].
    intros Hlt. apply Hlt'. rewrite Hs.
    apply rate_after_success_below_100; [exact Hd | lra].
Qed.

(** The reliability scenarios of the specification: 80 goes to 82 on a
    success and then to 72 on a failure, the source staying enabled; 25
    goes to 15 on a failure and the source is disabled. *)
Example reliability_scenarios :
  let db1 := (logSourceSuccess Samples.env_ok "exa" 1200 70 None Samples.db_exa).1 in
  let db2 :=
    (logSourceFailure Samples.env_ok "exa" "TIMEOUT" "timed out" None None db1).1 in
  let db3 :=
    (logSourceFailure Samples.env_ok "exa" "TIMEOUT" "timed out" None None
       (set_sourceConfig (insert "exa" (Samples.source_row 25 100 60))
          Samples.db_empty)).1 in
  (exists row, sourceConfig db1 !! "exa" = Some row
               /\ (successRate row == 82)%Q /\ isEnabled row = true)
  /\ (exists row, sourceConfig db2 !! "exa" = Some row
                  /\ (successRate row == 72)%Q /\ isEnabled row = true)
  /\ (exists row, sourceConfig db3 !! "exa" = Some row
                  /\ (successRate row == 15)%Q /\ isEnabled row = false).
Proof.
  cbv zeta. repeat split; eexists; (split; [vm_compute; reflexivity|]);
    split; vm_compute; reflexivity.
Qed.

(** From 80, 316 successes take the rate to [100 - 2 ^ -44]. *)
Example rate_after_316_successes :
  exists row,
    sourceConfig
      (logSourceSuccesses Samples.env_ok "exa" (repeat (1200%Q, 70%Q) 316)
         Samples.db_exa).1 !! "exa" = Some row
    /\ (successRate row == 100 - JS.pow2 (-44))%Q.
Proof.
  eexists. split; [vm_compute; reflexivity|]. vm_compute. reflexivity.
Qed.

(** C2, as stated, fails close to 100: at [100 - 2 ^ -44], which is
    where 316 successes take a rate of 80, the increment is less than half
    the spacing of the doubles; a success leaves the rate where it is,
    which is not [min(100, rate + (100 - rate) * 0.1)], and so do further
    successes. *)
Lemma success_stalls_below_100 :
  (exists row',
      sourceConfig
        (logSourceSuccess Samples.env_ok "exa" 1200 70 None Samples.db_stalled).1
        !! "exa" = Some row'
      /\ (successRate row' == 100 - JS.pow2 (-44))%Q
      /\ ~ (successRate row'
            == Qmin 100 ((100 - JS.pow2 (-44))
                         + (100 - (100 - JS.pow2 (-44))) * (1 # 10)))%Q)
  /\ (exists row',
        sourceConfig
          (logSourceSuccesses Samples.env_ok "exa" (repeat (1200%Q, 70%Q) 3)
             Samples.db_stalled).1 !! "exa" = Some row'
        /\ (successRate row' == 100 - JS.pow2 (-44))%Q
        /\ (successRate row' < 100)%Q).
Proof.
  split.
  - eexists. split; [vm_compute; reflexivity|].
    split; [vm_compute; reflexivity|].
    intros H; vm_compute in H; discriminate H.
  - eexists. split; [vm_compute; reflexivity|].
    split; vm_compute; reflexivity.
Qed.

(** C2, amended. For a row whose rate is a double in [0,100], a success
    event moves the rate to [min(100, rate + (100 - rate) * 0.1)]
    computed in double precision, which is within [2 ^ -46] of the exact
    value; it never lowers the rate, raises it as long as it is at most
    [100 - 2 ^ -40], and never takes a rate below 100 to 100, and so do
    repeated successes.  A failure event moves the rate to
    [max(0, rate - 10)], exactly. *)
Theorem successRate_update env name db row :
  success_sites_ok env ->
  failure_sites_ok env ->
  sourceConfig db !! name = Some row ->
  JS.is_double (successRate row) ->
  (0 <= successRate row <= 100)%Q ->
  (forall d q ind, exists row',
      sourceConfig (logSourceSuccess env name d q ind db).1 !! name = Some row'
      /\ successRate row' = rate_after_success (JS.num (successRate row))
      /\ (Qmin 100 (successRate row + (100 - successRate row) * (1 # 10))
          - JS.pow2 (-46)
          <= successRate row'
          <= Qmin 100 (successRate row + (100 - successRate row) * (1 # 10))
             + JS.pow2 (-46))%Q
      /\ (successRate row <= successRate row' <= 100)%Q
      /\ ((successRate row < 100)%Q -> (successRate row' < 100)%Q)
      /\ ((successRate row <= 100 - JS.pow2 (-40))%Q ->
          (successRate row < successRate row')%Q))
  /\ (forall code msg rc fb, exists row',
      sourceConfig (logSourceFailure env name code msg rc fb db).1 !! name = Some row'
      /\ (successRate row' == Qmax 0 (successRate row - 10))%Q)
  /\ (forall events, exists row',
        sourceConfig (logSourceSuccesses env name events db).1 !! name = Some row'
        /\ JS.is_double (successRate row')
        /\ (successRate row <= successRate row' <= 100)%Q
        /\ ((successRate row < 100)%Q -> (successRate row' < 100)%Q)).
Proof.
  intros Hs Hf Hrow Hd Hr. split; [|split].
  - intros d q ind.
    destruct (logSourceSuccess_existing env name d q ind db row Hs Hrow)
      as (row' & Hdb & Hrate & _).
    exists row'. split; [rewrite Hdb; apply lookup_insert_eq|].
    split; [exact Hrate|].
    rewrite (rate_after_success_comp _ _ (DoubleFacts.num_of_double _ Hd)) in Hrate.
    rewrite Hrate.
    destruct (rate_after_success_bounds _ Hd Hr) as [Hb Hnear].
    split; [exact Hnear|]. split; [exact Hb|]. split.
    + intros Hlt. apply rate_after_success_below_100; [exact Hd | lra].
    + intros Hle. apply rate_after_success_rises; [exact Hd | lra].
  - intros code msg rc fb.
    destruct (logSourceFailure_existing env name code msg rc fb db row Hf Hrow)
      as (row' & Hdb & Hrate & _).
    exists row'. split; [rewrite Hdb; apply lookup_insert_eq|].
    rewrite (rate_after_failure_comp _ _ (DoubleFacts.num_of_double _ Hd)) in Hrate.
    rewrite Hrate. apply rate_after_failure_exact; assumption.
  - intros events. apply successes_rate; assumption.
Qed.

Lemma successRate_update_witness :
  exists row',
    sourceConfig
      (logSourceSuccess Samples.env_ok "exa" 1200 70 None Samples.db_exa).1 !! "exa"
    = Some row'
    /\ (80 < successRate row' < 100)%Q.
Proof.
  destruct (successRate_update Samples.env_ok "exa" Samples.db_exa
              (Samples.source_row 80 100 60)) as (Hsucc & _).
  - repeat split; reflexivity.
  - repeat split; reflexivity.
  - reflexivity.
  - vm_compute. reflexivity.
  - cbn [successRate Samples.source_row]. lra.
  - destruct (Hsucc 1200%Q 70%Q None) as (row' & Hrow' & _ & _ & _ & Hlt & Hrise).
    exists row'. split; [exact Hrow'|].
    cbn [successRate Samples.source_row] in Hlt, Hrise. split.
    + apply Hrise. vm_compute. discriminate.
    + apply Hlt. reflexivity.
Defined.

(** C5, as stated, fails on the lazy creation of a row by a first
    failure: the row is created enabled with a success rate of 0. *)
Lemma enabled_on_first_failure :
  exists row,
    sourceConfig
      (logSourceFailure Samples.env_ok "exa" "TIMEOUT" "timed out" None None
         Samples.db_empty).1 !! "exa" = Some row
    /\ isEnabled row = true
    /\ ~ (20 < successRate row)%Q.
Proof.
  eexists. split; [vm_compute; reflexivity|].
  split; [reflexivity|]. cbn [successRate]. lra.
Qed.

(** C5, amended. After an update of an existing row, [isEnabled] is
    true if and only if the just-updated success rate is strictly above
    20; the lazy creation of a row sets [isEnabled] to true, with a
    success rate of 100 on a first success and of 0 on a first failure. *)
Theorem enabled_after_update env name success d q db :
  metrics_sites_ok env ->
  exists row',
    sourceConfig (updateSourceMetrics env name success d q db).1 !! name = Some row'
    /\ match sourceConfig db !! name with
       | Some _ => isEnabled row' = true <-> (20 < successRate row')%Q
       | None =>
           isEnabled row' = true
           /\ successRate row' = (if success then 100 else 0)%Q
       end.
Proof.
  intros Hok. destruct (sourceConfig db !! name) as [row|] eqn:Hrow.
  - destruct (updateSourceMetrics_existing env name success d q db row Hok Hrow)
      as (row' & Hrun & _ & _ & _ & He).
    exists row'. rewrite Hrun. split; [apply lookup_insert_eq|].
    rewrite He. apply gt_iff.
  - destruct (updateSourceMetrics_fresh env name success d q db Hok Hrow)
      as (row' & Hrun & Hs & He).
    exists row'. rewrite Hrun. split; [apply lookup_insert_eq|]. now split.
Qed.

Lemma enabled_after_update_witness :
  exists row',
    sourceConfig
      (updateSourceMetrics Samples.env_ok "exa" false 0 0 Samples.db_exa).1 !! "exa"
    = Some row'
    /\ (isEnabled row' = true <-> (20 < successRate row')%Q).
Proof.
  apply (enabled_after_update Samples.env_ok "exa" false 0 0 Samples.db_exa).
  repeat split; reflexivity.
Defined.

(** *** The two-point averages, in double precision *)

(** The average of two doubles: the sum is rounded, the halving is
    exact. *)
Lemma two_point_average_bounds (a x : Q) :
  JS.is_double a -> JS.is_double x ->
  (JS.pow2 (-1021) <= a + x)%Q ->
  ((a + x) / 2 - (a + x) * JS.pow2 (-54)
   <= two_point_average (JS.num a) (JS.num x)
   <= (a + x) / 2 + (a + x) * JS.pow2 (-54))%Q
  /\ (JS.is_double (a + x) ->
      (two_point_average (JS.num a) (JS.num x) == (a + x) / 2)%Q).
Proof.
  intros Ha Hx Hsum. unfold two_point_average, JS.div, JS.add.
  assert (Hs : JS.fl (JS.num a + JS.num x) = JS.fl (a + x)).
  { apply DoubleFacts.fl_comp.
    rewrite (DoubleFacts.num_of_double a Ha), (DoubleFacts.num_of_double x Hx).
    reflexivity. }
  rewrite Hs.
  assert (Hlow : (JS.pow2 (-1021) <= JS.fl (a + x))%Q).
  { apply DoubleFacts.fl_ge_double; [|exact Hsum].
    apply DoubleFacts.pow2_is_double. lia. }
  pose proof (DoubleFacts.half_is_double _ (DoubleFacts.fl_is_double (a + x)) Hlow)
    as Hhalf.
  unfold JS.is_double in Hhalf. rewrite Hhalf.
  assert (H1022 : (JS.pow2 (-1022) <= a + x)%Q).
  { apply Qle_trans with (JS.pow2 (-1021)); [|exact Hsum].
    apply DoubleFacts.pow2_le. lia. }
  pose proof (DoubleFacts.fl_relative_error (a + x) H1022) as Herr.
  assert (H54 : (JS.pow2 (-53) == 2 * JS.pow2 (-54))%Q) by reflexivity.
  split.
  - assert (Hp : ((a + x) * JS.pow2 (-53) == 2 * ((a + x) * JS.pow2 (-54)))%Q)
      by (rewrite H54; ring).
    rewrite Hp in Herr.
    set (p := ((a + x) * JS.pow2 (-54))%Q) in *.
    set (f := JS.fl (a + x)) in *. set (s := (a + x)%Q) in *.
    unfold Qdiv. change (/ 2)%Q with (1 # 2)%Q. split; lra.
  - intros Hd. unfold JS.is_double in Hd. rewrite Hd. reflexivity.
Qed.

(** C9, as stated, fails on a success event whose duration and quality
    are 0: the averages 100 and 60 stay as they are, where the two-point
    averages would be 50 and 30.  And the average that is stored is a
    double: from a quality average of 4996180836614133 / 2 ^ 46, which is
    where 46 successes of quality 71 take an average of 60, a success of
    quality 71 stores 2498090418307069 / 2 ^ 45, which is not the mean of
    the two. *)
Lemma averages_kept_on_zero_success :
  (exists row',
      sourceConfig
        (logSourceSuccess Samples.env_ok "exa" 0 0 None Samples.db_exa).1 !! "exa"
      = Some row'
      /\ ~ (avgDurationMs row' == inject_Z (JS.Math_round ((100 + 0) / 2)))%Q
      /\ ~ (avgQualityScore row' == (60 + 0) / 2)%Q)
  /\ (exists row',
        sourceConfig
          (logSourceSuccess Samples.env_ok "exa" 1200 71 None
             (Samples.db_source
                (Samples.source_row 80 100 (4996180836614133 # 70368744177664)))).1
          !! "exa"
        = Some row'
        /\ (avgQualityScore row' == 2498090418307069 # 35184372088832)%Q
        /\ ~ (avgQualityScore row'
              == ((4996180836614133 # 70368744177664) + 71) / 2)%Q).
Proof.
  split.
  - eexists. split; [vm_compute; reflexivity|].
    split; intros H; vm_compute in H; discriminate H.
  - eexists. split; [vm_compute; reflexivity|].
    split; [vm_compute; reflexivity|].
    intros H; vm_compute in H; discriminate H.
Qed.

(** C9, amended. A success event with a positive duration moves
    [avgDurationMs] to [round((avgDurationMs + durationMs) / 2)], and one
    with a positive quality moves [avgQualityScore] to
    [(avgQualityScore + qualityScore) / 2], both computed in double
    precision; a success event whose duration (respectively quality) is
    not positive, and every failure event, leaves the average as it is.
    The average of two doubles, computed so, is half their rounded sum: it
    is the exact mean when the sum is a double, and within the fraction
    [2 ^ -54] of the sum otherwise. *)
Theorem averages_update env name db row :
  success_sites_ok env ->
  failure_sites_ok env ->
  sourceConfig db !! name = Some row ->
  (forall d q ind, exists row',
      sourceConfig (logSourceSuccess env name d q ind db).1 !! name = Some row'
      /\ ((0 < JS.num d)%Q ->
          avgDurationMs row'
          = inject_Z (JS.Math_round
                        (two_point_average (JS.num (avgDurationMs row))
                           (JS.num d))))
      /\ ((JS.num d <= 0)%Q -> avgDurationMs row' = avgDurationMs row)
      /\ ((0 < JS.num q)%Q ->
          avgQualityScore row'
          = two_point_average (JS.num (avgQualityScore row)) (JS.num q))
      /\ ((JS.num q <= 0)%Q -> avgQualityScore row' = avgQualityScore row))
  /\ (forall code msg rc fb, exists row',
      sourceConfig (logSourceFailure env name code msg rc fb db).1 !! name = Some row'
      /\ avgDurationMs row' = avgDurationMs row
      /\ avgQualityScore row' = avgQualityScore row)
  /\ (forall a x,
        JS.is_double a -> JS.is_double x ->
        (JS.pow2 (-1021) <= a + x <= JS.max_value)%Q ->
        ((a + x) / 2 - (a + x) * JS.pow2 (-54)
         <= two_point_average (JS.num a) (JS.num x)
         <= (a + x) / 2 + (a + x) * JS.pow2 (-54))%Q
        /\ (JS.is_double (a + x) ->
            (two_point_average (JS.num a) (JS.num x) == (a + x) / 2)%Q)).
Proof.
  intros Hs Hf Hrow. split; [|split].
  - intros d q ind.
    destruct (logSourceSuccess_existing env name d q ind db row Hs Hrow)
      as (row' & Hdb & _ & Hd & Hq & _).
    exists row'. split; [rewrite Hdb; apply lookup_insert_eq|].
    rewrite Hd, Hq. repeat split; intros H.
    + apply gt_iff in H. now rewrite H.
    + apply gt_false_iff in H. now rewrite H.
    + apply gt_iff in H. now rewrite H.
    + apply gt_false_iff in H. now rewrite H.
  - intros code msg rc fb.
    destruct (logSourceFailure_existing env name code msg rc fb db row Hf Hrow)
      as (row' & Hdb & _ & Hd & Hq & _).
    exists row'. split; [rewrite Hdb; apply lookup_insert_eq|]. now split.
  - intros a x Ha Hx [Hlow _]. apply two_point_average_bounds; assumption.
Qed.

Lemma averages_update_witness :
  exists row',
    sourceConfig
      (logSourceSuccess Samples.env_ok "exa" 300 80 None Samples.db_exa).1 !! "exa"
    = Some row'
    /\ (avgDurationMs row' == 200)%Q
    /\ (avgQualityScore row' == 70)%Q.
Proof.
  destruct (averages_update Samples.env_ok "exa" Samples.db_exa
              (Samples.source_row 80 100 60)) as (Hsucc & _).
  - repeat split; reflexivity.
  - repeat split; reflexivity.
  - reflexivity.
  - destruct (Hsucc 300%Q 80%Q None) as (row' & Hrow' & Hd & _ & Hq & _).
    exists row'. split; [exact Hrow'|].
    rewrite Hd, Hq by (vm_compute; reflexivity).
    split; vm_compute; reflexivity.
Defined.

End EvolutionFacts.

(** ** Learning insights *)

Module InsightsFacts.
Import Evolution.






End InsightsFacts.

(** ** Completion events and the processing time *)

Module ProcessingTimeFacts.
Import Evolution.

Lemma updateSourceMetrics_log env name success d q db :
  evolutionLog (updateSourceMetrics env name success d q db).1 = evolutionLog db.
Proof.
  unfold updateSourceMetrics, try_catch, bind, prisma_call.
  destruct (dbFault env updateSourceMetrics_findUnique); [reflexivity|].
  destruct (sourceConfig db !! name) eqn:Hrow.
  - destruct (dbFault env updateSourceMetrics_update); [reflexivity|].
    rewrite Hrow. reflexivity.
  - destruct (dbFault env updateSourceMetrics_create); [reflexivity|].
    rewrite Hrow. reflexivity.
Qed.

Lemma updateSourceMetrics_returns env name success d q db :
  (updateSourceMetrics env name success d q db).2 = Returned tt.
Proof. apply try_catch_swallow. Qed.

Lemma run_call_log env c db :
  evolutionLog (run_call env c db).1 = evolutionLog db
  \/ exists ev,
       evolutionLog (run_call env c db).1 = ev :: evolutionLog db
       /\ (eventType ev = RESEARCH_COMPLETE -> durationMs ev = None).
Proof.
  destruct c as [s d q i|s c m r f|c s u f g]; cbn [run_call].
  - unfold logSourceSuccess, try_catch, bind, evolutionLog_create, prisma_call.
    destruct (dbFault env logSourceSuccess_create); [left; reflexivity|].
    cbn [modify].
    match goal with
    | |- context [updateSourceMetrics ?e ?n ?b ?x ?y ?d] =>
        pose proof (updateSourceMetrics_log e n b x y d) as Hlog;
        pose proof (updateSourceMetrics_returns e n b x y d) as Hret;
        destruct (updateSourceMetrics e n b x y d) as [db' r']
    end.
    cbn [fst snd] in Hlog, Hret. subst r'. cbn [fst]. rewrite Hlog.
    right. eexists. split; [reflexivity|]. discriminate.
  - unfold logSourceFailure, try_catch, bind, evolutionLog_create, prisma_call.
    destruct (dbFault env logSourceFailure_create); [left; reflexivity|].
    cbn [modify].
    match goal with
    | |- context [updateSourceMetrics ?e ?n ?b ?x ?y ?d] =>
        pose proof (updateSourceMetrics_log e n b x y d) as Hlog;
        pose proof (updateSourceMetrics_returns e n b x y d) as Hret;
        destruct (updateSourceMetrics e n b x y d) as [db' r']
    end.
    cbn [fst snd] in Hlog, Hret. subst r'. cbn [fst]. rewrite Hlog.
    right. eexists. split; [reflexivity|]. discriminate.
  - unfold logResearchComplete, try_catch, evolutionLog_create, prisma_call.
    destruct (dbFault env logResearchComplete_create); [left; reflexivity|].
    right. eexists. split; [reflexivity|]. reflexivity.
Qed.

Lemma run_calls_log calls :
  forall db,
    no_completion_duration (evolutionLog db) ->
    no_completion_duration (evolutionLog (run_calls calls db).1).
Proof.
  induction calls as [|[env c] calls IH]; intros db Hinv; [exact Hinv|].
  cbn [run_calls]. unfold bind.
  pose proof (run_call_log env c db) as Hstep.
  destruct (run_call env c db) as [db1 [[]|e]]; cbn [fst] in Hstep.
  - apply IH. destruct Hstep as [-> | (ev & -> & Hev)]; [exact Hinv|].
    constructor; assumption.
  - cbn [fst]. destruct Hstep as [-> | (ev & -> & Hev)]; [exact Hinv|].
    constructor; assumption.
Qed.

Lemma sum_durations_zero (l : list EvolutionLog) :
  Forall (fun r => durationMs r = None) l ->
  (sum_or_zero durationMs l == 0)%Q.
Proof.
  intros H. unfold sum_or_zero.
  rewrite (fold_left_sum _ (fun r => JS.or_null (durationMs r) 0)).
  induction H as [|r l Hr _ IH]; cbn [map fold_right]; [lra|].
  rewrite Hr. cbn [JS.or_null]. lra.
Qed.

Lemma recent_completions_no_duration db :
  no_completion_duration (evolutionLog db) ->
  Forall (fun r => durationMs r = None) (recent_completions db).
Proof.
  intros Hinv. unfold recent_completions. apply Forall_take.
  apply Forall_forall. intros r Hr. apply list_elem_of_In, filter_In in Hr.
  destruct Hr as (Hin & Htype).
  unfold no_completion_duration in Hinv. rewrite Forall_forall in Hinv.
  apply Hinv; [now apply list_elem_of_In|].
  destruct (eventType r); (reflexivity || discriminate Htype).
Qed.

Lemma round_of_zero (x : Q) : (x == 0)%Q -> JS.Math_round x = 0.
Proof. intros H. unfold JS.Math_round. now rewrite H. Qed.

Lemma analyze_processing env db :
  let insights := analyzeLearningInsights env db in
  (avgProcessingTime insights = 0
   \/ avgProcessingTime insights
      = JS.Math_round
          (sum_or_zero durationMs (recent_completions db)
           / inject_Z (Z.of_nat (length (recent_completions db))) / 1000))
  /\ (In processing_time_recommendation (recommendations insights) ->
      300 < avgProcessingTime insights).
Proof.
  unfold analyzeLearningInsights, analyzeLearningInsights_try, try_catch, bind,
    prisma_call.
  fold (recent_completions db).
  destruct (dbFault env insights_topSources);
    [cbn; split; [now left | intros []]|].
  destruct (dbFault env insights_badSources);
    [cbn; split; [now left | intros []]|].
  destruct (dbFault env insights_recentLogs);
    [cbn; split; [now left | intros []]|].
  cbv zeta. cbn [ret modify get fst snd].
  repeat match goal with
         | |- context [if ?c then _ else _] =>
             destruct c eqn:?; cbn [ret modify get fst snd]
         end;
    cbn [avgProcessingTime recommendations set_avgProcessingTime
           set_qualityTrend set_problematicSources set_topSources
           push_recommendation app In];
    (split; [first [now left | now right] |]);
    intros Hin;
    repeat match goal with
           | H : _ \/ _ |- _ => destruct H
           | H : False |- _ => destruct H
           | H : review_recommendation _ = _ |- _ => discriminate H
           | H : declining_recommendation = _ |- _ => discriminate H
           | H : (300 <? _) = true |- _ => apply Z.ltb_lt in H
           end;
    try assumption; try discriminate.
Qed.

(** C10. A completion event appended by [logResearchComplete] carries
    no duration, so over any history of logging calls that starts from an
    empty log no completion event has one, the average processing time
    [analyzeLearningInsights] computes is 0 seconds, and the
    recommendation on a processing time above 300 seconds is not made. *)
Theorem completion_events_processing_time calls env db0 :
  evolutionLog db0 = [] ->
  let db := (run_calls calls db0).1 in
  let insights := analyzeLearningInsights env db in
  no_completion_duration (evolutionLog db)
  /\ avgProcessingTime insights = 0
  /\ ~ In processing_time_recommendation (recommendations insights).
Proof.
  intros Hempty db insights.
  assert (Hinv : no_completion_duration (evolutionLog db)).
  { apply run_calls_log. rewrite Hempty. constructor. }
  destruct (analyze_processing env db) as (Havg & Hrec).
  fold insights in Havg, Hrec.
  assert (Hzero : avgProcessingTime insights = 0).
  { destruct Havg as [H | H]; [exact H|]. rewrite H.
    apply round_of_zero.
    rewrite (sum_durations_zero _ (recent_completions_no_duration db Hinv)).
    unfold Qdiv. ring. }
  split; [exact Hinv|]. split; [exact Hzero|].
  intros Hin. apply Hrec in Hin. lia.
Qed.

Lemma completion_events_processing_time_witness :
  avgProcessingTime
    (analyzeLearningInsights Samples.env_ok
       (run_calls
          [(Samples.env_ok,
            call_logSourceSuccess "exa" 400000 80 None);
           (Samples.env_ok,
            call_logResearchComplete "c1" 85 ["exa"] [] ["No news coverage found"])]
          Samples.db_empty).1)
  = 0.
Proof.
  apply (completion_events_processing_time
           [(Samples.env_ok,
             call_logSourceSuccess "exa" 400000 80 None);
            (Samples.env_ok,
             call_logResearchComplete "c1" 85 ["exa"] [] ["No news coverage found"])]
           Samples.env_ok Samples.db_empty).
  reflexivity.
Defined.

End ProcessingTimeFacts.

(** ** Reasoning about computations *)

Section WpRules.
Context {S A B : Type}.

Lemma wp_ret (a : A) (Q : S -> Result A -> Prop) s :
  Q s (Returned a) -> wp (ret a) Q s.
Proof. exact (fun H => H). Qed.

Lemma wp_throw e (Q : S -> Result A -> Prop) s :
  Q s (Thrown e) -> wp (throw e) Q s.
Proof. exact (fun H => H). Qed.

Lemma wp_bind (m : M S A) (k : A -> M S B) (Q : S -> Result B -> Prop) s :
  wp m (fun s1 r =>
          match r with
          | Returned a => wp (k a) Q s1
          | Thrown e => Q s1 (Thrown e)
          end) s ->
  wp (bind m k) Q s.
Proof.
  unfold wp, bind. destruct (m s) as [s1 [a|e]]; cbn [fst snd]; exact (fun H => H).
Qed.

Lemma wp_try_catch (body : M S A) (handler : string -> M S A)
    (Q : S -> Result A -> Prop) s :
  wp body (fun s1 r =>
             match r with
             | Returned a => Q s1 (Returned a)
             | Thrown e => wp (handler e) Q s1
             end) s ->
  wp (try_catch body handler) Q s.
Proof.
  unfold wp, try_catch. destruct (body s) as [s1 [a|e]]; cbn [fst snd];
    exact (fun H => H).
Qed.

Lemma wp_prisma_call env site (op : M S A) (Q : S -> Result A -> Prop) s :
  (forall e, dbFault env site = Some e -> Q s (Thrown e)) ->
  (dbFault env site = None -> wp op Q s) ->
  wp (prisma_call env site op) Q s.
Proof.
  intros Hfault Hok. unfold prisma_call.
  destruct (dbFault env site) as [e|]; [apply wp_throw; auto | auto].
Qed.

Lemma wp_await (o : Outcome A) (Q : S -> Result A -> Prop) s :
  (forall a, o = Resolves a -> Q s (Returned a)) ->
  (forall e, o = Rejects e -> Q s (Thrown e)) ->
  wp (await o) Q s.
Proof.
  intros Hres Hrej. destruct o as [a|e]; [apply wp_ret | apply wp_throw]; auto.
Qed.

Lemma wp_modify (f : S -> S) (Q : S -> Result unit -> Prop) s :
  Q (f s) (Returned tt) -> wp (modify f) Q s.
Proof. exact (fun H => H). Qed.

Lemma wp_mono (m : M S A) (Q Q' : S -> Result A -> Prop) s :
  wp m Q s -> (forall s1 r, Q s1 r -> Q' s1 r) -> wp m Q' s.
Proof. unfold wp. auto. Qed.

End WpRules.

(** ** The orchestrator and the evolution engine *)

Module SequencerFacts.
Import Orchestrator.

Lemma researchJob_update_engine env site id data db0 db :
  engine_untouched db0 db ->
  wp (researchJob_update env site id data)
    (fun db1 _ => engine_untouched db0 db1) db.
Proof.
  intros H. unfold researchJob_update. apply wp_prisma_call; [auto|intros _].
  unfold wp. destruct (researchJob db !! id); exact H.
Qed.

Lemma company_update_engine env site id data db0 db :
  engine_untouched db0 db ->
  wp (company_update env site id data)
    (fun db1 _ => engine_untouched db0 db1) db.
Proof.
  intros H. unfold company_update. apply wp_prisma_call; [auto|intros _].
  unfold wp. destruct (company db !! id); exact H.
Qed.

Lemma updateJobProgress_engine env jobId p f db0 db :
  engine_untouched db0 db ->
  wp (updateJobProgress env jobId p f)
    (fun db1 r => r = Returned tt /\ engine_untouched db0 db1) db.
Proof.
  intros H. unfold updateJobProgress. apply wp_try_catch.
  eapply wp_mono; [apply researchJob_update_engine, H|].
  intros db1 [[]|e] H1; [split; [reflexivity|exact H1]|].
  apply wp_ret. split; [reflexivity|exact H1].
Qed.

Lemma upsert_engine f db0 db :
  engine_untouched db0 db -> engine_untouched db0 (set_researchResult f db).
Proof. exact (fun H => H). Qed.

Ltac step_engine :=
  lazymatch goal with
  | |- wp (bind (updateJobProgress _ _ _ _) _) _ _ =>
      apply wp_bind; eapply wp_mono;
      [apply updateJobProgress_engine; eassumption|];
      let db := fresh "db" in let r := fresh "r" in let H := fresh "Heng" in
      intros db r [-> H]
  | |- wp (bind (researchJob_update _ _ _ _) _) _ _ =>
      apply wp_bind; eapply wp_mono;
      [apply researchJob_update_engine; eassumption|];
      let db := fresh "db" in let H := fresh "Heng" in
      intros db [[]|?] H; [|exact H]
  | |- wp (bind (company_update _ _ _ _) _) _ _ =>
      apply wp_bind; eapply wp_mono;
      [apply company_update_engine; eassumption|];
      let db := fresh "db" in let H := fresh "Heng" in
      intros db [[]|?] H; [|exact H]
  | |- wp (bind (await _) _) _ _ =>
      apply wp_bind; apply wp_await; [intros ? _ | intros ? _; eassumption]
  | |- wp (bind (prisma_call _ _ (modify _)) _) _ _ =>
      apply wp_bind; apply wp_prisma_call; [intros ? _; eassumption | intros _];
      apply wp_modify;
      match goal with
      | H : engine_untouched _ ?d |- wp _ _ (set_researchResult ?f ?d) =>
          apply (upsert_engine f) in H
      end
  | |- wp (bind (bind _ _) _) _ _ => apply wp_bind
  | |- wp (bind (ret _) _) _ _ => apply wp_bind, wp_ret; cbv beta iota
  | |- wp (ret _) _ _ => apply wp_ret; cbv beta iota; try eassumption
  | |- wp (throw _) _ _ => apply wp_throw; eassumption
  end.

Lemma executeResearch_try_engine env jobId cid comp intel db0 db :
  engine_untouched db0 db ->
  wp (executeResearch_try env jobId cid comp intel)
    (fun db' _ => engine_untouched db0 db') db.
Proof.
  intros H0. unfold executeResearch_try.
  step_engine.
  destruct (JS.truthy_string (website comp)); repeat step_engine.
Qed.

Lemma executeResearch_engine env jobId db :
  wp (executeResearch env jobId) (fun db' _ => engine_untouched db db') db.
Proof.
  assert (H0 : engine_untouched db db) by (split; reflexivity).
  unfold executeResearch.
  apply wp_bind, wp_prisma_call; [intros ? _; exact H0 | intros _].
  unfold wp at 1. cbn [fst snd].
  destruct (researchJob db !! jobId) as [job|]; [|step_engine].
  apply wp_bind. unfold wp at 1. cbn [fst snd].
  step_engine.
  destruct (company db !! job_companyId job) as [comp|]; [|step_engine].
  step_engine.
  apply wp_try_catch.
  eapply wp_mono; [apply executeResearch_try_engine; eassumption|].
  intros db2 [intel|e] H2; [exact H2|]. cbv beta.
  repeat step_engine.
Qed.

(** C3, as stated, fails: a run whose four stages all return leaves the
    event log empty and creates no reliability row. *)
Lemma stages_record_nothing :
  (exists intel,
      (executeResearch Samples.env_ok "j1" Samples.db_job).2 = Returned intel)
  /\ evolutionLog (executeResearch Samples.env_ok "j1" Samples.db_job).1 = []
  /\ sourceConfig (executeResearch Samples.env_ok "j1" Samples.db_job).1 = ∅.
Proof.
  split; [eexists; vm_compute; reflexivity|].
  split; vm_compute; reflexivity.
Qed.

(** C3, amended. The stage sequencer records nothing with the evolution
    engine: whatever the stages and the Prisma calls do, a run of
    [executeResearch] leaves the event log and the reliability rows as
    they were. An outcome is recorded when [logSourceSuccess] or
    [logSourceFailure] is called, which appends an event carrying the
    source with its duration and quality, respectively its error, and
    then updates the source's row: the row it had gets the rate one
    success, respectively one failure, gives, one more use and its
    enabled flag; a source without a row gets one, at 100 respectively
    0. *)
Theorem sequencer_records_nothing env jobId db :
  engine_untouched db (executeResearch env jobId db).1
  /\ (forall name d q ind,
        dbFault env logSourceSuccess_create = None ->
        exists ev,
          evolutionLog (Evolution.logSourceSuccess env name d q ind db).1
          = ev :: evolutionLog db
          /\ eventType ev = SOURCE_SUCCESS /\ source ev = Some name
          /\ durationMs ev = Some d /\ dataQualityScore ev = Some q)
  /\ (forall name code msg rc fb,
        dbFault env logSourceFailure_create = None ->
        exists ev,
          evolutionLog (Evolution.logSourceFailure env name code msg rc fb db).1
          = ev :: evolutionLog db
          /\ eventType ev = SOURCE_FAILURE /\ source ev = Some name
          /\ errorCode ev = Some code /\ errorMessage ev = Some msg)
  /\ (forall name d q ind,
        success_sites_ok env ->
        exists row',
          sourceConfig (Evolution.logSourceSuccess env name d q ind db).1
          = <[name := row']> (sourceConfig db)
          /\ row_updated (sourceConfig db !! name) row'
          /\ successRate row'
             = match sourceConfig db !! name with
               | Some row => Evolution.rate_after_success (JS.num (successRate row))
               | None => 100%Q
               end)
  /\ (forall name code msg rc fb,
        failure_sites_ok env ->
        exists row',
          sourceConfig (Evolution.logSourceFailure env name code msg rc fb db).1
          = <[name := row']> (sourceConfig db)
          /\ row_updated (sourceConfig db !! name) row'
          /\ successRate row'
             = match sourceConfig db !! name with
               | Some row => Evolution.rate_after_failure (JS.num (successRate row))
               | None => 0%Q
               end).
Proof.
  split; [apply executeResearch_engine|]. split; [|split; [|split]].
  - intros name d q ind Hc.
    unfold Evolution.logSourceSuccess, try_catch, bind, Evolution.evolutionLog_create.
    rewrite (prisma_call_ok _ _ _ Hc). cbn [modify].
    match goal with
    | |- context [Evolution.updateSourceMetrics ?e ?n ?b ?x ?y ?d] =>
        pose proof (ProcessingTimeFacts.updateSourceMetrics_log e n b x y d) as Hlog;
        pose proof (ProcessingTimeFacts.updateSourceMetrics_returns e n b x y d)
          as Hret;
        destruct (Evolution.updateSourceMetrics e n b x y d) as [db' r']
    end.
    cbn [fst snd] in Hlog, Hret. subst r'. cbn [fst]. rewrite Hlog.
    eexists. split; [reflexivity|]. repeat split.
  - intros name code msg rc fb Hc.
    unfold Evolution.logSourceFailure, try_catch, bind, Evolution.evolutionLog_create.
    rewrite (prisma_call_ok _ _ _ Hc). cbn [modify].
    match goal with
    | |- context [Evolution.updateSourceMetrics ?e ?n ?b ?x ?y ?d] =>
        pose proof (ProcessingTimeFacts.updateSourceMetrics_log e n b x y d) as Hlog;
        pose proof (ProcessingTimeFacts.updateSourceMetrics_returns e n b x y d)
          as Hret;
        destruct (Evolution.updateSourceMetrics e n b x y d) as [db' r']
    end.
    cbn [fst snd] in Hlog, Hret. subst r'. cbn [fst]. rewrite Hlog.
    eexists. split; [reflexivity|]. repeat split.
  - intros name d q ind (Hc & Hm).
    unfold Evolution.logSourceSuccess, try_catch, bind, Evolution.evolutionLog_create.
    rewrite (prisma_call_ok _ _ _ Hc). cbn [modify].
    match goal with
    | |- context [Evolution.updateSourceMetrics ?e ?n ?b ?x ?y ?d] =>
        destruct (EvolutionFacts.updateSourceMetrics_row e n b x y d Hm)
          as (row' & Hrun & Hrow & Hrate)
    end.
    rewrite Hrun. exists row'. split; [reflexivity|]. split; assumption.
  - intros name code msg rc fb (Hc & Hm).
    unfold Evolution.logSourceFailure, try_catch, bind, Evolution.evolutionLog_create.
    rewrite (prisma_call_ok _ _ _ Hc). cbn [modify].
    match goal with
    | |- context [Evolution.updateSourceMetrics ?e ?n ?b ?x ?y ?d] =>
        destruct (EvolutionFacts.updateSourceMetrics_row e n b x y d Hm)
          as (row' & Hrun & Hrow & Hrate)
    end.
    rewrite Hrun. exists row'. split; [reflexivity|]. split; assumption.
Qed.

Lemma sequencer_records_nothing_witness :
  engine_untouched Samples.db_job
    (Orchestrator.executeResearch Samples.env_ok "j1" Samples.db_job).1
  /\ exists ev,
       evolutionLog
         (Evolution.logSourceSuccess Samples.env_ok "exa" 1200 70 None
            Samples.db_job).1
       = ev :: evolutionLog Samples.db_job
       /\ durationMs ev = Some 1200%Q
       /\ exists row',
            sourceConfig
              (Evolution.logSourceSuccess Samples.env_ok "exa" 1200 70 None
                 Samples.db_job).1
            = <["exa" := row']> (sourceConfig Samples.db_job)
            /\ successRate row' = 100%Q.
Proof.
  destruct (sequencer_records_nothing Samples.env_ok "j1" Samples.db_job)
    as (Hrun & Hsuccess & _ & Hrow & _).
  split; [exact Hrun|].
  destruct (Hsuccess "exa" 1200%Q 70%Q None) as (ev & Hlog & _ & _ & Hd & _).
  - reflexivity.
  - exists ev. split; [exact Hlog|]. split; [exact Hd|].
    destruct (Hrow "exa" 1200%Q 70%Q None) as (row' & Hcfg & _ & Hrate).
    + repeat split; reflexivity.
    + exists row'. split; [exact Hcfg | exact Hrate].
Defined.

End SequencerFacts.

(** ** The fused record *)

Module FuserFacts.
Import Orchestrator.

Lemma wp_any {S A} (m : M S A) (Q : S -> Result A -> Prop) s :
  (forall s1 r, Q s1 r) -> wp m Q s.
Proof. unfold wp. auto. Qed.

(** A step of a computation whose exceptions are not looked at. *)
Ltac step_any :=
  apply wp_bind; apply wp_any; intros ? [?|?]; [|exact I].

Lemma executeResearch_try_fused env jobId cid comp intel0 db :
  wp (executeResearch_try env jobId cid comp intel0)
    (fun _ r =>
       match r with
       | Returned intel => fused_by env intel
       | Thrown _ => True
       end) db.
Proof.
  unfold executeResearch_try. do 14 step_any.
  apply wp_ret. unfold fused_by.
  split; [do 4 eexists; reflexivity|].
  repeat split; eauto.
Qed.

Lemma executeResearch_fused env jobId db db' intel :
  executeResearch env jobId db = (db', Returned intel) -> fused_by env intel.
Proof.
  intros Hrun.
  assert (H : wp (executeResearch env jobId)
                (fun _ r =>
                   match r with
                   | Returned intel => fused_by env intel
                   | Thrown _ => True
                   end) db).
  { unfold executeResearch. step_any. 
    destruct a as [job|]; [|exact I].
    do 2 step_any. destruct a as [comp|]; [|exact I].
    step_any. apply wp_try_catch.
    eapply wp_mono; [apply executeResearch_try_fused|].
    intros db1 [i|e] Hi; [exact Hi|]. cbv beta.
    do 2 step_any. exact I. }
  unfold wp in H. rewrite Hrun in H. exact H.
Qed.

(** The social hunt finds each platform at most once. *)
Lemma found_profiles_sublist env name location (entries : list (string * string)) :
  map SocialHunter.platform
    (map (SocialHunt.verify_profile env name)
       (omap id
          (map (fun entry => SocialHunt.searchPlatform env name entry.1 entry.2 location)
             entries)))
  `sublist_of` map fst entries.
Proof.
  induction entries as [|[platform domain] entries IH]; [constructor|].
  cbn [map omap fst snd]. unfold SocialHunt.searchPlatform at 1.
  destruct (exaBestMatch env name platform domain location); cbn [id map];
    [apply sublist_skip | apply sublist_cons]; exact IH.
Qed.

Lemma huntSocialProfiles_NoDup env name website_ phone_ location_ :
  NoDup (map SocialHunter.platform
           (SocialHunter.platforms
              (SocialHunt.huntSocialProfiles env name website_ phone_ location_))).
Proof.
  eapply sublist_NoDup; [|apply found_profiles_sublist].
  apply (bool_decide_unpack _). vm_compute. exact I.
Qed.

Lemma calculateCompleteness_weighted_sum intel :
  NoDup (map SocialHunter.platform (social_platforms intel)) ->
  calculateCompleteness intel = Criteria.weighted_sum intel.
Proof.
  intros Hdup.
  unfold Criteria.weighted_sum, Criteria.platform_found,
    Criteria.two_platforms_found, Criteria.platforms_found.
  rewrite (size_list_to_set _ Hdup), length_map.
  unfold calculateCompleteness, Criteria.site_is_live, Criteria.mention_found,
    Criteria.opportunity_found, Criteria.contact_found, Criteria.weight,
    website_is_live, contact_emails, contact_phones, social_platforms.
  destruct (websiteData intel) as [[u st [[[[|e es]|] [[|p ps]|]]|] cs er]|];
    destruct (socialData intel) as [social|];
    destruct (newsData intel) as [news|];
    destruct (businessData intel) as [business|];
    cbn [WebsiteAnalyst.status WebsiteAnalyst.contactInfo WebsiteAnalyst.emails
           WebsiteAnalyst.phones JS.has_length orb length];
    repeat case_bool_decide;
    repeat match goal with
           | |- context [(?a <? ?b)%nat] => destruct (a <? b)%nat eqn:?
           | |- context [(?a <=? ?b)%nat] => destruct (a <=? b)%nat eqn:?
           | |- context [?a <? ?b] => destruct (a <? b) eqn:?
           | |- context [WebsiteAnalyst.is_live ?s] =>
               destruct (WebsiteAnalyst.is_live s)
           end;
    repeat match goal with
           | H : (_ <? _)%nat = true |- _ => apply Nat.ltb_lt in H
           | H : (_ <? _)%nat = false |- _ => apply Nat.ltb_ge in H
           | H : (_ <=? _)%nat = true |- _ => apply Nat.leb_le in H
           | H : (_ <=? _)%nat = false |- _ => apply Nat.leb_gt in H
           | H : (_ <? _) = true |- _ => apply Z.ltb_lt in H
           | H : (_ <? _) = false |- _ => apply Z.ltb_ge in H
           end;
    cbn [length] in *; lia.
Qed.

(** C1. For every record [executeResearch] returns, [completenessScore]
    is the sum of the six all-or-nothing weighted criteria: 30 for a
    live website, 20 for at least one social platform, 15 for at least
    one news mention, 15 for at least one opportunity, 10 for a contact
    email or phone, 10 for at least two distinct social platforms; and
    it lies between 0 and 100. *)
Theorem completeness_is_weighted_sum env jobId db db' intel :
  executeResearch env jobId db = (db', Returned intel) ->
  completenessScore intel = Criteria.weighted_sum intel
  /\ 0 <= completenessScore intel <= 100.
Proof.
  intros Hrun. apply executeResearch_fused in Hrun. unfold fused_by in Hrun.
  destruct Hrun as [(name & website_ & phone_ & location_ & Hsocial) [Hcomplete _]].
  assert (Hsum : completenessScore intel = Criteria.weighted_sum intel).
  { rewrite Hcomplete. apply calculateCompleteness_weighted_sum.
    unfold social_platforms. rewrite Hsocial. apply huntSocialProfiles_NoDup. }
  split; [exact Hsum|]. rewrite Hsum.
  unfold Criteria.weighted_sum, Criteria.weight.
  destruct (Criteria.site_is_live intel), (Criteria.platform_found intel),
    (Criteria.mention_found intel), (Criteria.opportunity_found intel),
    (Criteria.contact_found intel), (Criteria.two_platforms_found intel); lia.
Qed.

Lemma completeness_is_weighted_sum_witness :
  exists intel,
    (executeResearch Samples.env_ok "j1" Samples.db_job).2 = Returned intel
    /\ completenessScore intel = Criteria.weighted_sum intel
    /\ completenessScore intel = 85.
Proof.
  destruct (executeResearch Samples.env_ok "j1" Samples.db_job) as [db' r] eqn:Hrun.
  assert (Hr : exists intel, r = Returned intel /\ completenessScore intel = 85).
  { replace r with (executeResearch Samples.env_ok "j1" Samples.db_job).2
      by (rewrite Hrun; reflexivity).
    eexists. split; vm_compute; reflexivity. }
  destruct Hr as (intel & -> & H85).
  exists intel. split; [reflexivity|]. split; [|exact H85].
  apply (completeness_is_weighted_sum Samples.env_ok "j1" Samples.db_job db' intel).
  exact Hrun.
Defined.

Lemma Math_round_comp (x y : Q) : (x == y)%Q -> JS.Math_round x = JS.Math_round y.
Proof. intros H. unfold JS.Math_round. now rewrite H. Qed.

Lemma or_num_length (n : nat) :
  (JS.or_num (inject_Z (Z.of_nat (S n))) 1 == inject_Z (Z.of_nat (S n)))%Q.
Proof. reflexivity. Qed.

Lemma calculateConfidence_formula intel :
  calculateConfidence intel = Criteria.confidence_formula intel.
Proof.
  unfold calculateConfidence, Criteria.confidence_formula,
    Criteria.website_confidence, Criteria.social_confidence, social_platforms.
  apply Math_round_comp.
  assert (Hweb : (JS.or_null (WebsiteAnalyst.confidenceScore <$> websiteData intel) 0
                  == match websiteData intel with
                     | Some w => WebsiteAnalyst.confidenceScore w
                     | None => 0
                     end)%Q).
  { destruct (websiteData intel); cbn [fmap option_fmap option_map JS.or_null];
      [apply or_num_zero | reflexivity]. }
  rewrite Hweb. apply Qplus_comp; [|reflexivity].
  apply Qplus_comp; [reflexivity|].
  destruct (socialData intel) as [social|];
    cbn [fmap option_fmap option_map JS.or_null]; [|reflexivity].
  destruct (SocialHunter.platforms social) as [|p ps]; [reflexivity|].
  unfold mean. rewrite length_map. cbn [length].
  rewrite or_num_zero, or_num_length.
  rewrite (fold_left_sum _ SocialHunter.confidenceScore), Qplus_0_l.
  reflexivity.
Qed.

Lemma mean_constant (c : Q) (xs : list Q) :
  xs <> [] -> Forall (fun x => x == c)%Q xs -> (mean xs == c)%Q.
Proof.
  intros Hne Hall. unfold mean.
  assert (Hsum : (fold_right Qplus 0 xs == c * inject_Z (Z.of_nat (length xs)))%Q).
  { clear Hne. induction Hall as [|x xs Hx _ IH]; cbn [fold_right length].
    - change (inject_Z (Z.of_nat 0)) with 0%Q. ring.
    - rewrite IH, Hx, Nat2Z.inj_succ, <- Z.add_1_r, inject_Z_plus.
      change (inject_Z 1) with 1%Q. ring. }
  rewrite Hsum. apply Qdiv_mult_l.
  destruct xs as [|x xs]; [congruence|]. intros H. discriminate H.
Qed.

(** C4. The confidence score of every fused record is
    [round(websiteConfidence / 2 + (mean social confidence) / 4 + 25)],
    the social term being 0 without platforms. It is not clamped: a
    website confidence of 100 with platforms all at 100 gives exactly
    100, and a website confidence above its documented range gives a
    score above 100. *)
Theorem confidence_is_formula :
  (forall env jobId db db' intel,
      executeResearch env jobId db = (db', Returned intel) ->
      confidenceScore intel = Criteria.confidence_formula intel)
  /\ (forall intel,
        (Criteria.website_confidence intel == 100)%Q ->
        social_platforms intel <> [] ->
        Forall (fun p => SocialHunter.confidenceScore p == 100)%Q
          (social_platforms intel) ->
        calculateConfidence intel = 100)
  /\ (exists intel,
        (executeResearch Samples.env_overrated "j1" Samples.db_job).2
        = Returned intel
        /\ (200 <= Criteria.website_confidence intel)%Q
        /\ 100 < confidenceScore intel).
Proof.
  split; [|split].
  - intros env jobId db db' intel Hrun.
    apply executeResearch_fused in Hrun. unfold fused_by in Hrun.
    destruct Hrun as [_ [_ [Hconf _]]].
    rewrite Hconf. apply calculateConfidence_formula.
  - intros intel Hweb Hne Hall.
    rewrite calculateConfidence_formula. unfold Criteria.confidence_formula.
    assert (Hsocial : (Criteria.social_confidence intel == 100)%Q).
    { unfold Criteria.social_confidence.
      destruct (social_platforms intel) as [|p ps] eqn:Hps; [congruence|].
      apply mean_constant; [discriminate|].
      apply Forall_fmap. exact Hall. }
    rewrite (Math_round_comp _ 100); [reflexivity|].
    rewrite Hweb, Hsocial. reflexivity.
  - eexists. split; [vm_compute; reflexivity|].
    split; [vm_compute; discriminate | vm_compute; reflexivity].
Qed.

Lemma confidence_is_formula_witness :
  exists intel,
    (executeResearch Samples.env_ok "j1" Samples.db_job).2 = Returned intel
    /\ confidenceScore intel = Criteria.confidence_formula intel
    /\ confidenceScore intel = 90.
Proof.
  destruct (executeResearch Samples.env_ok "j1" Samples.db_job) as [db' r] eqn:Hrun.
  assert (Hr : exists intel, r = Returned intel /\ confidenceScore intel = 90).
  { replace r with (executeResearch Samples.env_ok "j1" Samples.db_job).2
      by (rewrite Hrun; reflexivity).
    eexists. split; vm_compute; reflexivity. }
  destruct Hr as (intel & -> & H90).
  exists intel. split; [reflexivity|]. split; [|exact H90].
  destruct confidence_is_formula as (Hformula & _).
  apply (Hformula Samples.env_ok "j1" Samples.db_job db' intel). exact Hrun.
Defined.

End FuserFacts.

(** ** Failure and completion of a run *)

Module RunFacts.
Import Orchestrator.

Lemma wp_researchJob_update env site id data (Q : Db -> Result unit -> Prop) db j :
  researchJob db !! id = Some j ->
  (forall e, dbFault env site = Some e -> Q db (Thrown e)) ->
  (dbFault env site = None ->
   Q (set_researchJob (insert id (data j)) db) (Returned tt)) ->
  wp (researchJob_update env site id data) Q db.
Proof.
  intros Hj Hfault Hok. unfold researchJob_update.
  apply wp_prisma_call; [exact Hfault|]. intros Hnone.
  unfold wp. rewrite Hj. apply Hok, Hnone.
Qed.

Lemma wp_company_update env site id data (Q : Db -> Result unit -> Prop) db c :
  company db !! id = Some c ->
  (forall e, dbFault env site = Some e -> Q db (Thrown e)) ->
  (dbFault env site = None ->
   Q (set_company (insert id (data c)) db) (Returned tt)) ->
  wp (company_update env site id data) Q db.
Proof.
  intros Hc Hfault Hok. unfold company_update.
  apply wp_prisma_call; [exact Hfault|]. intros Hnone.
  unfold wp. rewrite Hc. apply Hok, Hnone.
Qed.

Lemma updateJobProgress_tables env db0 jobId job p f db :
  tables_ok db0 jobId job db ->
  wp (updateJobProgress env jobId p f)
    (fun db1 r => r = Returned tt /\ tables_ok db0 jobId job db1) db.
Proof.
  intros (Hjob & Hcomp & Hres). unfold updateJobProgress.
  apply wp_try_catch. destruct Hjob as [j Hj].
  eapply wp_researchJob_update; [exact Hj | |].
  - intros e _. apply wp_ret. split; [reflexivity|].
    split; [eauto|]. split; assumption.
  - intros _. split; [reflexivity|]. split; [|split; assumption].
    cbn. rewrite lookup_insert_eq. eauto.
Qed.

Ltac step_progress :=
  apply wp_bind; eapply wp_mono;
  [apply updateJobProgress_tables; eassumption|];
  let db := fresh "db" in let r := fresh "r" in let H := fresh "Htab" in
  intros db r [-> H].

Ltac thrown_in_stage :=
  match goal with
  | H : tables_ok _ _ _ ?d |- try_outcome _ _ _ _ _ ?d (Thrown _) =>
      destruct H as (? & ? & ?);
      split; [assumption|]; split; [assumption|];
      left; split; [|assumption]
  end.

Lemma website_stage env comp intel0 d
    (Q : Db -> Result (option WebsiteAnalysisResult) -> Prop) :
  (forall w, Q d (Returned w)) ->
  (forall e, stage_rejects env comp e -> Q d (Thrown e)) ->
  wp (if JS.truthy_string (website comp)
      then let* r := await (analyzeWebsite env (default "" (website comp))
                              (companyName comp)) in
           ret (Some r)
      else ret (websiteData intel0)) Q d.
Proof.
  intros Hret Hthrow. destruct (JS.truthy_string (website comp)).
  - apply wp_bind, wp_await; [intros w _; apply wp_ret, Hret|].
    intros e He. apply Hthrow. left. eauto.
  - apply wp_ret, Hret.
Qed.

Lemma executeResearch_try_outcome env db0 jobId job comp intel0 db :
  tables_ok db0 jobId job db ->
  wp (executeResearch_try env jobId (job_companyId job) comp intel0)
    (try_outcome env db0 jobId job comp) db.
Proof.
  intros Htab0. unfold executeResearch_try.
  step_progress.
  apply wp_bind, website_stage;
    [intros websiteData_ | intros e He; thrown_in_stage; now left].
  do 4 step_progress.
  apply wp_bind, wp_await;
    [intros newsData_ _ | intros e He; thrown_in_stage; left; right; now left].
  do 2 step_progress.
  apply wp_bind, wp_await;
    [intros businessData_ _
    | intros e He; thrown_in_stage; left; right; right; eauto].
  step_progress.
  apply wp_bind, wp_prisma_call; [intros e He; thrown_in_stage; now right|].
  intros _. apply wp_modify.
  destruct Htab7 as ([j Hj] & [c Hc] & Hres).
  match goal with
  | |- wp _ _ (set_researchResult _ ?d) => rename d into db_last
  end.
  match goal with
  | |- context [upsert_row _ ?i _] => set (intel := i)
  end.
  assert (Hfused : fused_by env intel).
  { unfold fused_by. split; [do 4 eexists; reflexivity|]. repeat split; eauto. }
  set (db_up := set_researchResult _ db_last).
  assert (Hpersisted : forall d, researchResult d = researchResult db_up ->
                                 result_persisted env db0 job intel d).
  { intros d Hd. split; [exact Hfused|]. rewrite Hd. subst db_up. cbn.
    rewrite Hres. reflexivity. }
  apply wp_bind.
  eapply (wp_researchJob_update _ _ _ _ _ db_up j); [exact Hj | |].
  { intros e He. split; [eauto|]. split; [eauto|].
    right. split; [now left|]. exists intel. now apply Hpersisted. }
  intros _. apply wp_bind.
  eapply (wp_company_update _ _ _ _ _ _ c); [exact Hc | |].
  { intros e He. split; [cbn; rewrite lookup_insert_eq; eauto|].
    split; [eauto|].
    right. split; [now right|]. exists intel. now apply Hpersisted. }
  intros _. apply wp_ret. unfold try_outcome, run_completed. cbn.
  rewrite !lookup_insert_eq. split; [reflexivity|]. split; [reflexivity|].
  now apply Hpersisted.
Qed.

Lemma executeResearch_outcome env jobId db job comp :
  researchJob db !! jobId = Some job ->
  company db !! job_companyId job = Some comp ->
  enters_stages env ->
  failure_marking_ok env ->
  wp (executeResearch env jobId)
    (fun db' r =>
       match r with
       | Returned intel => run_completed env db jobId job intel db'
       | Thrown e => run_failed env db jobId job comp e db'
       end) db.
Proof.
  intros Hjob Hcomp (Hfind & Hrunning & Hresearching) (Hjf & Hcf).
  unfold executeResearch.
  apply wp_bind, wp_prisma_call; [congruence|intros _].
  unfold wp at 1. cbn [fst snd]. rewrite Hjob.
  apply wp_bind. unfold wp at 1. cbn [fst snd]. rewrite Hcomp.
  apply wp_bind.
  eapply wp_researchJob_update; [exact Hjob | congruence | intros _].
  apply wp_bind.
  eapply wp_company_update; [exact Hcomp | congruence | intros _].
  apply wp_try_catch.
  eapply wp_mono.
  { apply (executeResearch_try_outcome env db jobId job comp).
    split; [cbn; rewrite lookup_insert_eq; eauto|].
    split; [cbn; rewrite lookup_insert_eq; eauto|]. reflexivity. }
  intros db1 [intel|e] Hout; [exact Hout|].
  destruct Hout as ([j Hj] & [c Hc] & Hres).
  apply wp_bind.
  eapply wp_researchJob_update; [exact Hj | congruence | intros _].
  apply wp_bind.
  eapply wp_company_update; [exact Hc | congruence | intros _].
  apply wp_throw. unfold run_failed. cbn. rewrite !lookup_insert_eq.
  split; [reflexivity|]. split; [reflexivity|]. split; [reflexivity|].
  destruct Hres as [[Horigin Hsame] | [Horigin [intel [Hfused Hrow]]]].
  - left. split; assumption.
  - right. split; [assumption|]. exists intel. split; assumption.
Qed.

(** C7, as stated, fails when the write that marks the job Running
    throws: the exception escapes a persistence step of the run, and the
    job and the subject stay Queued. *)
Lemma failure_before_stages_marks_nothing :
  let run :=
    executeResearch (Samples.env_fault executeResearch_jobRunning "connection lost")
      "j1" Samples.db_job in
  run.2 = Thrown "connection lost"
  /\ job_status <$> researchJob run.1 !! "j1" = Some JobStatus.QUEUED
  /\ job_errorMessage <$> researchJob run.1 !! "j1" = Some None
  /\ company_status <$> company run.1 !! "c1" = Some CompanyStatus.QUEUED.
Proof. cbv zeta. repeat split; vm_compute; reflexivity. Qed.

(** When it is the write that marks the subject Researching that
    throws, the job is left Running and nothing is marked Failed. *)
Example failure_marking_subject_leaves_running :
  let run :=
    executeResearch
      (Samples.env_fault executeResearch_companyResearching "connection lost")
      "j1" Samples.db_job in
  run.2 = Thrown "connection lost"
  /\ job_status <$> researchJob run.1 !! "j1" = Some JobStatus.RUNNING
  /\ job_errorMessage <$> researchJob run.1 !! "j1" = Some None
  /\ company_status <$> company run.1 !! "c1" = Some CompanyStatus.QUEUED.
Proof. cbv zeta. repeat split; vm_compute; reflexivity. Qed.

(** C7, amended. Take a run of [executeResearch] that has loaded the
    job and its subject and marked them Running. If an exception escapes
    a stage or a persistence step of the guarded stage sequence and the
    two writes that mark the failure go through, the job is marked
    Failed with the message of that exception, the subject is marked
    Failed and the same exception is thrown to the caller; the
    intelligence table is as it was, unless the exception came from a
    write after the upsert, in which case it holds the record fused from
    all stages. If all stages and writes complete, exactly one
    intelligence record is upserted and job and subject are marked
    Completed. An exception raised before the guarded sequence goes to
    the caller and nothing is marked Failed: when the job is not found or
    the write that marks it Running throws, the store is as it was; when
    the write that marks the subject Researching throws, the job is left
    Running with its start time and the subject is as it was. *)
Theorem guarded_run_outcome env jobId db :
  (forall job comp,
      researchJob db !! jobId = Some job ->
      company db !! job_companyId job = Some comp ->
      enters_stages env ->
      failure_marking_ok env ->
      match (executeResearch env jobId db).2 with
      | Returned intel =>
          run_completed env db jobId job intel (executeResearch env jobId db).1
      | Thrown e =>
          run_failed env db jobId job comp e (executeResearch env jobId db).1
      end)
  /\ (forall job e,
        dbFault env executeResearch_findUnique = None ->
        researchJob db !! jobId = Some job ->
        dbFault env executeResearch_jobRunning = Some e ->
        executeResearch env jobId db = (db, Thrown e))
  /\ (dbFault env executeResearch_findUnique = None ->
      researchJob db !! jobId = None ->
      executeResearch env jobId db = (db, Thrown ("Job not found: " ++ jobId)%string))
  /\ (forall job comp e,
        dbFault env executeResearch_findUnique = None ->
        researchJob db !! jobId = Some job ->
        company db !! job_companyId job = Some comp ->
        dbFault env executeResearch_jobRunning = None ->
        dbFault env executeResearch_companyResearching = Some e ->
        executeResearch env jobId db
        = (set_researchJob
             (insert jobId
                (set_startedAt (Some (now env clock_startedAt))
                   (set_job_status JobStatus.RUNNING job))) db,
           Thrown e)).
Proof.
  split; [|split; [|split]].
  - intros job comp Hjob Hcomp Henter Hmark.
    exact (executeResearch_outcome env jobId db job comp Hjob Hcomp Henter Hmark).
  - intros job e Hfind Hjob Hrunning.
    unfold executeResearch, bind, researchJob_update.
    rewrite (prisma_call_ok _ _ _ Hfind), Hjob.
    rewrite (prisma_call_fault _ _ e _ Hrunning). reflexivity.
  - intros Hfind Hjob.
    unfold executeResearch, bind.
    rewrite (prisma_call_ok _ _ _ Hfind), Hjob. reflexivity.
  - intros job comp e Hfind Hjob Hcomp Hrunning Hresearching.
    unfold executeResearch, bind, researchJob_update, company_update.
    rewrite (prisma_call_ok _ _ _ Hfind), Hjob, Hcomp.
    rewrite (prisma_call_ok _ _ _ Hrunning), Hjob.
    rewrite (prisma_call_fault _ _ e _ Hresearching). reflexivity.
Qed.

Lemma guarded_run_outcome_witness :
  match (executeResearch (Samples.env_fault executeResearch_upsert "disk full")
           "j1" Samples.db_job).2 with
  | Returned intel =>
      run_completed (Samples.env_fault executeResearch_upsert "disk full")
        Samples.db_job "j1" Samples.job_queued intel
        (executeResearch (Samples.env_fault executeResearch_upsert "disk full")
           "j1" Samples.db_job).1
  | Thrown e =>
      run_failed (Samples.env_fault executeResearch_upsert "disk full")
        Samples.db_job "j1" Samples.job_queued Samples.acme e
        (executeResearch (Samples.env_fault executeResearch_upsert "disk full")
           "j1" Samples.db_job).1
  end.
Proof.
  apply (guarded_run_outcome (Samples.env_fault executeResearch_upsert "disk full")
           "j1" Samples.db_job).
  - reflexivity.
  - reflexivity.
  - repeat split; reflexivity.
  - repeat split; reflexivity.
Defined.

End RunFacts.

(** ** Cancelling a job *)

Module CancelFacts.
Import ResearchRoutes.

Lemma cancel_cancellable env userId id db job comp :
  researchJob db !! id = Some job ->
  job_userId job = userId ->
  company db !! job_companyId job = Some comp ->
  cancel_sites_ok env ->
  cancellable (job_status job) = true ->
  cancel env userId id db
  = (set_company
       (insert (job_companyId job) (set_company_status CompanyStatus.PENDING comp))
       (set_researchJob (insert id (set_job_status JobStatus.CANCELLED job)) db),
     Returned {| statusCode := 200; body := success_true |}).
Proof.
  intros Hjob Huser Hcomp (Hfind & Hju & Hcu) Hcan.
  unfold cancel, try_catch, bind.
  rewrite (prisma_call_ok _ _ _ Hfind), Hjob, Huser, String.eqb_refl, Hcan.
  cbn [negb]. unfold researchJob_update, company_update.
  rewrite (prisma_call_ok _ _ _ Hju), Hjob.
  rewrite (prisma_call_ok _ _ _ Hcu). cbn [company set_researchJob].
  rewrite Hcomp. reflexivity.
Qed.

Lemma cancel_terminal env userId id db job :
  researchJob db !! id = Some job ->
  job_userId job = userId ->
  dbFault env cancel_findFirst = None ->
  cancellable (job_status job) = false ->
  cancel env userId id db
  = (db, Returned {| statusCode := 400;
                     body := error_body "Job cannot be cancelled" |}).
Proof.
  intros Hjob Huser Hfind Hcan.
  unfold cancel, try_catch, bind.
  rewrite (prisma_call_ok _ _ _ Hfind), Hjob, Huser, String.eqb_refl, Hcan.
  reflexivity.
Qed.

(** C6. For a job of the requesting user whose subject exists, the
    cancel operation succeeds if and only if the status of the job is
    Pending, Queued or Running; on success the job becomes Cancelled and
    the mirrored status of the subject goes back to Pending; on a job
    that is Completed, Failed or Cancelled it is rejected with an error
    and neither the job nor the subject changes. *)
Theorem cancel_by_status env userId id db job comp :
  researchJob db !! id = Some job ->
  job_userId job = userId ->
  company db !! job_companyId job = Some comp ->
  cancel_sites_ok env ->
  exists response,
    (cancel env userId id db).2 = Returned response
    /\ (body response = success_true
        <-> job_status job = JobStatus.PENDING
            \/ job_status job = JobStatus.QUEUED
            \/ job_status job = JobStatus.RUNNING)
    /\ (body response = success_true ->
        statusCode response = 200
        /\ researchJob (cancel env userId id db).1
           = <[id := set_job_status JobStatus.CANCELLED job]> (researchJob db)
        /\ company (cancel env userId id db).1
           = <[job_companyId job := set_company_status CompanyStatus.PENDING comp]>
               (company db))
    /\ (job_status job = JobStatus.COMPLETED
        \/ job_status job = JobStatus.FAILED
        \/ job_status job = JobStatus.CANCELLED ->
        response = {| statusCode := 400;
                      body := error_body "Job cannot be cancelled" |}
        /\ (cancel env userId id db).1 = db).
Proof.
  intros Hjob Huser Hcomp Hok.
  destruct (cancellable (job_status job)) eqn:Hcan.
  - rewrite (cancel_cancellable env userId id db job comp Hjob Huser Hcomp Hok Hcan).
    eexists. split; [reflexivity|]. cbn [body statusCode fst].
    split; [|split].
    + split; [intros _ | reflexivity].
      destruct (job_status job); try discriminate Hcan; auto.
    + intros _. repeat split.
    + intros [H | [H | H]]; rewrite H in Hcan; discriminate Hcan.
  - destruct Hok as (Hfind & _).
    rewrite (cancel_terminal env userId id db job Hjob Huser Hfind Hcan).
    eexists. split; [reflexivity|]. cbn [body statusCode fst].
    split; [|split].
    + split; [discriminate|].
      intros [H | [H | H]]; rewrite H in Hcan; discriminate Hcan.
    + discriminate.
    + intros _. split; reflexivity.
Qed.

Lemma cancel_by_status_witness :
  exists response,
    (cancel Samples.env_ok "u1" "j1" (Samples.db_job_in JobStatus.RUNNING)).2
    = Returned response
    /\ body response = success_true
    /\ job_status
         <$> researchJob
               (cancel Samples.env_ok "u1" "j1"
                  (Samples.db_job_in JobStatus.RUNNING)).1 !! "j1"
       = Some JobStatus.CANCELLED
    /\ company_status
         <$> company
               (cancel Samples.env_ok "u1" "j1"
                  (Samples.db_job_in JobStatus.RUNNING)).1 !! "c1"
       = Some CompanyStatus.PENDING.
Proof.
  destruct (cancel_by_status Samples.env_ok "u1" "j1"
              (Samples.db_job_in JobStatus.RUNNING)
              (set_job_status JobStatus.RUNNING Samples.job_queued)
              (set_company_status CompanyStatus.RESEARCHING Samples.acme))
    as (response & Hresp & Hiff & Hsucc & _).
  - reflexivity.
  - reflexivity.
  - reflexivity.
  - repeat split; reflexivity.
  - exists response. split; [exact Hresp|].
    assert (Hbody : body response = success_true)
      by (apply Hiff; right; right; reflexivity).
    split; [exact Hbody|].
    destruct (Hsucc Hbody) as (_ & Hjobs & Hcomps).
    rewrite Hjobs, Hcomps. split; reflexivity.
Defined.

End CancelFacts.

(** ** Data gaps *)

Module GapFacts.
Import Orchestrator.

Ltac sublist_of_fixed :=
  repeat first [apply sublist_nil | apply sublist_skip | apply sublist_cons].

(** X1. The gaps [identifyDataGaps] reports are drawn from its five
    descriptions, in the order of its tests: there are at most five of
    them and none is reported twice. *)
Theorem identifyDataGaps_order_stable intel :
  identifyDataGaps intel `sublist_of` all_gaps
  /\ NoDup (identifyDataGaps intel)
  /\ (length (identifyDataGaps intel) <= 5)%nat.
Proof.
  assert (Hsub : identifyDataGaps intel `sublist_of` all_gaps).
  { unfold identifyDataGaps, all_gaps.
    repeat match goal with
           | |- context [if ?c then _ else _] => destruct c
           end; cbn [app]; sublist_of_fixed. }
  split; [exact Hsub|]. split.
  - eapply sublist_NoDup; [|exact Hsub].
    apply (bool_decide_unpack _). vm_compute. exact I.
  - apply sublist_length in Hsub. exact Hsub.
Qed.

Lemma social_gap_cases intel :
  match socialData intel with
  | Some social => (length (SocialHunter.platforms social) =? 0)%nat
  | None => true
  end = true ->
  social_platforms intel = [].
Proof.
  unfold social_platforms. destruct (socialData intel) as [social|]; [|reflexivity].
  destruct (SocialHunter.platforms social); [reflexivity | discriminate].
Qed.

(** X2. Whenever the gap "No social profiles found" is reported, the
    gap "LinkedIn profile not found" is reported with it. *)
Theorem no_social_gap_brings_linkedin_gap intel :
  In "No social profiles found" (identifyDataGaps intel) ->
  In "LinkedIn profile not found" (identifyDataGaps intel).
Proof.
  unfold identifyDataGaps.
  destruct (match socialData intel with
            | Some social => (length (SocialHunter.platforms social) =? 0)%nat
            | None => true
            end) eqn:Hsocial.
  - rewrite (social_gap_cases intel Hsocial). cbn [existsb negb].
    intros _.
    repeat match goal with
           | |- context [if ?c then _ else _] => destruct c
           end; cbn; tauto.
  - intros Hin. exfalso. revert Hin.
    repeat match goal with
           | |- context [if ?c then _ else _] => destruct c
           end; cbn; intuition discriminate.
Qed.

Lemma no_social_gap_brings_linkedin_gap_witness :
  In "LinkedIn profile not found" (identifyDataGaps MoreSamples.intel_blank).
Proof.
  apply (no_social_gap_brings_linkedin_gap MoreSamples.intel_blank).
  vm_compute. tauto.
Defined.

Ltac bool_facts :=
  repeat match goal with
         | H : negb _ = true |- _ => apply negb_true_iff in H
         | H : negb _ = false |- _ => apply negb_false_iff in H
         | H : (_ <? _)%nat = true |- _ => apply Nat.ltb_lt in H
         | H : (_ <? _)%nat = false |- _ => apply Nat.ltb_ge in H
         | H : (_ <=? _)%nat = true |- _ => apply Nat.leb_le in H
         | H : (_ <=? _)%nat = false |- _ => apply Nat.leb_gt in H
         | H : (_ =? _)%nat = true |- _ => apply Nat.eqb_eq in H
         | H : (_ =? _)%nat = false |- _ => apply Nat.eqb_neq in H
         | H : (_ <? _) = true |- _ => apply Z.ltb_lt in H
         | H : (_ <? _) = false |- _ => apply Z.ltb_ge in H
         | H : (_ =? _) = true |- _ => apply Z.eqb_eq in H
         | H : (_ =? _) = false |- _ => apply Z.eqb_neq in H
         | H : orb _ _ = true |- _ => apply orb_true_iff in H
         | H : orb _ _ = false |- _ => apply orb_false_iff in H; destruct H
         end.

(** Without gaps, four criteria of the completeness score are met. *)
Lemma no_gaps_criteria intel :
  mentions_counted intel ->
  identifyDataGaps intel = [] ->
  website_is_live intel = true
  /\ JS.has_length (contact_emails intel) = true
  /\ (exists social, socialData intel = Some social
                     /\ (0 < length (SocialHunter.platforms social))%nat)
  /\ (exists news, newsData intel = Some news
                   /\ 0 < NewsAggregator.totalMentions news).
Proof.
  unfold mentions_counted, identifyDataGaps. intros Hcount Hgaps.
  repeat case_match; simplify_eq; try (destruct_and?; discriminate);
    try (apply app_eq_nil in Hgaps; destruct Hgaps; discriminate);
    bool_facts; repeat split; eauto; try (eexists; split; [eauto|lia]).
Qed.

(** X3. Gaps and completeness agree: a record without gaps has a
    completeness score of at least 75. *)
Theorem no_gaps_completeness intel :
  mentions_counted intel ->
  identifyDataGaps intel = [] ->
  75 <= calculateCompleteness intel.
Proof.
  intros Hcount Hgaps.
  destruct (no_gaps_criteria intel Hcount Hgaps)
    as (Hlive & Hemail & (social & Hsocial & Hplatforms) & (news & Hnews & Hmentions)).
  unfold calculateCompleteness. rewrite Hlive, Hemail, Hsocial, Hnews.
  cbn [orb].
  apply Nat.ltb_lt in Hplatforms. rewrite Hplatforms.
  apply Z.ltb_lt in Hmentions. rewrite Hmentions.
  repeat case_match; lia.
Qed.

Lemma no_gaps_completeness_witness :
  75 <= calculateCompleteness MoreSamples.intel_covered.
Proof.
  apply no_gaps_completeness.
  - vm_compute. discriminate.
  - vm_compute. reflexivity.
Defined.

End GapFacts.

(** ** What a run changes *)

Module FrameFacts.
Import Orchestrator.

(** X4. A progress update never throws and changes nothing but the
    job it names: when its write fails or the job does not exist the
    store is as it was; otherwise the job gets the progress value, the
    time read for this update and, of the six stage columns, those the
    update names, and keeps every other column: its status, its subject,
    owner and priority, its start and completion times, its error message
    and the stage columns the update does not name. *)
Theorem updateJobProgress_contained env jobId p u db :
  (updateJobProgress env jobId p u db).2 = Returned tt
  /\ (dbFault env (updateJobProgress_update p) <> None
      \/ researchJob db !! jobId = None ->
      (updateJobProgress env jobId p u db).1 = db)
  /\ (forall j,
        dbFault env (updateJobProgress_update p) = None ->
        researchJob db !! jobId = Some j ->
        exists j',
          (updateJobProgress env jobId p u db).1
          = set_researchJob (insert jobId j') db
          /\ j' = set_job_updatedAt (now env (clock_progress p))
                    (apply_agentUpdates u (set_job_progress p j))
          /\ job_status j' = job_status j
          /\ job_companyId j' = job_companyId j
          /\ job_userId j' = job_userId j
          /\ job_priority j' = job_priority j
          /\ startedAt j' = startedAt j
          /\ completedAt j' = completedAt j
          /\ job_errorMessage j' = job_errorMessage j
          /\ job_progress j' = p
          /\ job_updatedAt j' = now env (clock_progress p)
          /\ websiteAnalysis j' = default (websiteAnalysis j) (upd_websiteAnalysis u)
          /\ socialMediaHunt j' = default (socialMediaHunt j) (upd_socialMediaHunt u)
          /\ ownerInvestigation j'
             = default (ownerInvestigation j) (upd_ownerInvestigation u)
          /\ competitorMapping j'
             = default (competitorMapping j) (upd_competitorMapping u)
          /\ newsAggregation j' = default (newsAggregation j) (upd_newsAggregation u)
          /\ businessAnalysis j'
             = default (businessAnalysis j) (upd_businessAnalysis u)).
Proof.
  unfold updateJobProgress, try_catch, researchJob_update, prisma_call.
  destruct (dbFault env (updateJobProgress_update p)) as [e|];
    destruct (researchJob db !! jobId) as [j|] eqn:Hj;
    cbn [fst snd ret]; (split; [reflexivity|]); split;
    try (intros [H | H]; congruence); try congruence; try reflexivity.
  intros j1 _ Hj1. injection Hj1 as <-.
  eexists. split; [reflexivity|]. repeat split.
Qed.

Lemma run_frame_refl jobId j0 db :
  researchJob db !! jobId = Some j0 -> run_frame jobId j0 db db.
Proof.
  intros Hj. repeat split; try reflexivity.
  exists j0. split; [exact Hj|]. repeat split; now left.
Qed.

Lemma run_frame_job jobId j0 db0 db (data : ResearchJob -> ResearchJob) :
  run_frame jobId j0 db0 db ->
  (forall j, job_advanced j0 j -> job_advanced j0 (data j)) ->
  forall j, researchJob db !! jobId = Some j ->
  run_frame jobId j0 db0 (set_researchJob (insert jobId (data j)) db).
Proof.
  intros (Hjobs & Hcomp & Hres & Hattr & (j' & Hj' & Hadv)) Hdata j Hj.
  assert (j' = j) by congruence. subst j'.
  repeat split; cbn; try assumption.
  - intros id Hne. rewrite lookup_insert_ne by congruence. now apply Hjobs.
  - exists (data j). split; [apply lookup_insert_eq | now apply Hdata].
Qed.

Lemma run_frame_company jobId j0 db0 db status c :
  run_frame jobId j0 db0 db ->
  company db !! job_companyId j0 = Some c ->
  run_frame jobId j0 db0
    (set_company (insert (job_companyId j0) (set_company_status status c)) db).
Proof.
  intros (Hjobs & Hcomp & Hres & Hattr & Hjob) Hc.
  repeat split; cbn; try assumption.
  - intros c' Hne. rewrite lookup_insert_ne by congruence. now apply Hcomp.
  - rewrite lookup_insert_eq. rewrite <- Hattr, Hc. reflexivity.
Qed.

Lemma run_frame_result jobId j0 db0 db f :
  run_frame jobId j0 db0 db ->
  (forall (table : gmap string ResearchResult) c,
      c <> job_companyId j0 -> f table !! c = table !! c) ->
  run_frame jobId j0 db0 (set_researchResult f db).
Proof.
  intros (Hjobs & Hcomp & Hres & Hattr & Hjob) Hf.
  repeat split; cbn; try assumption.
  intros c' Hne. rewrite Hf by exact Hne. now apply Hres.
Qed.

Lemma wp_job_frame env site jobId j0 db0 data db :
  run_frame jobId j0 db0 db ->
  (forall j, job_advanced j0 j -> job_advanced j0 (data j)) ->
  wp (researchJob_update env site jobId data)
    (fun db1 _ => run_frame jobId j0 db0 db1) db.
Proof.
  intros Hframe Hdata. unfold researchJob_update.
  apply wp_prisma_call; [intros; exact Hframe|]. intros _. unfold wp.
  destruct (researchJob db !! jobId) as [j|] eqn:Hj; [|exact Hframe].
  now apply run_frame_job.
Qed.

Lemma wp_company_frame env site jobId j0 db0 status db :
  run_frame jobId j0 db0 db ->
  wp (company_update env site (job_companyId j0) (set_company_status status))
    (fun db1 _ => run_frame jobId j0 db0 db1) db.
Proof.
  intros Hframe. unfold company_update.
  apply wp_prisma_call; [intros; exact Hframe|]. intros _. unfold wp.
  destruct (company db !! job_companyId j0) as [c|] eqn:Hc; [|exact Hframe].
  now apply run_frame_company.
Qed.

Lemma job_advanced_same j0 j j' :
  job_identity j' = job_identity j ->
  websiteAnalysis j' = websiteAnalysis j ->
  socialMediaHunt j' = socialMediaHunt j ->
  newsAggregation j' = newsAggregation j ->
  businessAnalysis j' = businessAnalysis j ->
  job_advanced j0 j -> job_advanced j0 j'.
Proof.
  intros Hid Hw Hs Hn Hb (Hid0 & Hw0 & Hs0 & Hn0 & Hb0).
  unfold job_advanced. rewrite Hid, Hw, Hs, Hn, Hb. repeat split; assumption.
Qed.

Lemma stage_moved_trans a b c : stage_moved a b -> stage_moved b c -> stage_moved a c.
Proof.
  unfold stage_moved. intros [-> | [-> | ->]] [-> | [-> | ->]]; auto.
Qed.

Lemma job_advanced_stage j0 j j' :
  job_identity j' = job_identity j ->
  stage_moved (websiteAnalysis j) (websiteAnalysis j') ->
  stage_moved (socialMediaHunt j) (socialMediaHunt j') ->
  stage_moved (newsAggregation j) (newsAggregation j') ->
  stage_moved (businessAnalysis j) (businessAnalysis j') ->
  job_advanced j0 j -> job_advanced j0 j'.
Proof.
  intros Hid Hw Hs Hn Hb (Hid0 & Hw0 & Hs0 & Hn0 & Hb0).
  unfold job_advanced. rewrite Hid.
  repeat split; [assumption | | | |]; eapply stage_moved_trans; eassumption.
Qed.

Lemma wp_progress_frame env jobId j0 db0 p u db :
  run_frame jobId j0 db0 db ->
  (forall j, job_advanced j0 j -> job_advanced j0 (apply_agentUpdates u j)) ->
  wp (updateJobProgress env jobId p u)
    (fun db1 r => r = Returned tt /\ run_frame jobId j0 db0 db1) db.
Proof.
  intros Hframe Hf. unfold updateJobProgress. apply wp_try_catch.
  eapply wp_mono.
  - apply wp_job_frame; [exact Hframe|].
    intros j Hadv.
    apply (job_advanced_same j0 (apply_agentUpdates u (set_job_progress p j)));
      try reflexivity.
    apply Hf. apply (job_advanced_same j0 j); try reflexivity. exact Hadv.
  - intros db1 [[]|e] H1; [now split|]. apply wp_ret. now split.
Qed.

Ltac stage_setter :=
  let j := fresh "j" in
  intros j; apply (job_advanced_stage _ j); try reflexivity; cbn;
  unfold stage_moved; auto.

Ltac step_frame :=
  lazymatch goal with
  | |- wp (bind (updateJobProgress _ _ _ _) _) _ _ =>
      apply wp_bind; eapply wp_mono;
      [apply wp_progress_frame; [eassumption | stage_setter]|];
      let db := fresh "db" in let r := fresh "r" in let H := fresh "Hfr" in
      intros db r [-> H]
  | |- wp (bind (researchJob_update _ _ _ _) _) _ _ =>
      apply wp_bind; eapply wp_mono;
      [apply wp_job_frame; [eassumption | stage_setter]|];
      let db := fresh "db" in let H := fresh "Hfr" in
      intros db [[]|?] H; [|exact H]
  | |- wp (bind (company_update _ _ _ _) _) _ _ =>
      apply wp_bind; eapply wp_mono;
      [apply wp_company_frame; eassumption|];
      let db := fresh "db" in let H := fresh "Hfr" in
      intros db [[]|?] H; [|exact H]
  | |- wp (bind (await _) _) _ _ =>
      apply wp_bind; apply wp_await; [intros ? _ | intros ? _; eassumption]
  | |- wp (bind (prisma_call _ _ (modify _)) _) _ _ =>
      apply wp_bind; apply wp_prisma_call; [intros ? _; eassumption | intros _];
      apply wp_modify;
      match goal with
      | H : run_frame _ _ _ ?d |- wp _ _ (set_researchResult ?f ?d) =>
          apply (fun Hx => run_frame_result _ _ _ _ f Hx
                   (fun table c Hne => lookup_insert_ne table _ _ _ (not_eq_sym Hne)))
            in H
      end
  | |- wp (bind (bind _ _) _) _ _ => apply wp_bind
  | |- wp (bind (ret _) _) _ _ => apply wp_bind, wp_ret; cbv beta iota
  | |- wp (ret _) _ _ => apply wp_ret; cbv beta iota; try eassumption
  | |- wp (throw _) _ _ => apply wp_throw; eassumption
  end.

Lemma executeResearch_try_frame env jobId j0 comp intel db0 db :
  run_frame jobId j0 db0 db ->
  wp (executeResearch_try env jobId (job_companyId j0) comp intel)
    (fun db' _ => run_frame jobId j0 db0 db') db.
Proof.
  intros H0. unfold executeResearch_try.
  step_frame.
  destruct (JS.truthy_string (website comp)); repeat step_frame.
Qed.

Lemma executeResearch_frame env jobId db j0 :
  researchJob db !! jobId = Some j0 ->
  wp (executeResearch env jobId) (fun db' _ => run_frame jobId j0 db db') db.
Proof.
  intros Hj. pose proof (run_frame_refl jobId j0 db Hj) as H0.
  unfold executeResearch.
  apply wp_bind, wp_prisma_call; [intros ? _; exact H0 | intros _].
  unfold wp at 1. cbn [fst snd]. rewrite Hj.
  apply wp_bind. unfold wp at 1. cbn [fst snd].
  step_frame.
  destruct (company db !! job_companyId j0) as [comp|]; [|step_frame].
  step_frame.
  apply wp_try_catch.
  eapply wp_mono; [apply executeResearch_try_frame; eassumption|].
  intros db2 [intel|e] H2; [exact H2|]. cbv beta.
  repeat step_frame.
Qed.

(** X5. A run of [executeResearch] for a job changes no other job, no
    other subject and no other subject's intelligence row, and of its own
    subject it changes the mirrored status only: name, website, phone,
    address and owner are read-only to it. *)
Theorem run_touches_own_rows env jobId db job :
  researchJob db !! jobId = Some job ->
  (forall id, id <> jobId ->
     researchJob (executeResearch env jobId db).1 !! id = researchJob db !! id)
  /\ (forall c, c <> job_companyId job ->
        company (executeResearch env jobId db).1 !! c = company db !! c
        /\ researchResult (executeResearch env jobId db).1 !! c
           = researchResult db !! c)
  /\ company_attributes <$> company (executeResearch env jobId db).1 !! job_companyId job
     = company_attributes <$> company db !! job_companyId job.
Proof.
  intros Hjob.
  destruct (executeResearch_frame env jobId db job Hjob)
    as (Hjobs & Hcomp & Hres & Hattr & _).
  split; [exact Hjobs|]. split; [|exact Hattr].
  intros c Hne. split; [now apply Hcomp | now apply Hres].
Qed.

Lemma run_touches_own_rows_witness :
  researchJob
    (executeResearch Samples.env_ok "j1"
       (set_researchJob (insert "j2" Samples.job_queued) Samples.db_job)).1 !! "j2"
  = Some Samples.job_queued.
Proof.
  destruct (run_touches_own_rows Samples.env_ok "j1"
              (set_researchJob (insert "j2" Samples.job_queued) Samples.db_job)
              Samples.job_queued) as (Hjobs & _).
  - reflexivity.
  - rewrite Hjobs by discriminate. reflexivity.
Defined.

(** X6. Whatever happens in a run, the job keeps its subject, its
    owner, its priority and the statuses of the two stages the pipeline
    does not run (owner investigation, competitor mapping), and each of the
    four stage statuses is afterwards what it was, Running or Completed:
    the run never marks a stage Failed or Skipped. *)
Theorem run_keeps_job_identity env jobId db job :
  researchJob db !! jobId = Some job ->
  exists job',
    researchJob (executeResearch env jobId db).1 !! jobId = Some job'
    /\ job_advanced job job'.
Proof.
  intros Hjob.
  destruct (executeResearch_frame env jobId db job Hjob) as (_ & _ & _ & _ & Hadv).
  exact Hadv.
Qed.

Lemma run_keeps_job_identity_witness :
  exists job',
    researchJob
      (executeResearch (Samples.env_fault executeResearch_upsert "disk full") "j1"
         Samples.db_job).1 !! "j1" = Some job'
    /\ businessAnalysis job' = AgentStatus.COMPLETED
    /\ job_advanced Samples.job_queued job'.
Proof.
  destruct (run_keeps_job_identity
              (Samples.env_fault executeResearch_upsert "disk full") "j1"
              Samples.db_job Samples.job_queued) as (job' & Hjob' & Hadv).
  - reflexivity.
  - exists job'. split; [exact Hjob'|]. split; [|exact Hadv].
    assert (H : businessAnalysis
                  <$> researchJob
                        (executeResearch
                           (Samples.env_fault executeResearch_upsert "disk full")
                           "j1" Samples.db_job).1 !! "j1"
                = Some AgentStatus.COMPLETED) by (vm_compute; reflexivity).
    rewrite Hjob' in H. injection H as H. exact H.
Defined.

End FrameFacts.

(** ** Progress of a completed run *)

Module ProgressFacts.
Import Orchestrator.

Lemma wp_progress_ok env jobId p u (Q : Db -> Result unit -> Prop) db j :
  progress_sites_ok env ->
  researchJob db !! jobId = Some j ->
  Q (set_researchJob
       (insert jobId
          (set_job_updatedAt (now env (clock_progress p))
             (apply_agentUpdates u (set_job_progress p j)))) db)
    (Returned tt) ->
  wp (updateJobProgress env jobId p u) Q db.
Proof.
  intros Hok Hj HQ. unfold updateJobProgress. apply wp_try_catch.
  eapply RunFacts.wp_researchJob_update; [exact Hj | |].
  - intros e He. rewrite Hok in He. discriminate He.
  - intros _. exact HQ.
Qed.

(** One progress write, after which the job is known again. *)
Ltac step_ok :=
  apply wp_bind; eapply wp_progress_ok; [eassumption | eassumption |];
  match goal with
  | |- wp _ _ (set_researchJob (insert ?id ?jn) ?d) =>
      let Hn := fresh "Hj" in
      let dn := fresh "db" in
      assert (Hn : researchJob (set_researchJob (insert id jn) d) !! id = Some jn)
        by apply lookup_insert_eq;
      set (dn := set_researchJob (insert id jn) d) in *; clearbody dn
  end.

Lemma executeResearch_try_progress env jobId cid comp intel0 db j :
  progress_sites_ok env ->
  researchJob db !! jobId = Some j ->
  startedAt j = Some (now env clock_startedAt) ->
  wp (executeResearch_try env jobId cid comp intel0)
    (fun db' r =>
       match r with
       | Returned _ =>
           exists j', researchJob db' !! jobId = Some j'
                      /\ job_completed (now env clock_startedAt)
                           (now env clock_completedAt) j'
       | Thrown _ => True
       end) db.
Proof.
  intros Hok Hj Hstarted. unfold executeResearch_try.
  step_ok.
  apply wp_bind, RunFacts.website_stage; [intros websiteData_ | intros; exact I].
  do 4 step_ok.
  apply wp_bind, wp_await; [intros newsData_ _ | intros; exact I].
  do 2 step_ok.
  apply wp_bind, wp_await; [intros businessData_ _ | intros; exact I].
  step_ok.
  apply wp_bind, wp_prisma_call; [intros; exact I | intros _].
  apply wp_modify.
  apply wp_bind.
  eapply RunFacts.wp_researchJob_update; [eassumption | intros; exact I | intros _].
  apply wp_bind. unfold company_update.
  apply wp_prisma_call; [intros; exact I | intros _].
  unfold wp at 1.
  match goal with
  | |- context [company ?d !! cid] => destruct (company d !! cid); [|exact I]
  end.
  cbn [fst snd]. apply wp_ret.
  eexists. split; [cbn; apply lookup_insert_eq|].
  unfold job_completed. cbn. repeat split; exact Hstarted.
Qed.

(** X7. When a run returns and all its progress writes went through,
    the job is Completed with a progress of 100, its four stages are
    Completed, its start time is the clock as read when the run marked it
    Running and its completion time the clock as read when the run marked
    it Completed. *)
Theorem completed_run_progress env jobId db db' intel :
  progress_sites_ok env ->
  executeResearch env jobId db = (db', Returned intel) ->
  exists job',
    researchJob db' !! jobId = Some job'
    /\ job_completed (now env clock_startedAt) (now env clock_completedAt) job'.
Proof.
  intros Hok Hrun.
  assert (H : wp (executeResearch env jobId)
                (fun db' r =>
                   match r with
                   | Returned _ =>
                       exists j', researchJob db' !! jobId = Some j'
                                  /\ job_completed (now env clock_startedAt)
                                       (now env clock_completedAt) j'
                   | Thrown _ => True
                   end) db).
  { unfold executeResearch.
    apply wp_bind, wp_prisma_call; [intros; exact I | intros _].
    unfold wp at 1. cbn [fst snd].
    destruct (researchJob db !! jobId) as [job|] eqn:Hjob; [|exact I].
    apply wp_bind. unfold wp at 1. cbn [fst snd].
    apply wp_bind.
    eapply RunFacts.wp_researchJob_update; [exact Hjob | intros; exact I | intros _].
    destruct (company db !! job_companyId job) as [comp|]; [|exact I].
    apply wp_bind. unfold company_update.
    apply wp_prisma_call; [intros; exact I | intros _].
    unfold wp at 1.
    match goal with
    | |- context [company ?d !! ?c] => destruct (company d !! c); [|exact I]
    end.
    cbn [fst snd]. apply wp_try_catch.
    eapply wp_mono.
    - eapply executeResearch_try_progress; [exact Hok | cbn; apply lookup_insert_eq |].
      reflexivity.
    - intros db1 [i|e] Hpost; [exact Hpost|]. cbv beta.
      do 2 FuserFacts.step_any. exact I. }
  unfold wp in H. rewrite Hrun in H. exact H.
Qed.

Lemma completed_run_progress_witness :
  exists job',
    researchJob (executeResearch Samples.env_ok "j1" Samples.db_job).1 !! "j1"
    = Some job'
    /\ job_progress job' = 100
    /\ startedAt job' = Some 1000
    /\ completedAt job' = Some 1103.
Proof.
  destruct (executeResearch Samples.env_ok "j1" Samples.db_job) as [db' r] eqn:Hrun.
  assert (Hr : exists intel, r = Returned intel).
  { replace r with (executeResearch Samples.env_ok "j1" Samples.db_job).2
      by (rewrite Hrun; reflexivity).
    eexists. vm_compute. reflexivity. }
  destruct Hr as (intel & ->).
  destruct (completed_run_progress Samples.env_ok "j1" Samples.db_job db' intel)
    as (job' & Hjob' & _ & Hprogress & _ & _ & _ & _ & Hstarted & Hcompleted).
  - intros p. reflexivity.
  - exact Hrun.
  - exists job'. split; [exact Hjob'|]. split; [exact Hprogress|].
    split; [exact Hstarted | exact Hcompleted].
Defined.

End ProgressFacts.

(** ** Final scores and the persisted row *)

Module ScoreFacts.
Import Orchestrator.

Lemma or_num_nonzero (x d : Q) : ~ (x == 0)%Q -> JS.or_num x d = x.
Proof.
  intros H. unfold JS.or_num. destruct (Qeq_bool x 0) eqn:E; [|reflexivity].
  apply Qeq_bool_eq in E. contradiction.
Qed.

Lemma or_num_default (x d : Q) : (x == 0)%Q -> JS.or_num x d = d.
Proof.
  intros H. unfold JS.or_num. apply Qeq_eq_bool in H. now rewrite H.
Qed.

(** X8. In the final scores, a news reputation score of 0 is replaced
    by the default 50, as is a missing news result, while any other score
    is taken as it is; the opportunity score is 15 per opportunity, capped
    at 100, so it lies in [0,100] and is 100 from seven opportunities on. *)
Theorem final_scores_defaults intel :
  (match newsData intel with
   | Some news =>
       ((NewsAggregator.reputationScore news == 0)%Q ->
        reputationScore (calculateFinalScores intel) = 50%Q)
       /\ (~ (NewsAggregator.reputationScore news == 0)%Q ->
           reputationScore (calculateFinalScores intel)
           = NewsAggregator.reputationScore news)
   | None => reputationScore (calculateFinalScores intel) = 50%Q
   end)
  /\ (0 <= opportunityScore (calculateFinalScores intel) <= 100)%Q
  /\ (forall business,
        businessData intel = Some business ->
        (opportunityScore (calculateFinalScores intel)
         == Qmin (15 * inject_Z (Z.of_nat (length (BusinessAnalyzer.opportunities business))))
              100)%Q
        /\ ((7 <= length (BusinessAnalyzer.opportunities business))%nat ->
            (opportunityScore (calculateFinalScores intel) == 100)%Q)).
Proof.
  split; [|split].
  - unfold calculateFinalScores. cbn [reputationScore set_scores].
    destruct (newsData intel) as [news|]; cbn [fmap option_fmap option_map JS.or_null];
      [|reflexivity].
    split; intros H; [now apply or_num_default | now apply or_num_nonzero].
  - unfold calculateFinalScores. cbn [opportunityScore set_scores].
    destruct (businessData intel) as [business|]; [|lra].
    destruct (0 <? length (BusinessAnalyzer.opportunities business))%nat eqn:E; [|lra].
    unfold JS.Math_min.
    assert (0 <= inject_Z (Z.of_nat (length (BusinessAnalyzer.opportunities business))))%Q.
    { change 0%Q with (inject_Z 0). rewrite <- Zle_Qle. lia. }
    split; [apply Q.min_glb; lra | apply Q.le_min_r].
  - intros business Hb. unfold calculateFinalScores.
    cbn [opportunityScore set_scores]. rewrite Hb.
    set (n := length (BusinessAnalyzer.opportunities business)).
    assert (Hmin : ((if (0 <? n)%nat
                     then JS.Math_min (inject_Z (Z.of_nat n) * 15) 100 else 0)
                    == Qmin (15 * inject_Z (Z.of_nat n)) 100)%Q).
    { destruct n as [|n]; [reflexivity|].
      cbn [Nat.ltb Nat.leb]. unfold JS.Math_min.
      apply Q.min_compat; [ring | reflexivity]. }
    split; [exact Hmin|]. intros Hn. rewrite Hmin.
    apply Q.min_r.
    assert (7 <= inject_Z (Z.of_nat n))%Q.
    { change 7%Q with (inject_Z 7). rewrite <- Zle_Qle. lia. }
    lra.
Qed.

Lemma executeResearch_try_offline env jobId cid comp intel0 db :
  JS.truthy_string (website comp) = false ->
  wp (executeResearch_try env jobId cid comp intel0)
    (fun _ r =>
       match r with
       | Returned intel => websiteData intel = websiteData intel0
       | Thrown _ => True
       end) db.
Proof.
  intros Hoff. unfold executeResearch_try. rewrite Hoff.
  FuserFacts.step_any. apply wp_bind, wp_ret.
  do 12 FuserFacts.step_any.
  apply wp_ret. reflexivity.
Qed.

Lemma executeResearch_completed env jobId db job comp :
  researchJob db !! jobId = Some job ->
  company db !! job_companyId job = Some comp ->
  wp (executeResearch env jobId)
    (fun db' r =>
       match r with
       | Returned intel =>
           run_completed env db jobId job intel db'
           /\ (JS.truthy_string (website comp) = false -> websiteData intel = None)
       | Thrown _ => True
       end) db.
Proof.
  intros Hjob Hcomp. unfold executeResearch.
  apply wp_bind, wp_prisma_call; [intros; exact I | intros _].
  unfold wp at 1. cbn [fst snd]. rewrite Hjob.
  apply wp_bind. unfold wp at 1. cbn [fst snd]. rewrite Hcomp.
  apply wp_bind.
  eapply RunFacts.wp_researchJob_update; [exact Hjob | intros; exact I | intros _].
  apply wp_bind.
  eapply RunFacts.wp_company_update; [exact Hcomp | intros; exact I | intros _].
  apply wp_try_catch.
  match goal with
  | |- wp (executeResearch_try _ _ _ _ ?i0) _ ?d =>
      pose proof (RunFacts.executeResearch_try_outcome env db jobId job comp
                    i0 d
                    ltac:(split; [cbn; rewrite lookup_insert_eq; eauto|];
                          split; [cbn; rewrite lookup_insert_eq; eauto|]; reflexivity))
        as Hout;
      pose proof (fun Hoff =>
                    executeResearch_try_offline env jobId (job_companyId job) comp
                      i0 d Hoff) as Hoff
  end.
  unfold wp in *.
  match goal with
  | |- match (?run).2 with _ => _ end => destruct run as [db1 [intel|e]]
  end; cbn [fst snd] in *.
  - split; [exact Hout | exact Hoff].
  - do 2 FuserFacts.step_any. exact I.
Qed.

(** X9. The upsert keeps a stored column whose new value is absent:
    when a subject without website is researched again, the stored row
    still shows the website data of the earlier run, while the merged
    intelligence and the scores of the row are those of the new run. *)
Theorem rerun_keeps_stored_website env jobId db db' job comp old intel :
  researchJob db !! jobId = Some job ->
  company db !! job_companyId job = Some comp ->
  JS.truthy_string (website comp) = false ->
  researchResult db !! job_companyId job = Some old ->
  executeResearch env jobId db = (db', Returned intel) ->
  exists row,
    researchResult db' !! job_companyId job = Some row
    /\ result_websiteData row = result_websiteData old
    /\ websiteData (mergedIntelligence row) = None
    /\ mergedIntelligence row = intel
    /\ result_completenessScore row = completenessScore intel
    /\ result_updatedAt row = Some (now env clock_upsert).
Proof.
  intros Hjob Hcomp Hoff Hold Hrun.
  pose proof (executeResearch_completed env jobId db job comp Hjob Hcomp) as H.
  unfold wp in H. rewrite Hrun in H. cbn [fst snd] in H.
  destruct H as ((_ & _ & _ & Hrow) & Hnull).
  specialize (Hnull Hoff).
  eexists. split; [rewrite Hrow; apply lookup_insert_eq|].
  rewrite Hold. unfold upsert_row. cbn. rewrite Hnull. repeat split.
Qed.

Lemma rerun_keeps_stored_website_witness :
  exists row,
    researchResult
      (executeResearch Samples.env_ok "j1" MoreSamples.db_rerun).1 !! "c1" = Some row
    /\ result_websiteData row = Some Samples.website_live
    /\ websiteData (mergedIntelligence row) = None.
Proof.
  destruct (executeResearch Samples.env_ok "j1" MoreSamples.db_rerun)
    as [db' r] eqn:Hrun.
  assert (Hr : exists intel, r = Returned intel).
  { replace r with (executeResearch Samples.env_ok "j1" MoreSamples.db_rerun).2
      by (rewrite Hrun; reflexivity).
    eexists. vm_compute. reflexivity. }
  destruct Hr as (intel & ->).
  destruct (rerun_keeps_stored_website Samples.env_ok "j1" MoreSamples.db_rerun db'
              Samples.job_queued MoreSamples.acme_offline
              (upsert_row 0
                 (set_scores (Some Samples.website_live) None None None
                    0 0 0 0 30 50 [] MoreSamples.intel_blank) None)
              intel)
    as (row & Hrow & Hweb & Hnull & _).
  - reflexivity.
  - reflexivity.
  - reflexivity.
  - reflexivity.
  - exact Hrun.
  - exists row. split; [exact Hrow|]. split; [rewrite Hweb; reflexivity | exact Hnull].
Defined.

End ScoreFacts.

(** ** The social hunt *)

Module SocialFacts.
Import SocialHunter SocialHunt.

Lemma platforms_sublist env name w p l :
  map platform (platforms (huntSocialProfiles env name w p l))
  `sublist_of` platform_names.
Proof. apply FuserFacts.found_profiles_sublist. Qed.

(** X10. The social hunt reports each of its six platforms at most
    once and in its fixed order (LinkedIn, Facebook, Instagram, Twitter,
    YouTube, TikTok); what it calls the most active platform is the first
    one found in that order, so it is LinkedIn whenever a LinkedIn profile
    was found, and absent exactly when nothing was found. *)
Theorem platforms_in_fixed_order env name w p l :
  let result := huntSocialProfiles env name w p l in
  map platform (platforms result) `sublist_of` platform_names
  /\ NoDup (map platform (platforms result))
  /\ (length (platforms result) <= 6)%nat
  /\ mostActivePlatform result = head (map platform (platforms result))
  /\ (In "linkedin" (map platform (platforms result)) ->
      mostActivePlatform result = Some "linkedin")
  /\ (mostActivePlatform result = None <-> platforms result = []).
Proof.
  cbv zeta. pose proof (platforms_sublist env name w p l) as Hsub.
  assert (Hhead : mostActivePlatform (huntSocialProfiles env name w p l)
                  = head (map platform (platforms (huntSocialProfiles env name w p l)))).
  { cbn [mostActivePlatform platforms huntSocialProfiles].
    destruct (map (verify_profile env name) _); reflexivity. }
  split; [exact Hsub|]. split; [apply FuserFacts.huntSocialProfiles_NoDup|].
  split; [|split; [exact Hhead|split]].
  - apply sublist_length in Hsub. rewrite length_map in Hsub. exact Hsub.
  - intros Hin. rewrite Hhead.
    remember (map platform (platforms (huntSocialProfiles env name w p l))) as names.
    clear Heqnames Hhead.
    unfold platform_names in Hsub. cbn in Hsub.
    inversion Hsub as [| x l1 l2 Hrest | x l1 l2 Hrest]; subst; [reflexivity|].
    exfalso. apply list_elem_of_In in Hin.
    pose proof (sublist_subseteq _ _ Hrest _ Hin) as Hin'.
    revert Hin'. apply (bool_decide_unpack _). vm_compute. exact I.
  - rewrite Hhead. destruct (platforms (huntSocialProfiles env name w p l));
      cbn; split; congruence.
Qed.

Lemma Math_round_bounds (x : Q) (a b : Z) :
  (inject_Z a <= x <= inject_Z b)%Q -> a <= JS.Math_round x <= b.
Proof.
  intros [Ha Hb]. unfold JS.Math_round. split.
  - rewrite <- (Qfloor_Z a). apply Qfloor_resp_le. lra.
  - assert (H : (x + (1 # 2) < inject_Z (b + 1))%Q).
    { rewrite inject_Z_plus. change (inject_Z 1) with 1%Q. lra. }
    pose proof (Qfloor_le (x + (1 # 2))) as Hfl.
    assert (Hlt : (inject_Z (Qfloor (x + (1 # 2))) < inject_Z (b + 1))%Q) by lra.
    rewrite <- Zlt_Qlt in Hlt. lia.
Qed.

Lemma searchPlatform_confidence env name platform_ domain location profile :
  exa_scores_in_range env ->
  searchPlatform env name platform_ domain location = Some profile ->
  (0 <= confidenceScore profile <= 100)%Q.
Proof.
  intros Hrange. unfold searchPlatform.
  destruct (exaBestMatch env name platform_ domain location) as [m|] eqn:Hm;
    [|discriminate].
  intros [= <-]. cbn [confidenceScore].
  destruct (match_score m) as [score|] eqn:Hscore; [|lra].
  destruct (Qeq_bool (JS.num score) 0); [lra|].
  pose proof (Hrange _ _ _ _ _ _ Hm Hscore) as [H0 H1].
  assert (Hnum : (0 <= JS.num score <= 1)%Q).
  { split; [apply DoubleFacts.fl_nonneg, H0|].
    apply DoubleFacts.fl_le_double; [|exact H1].
    apply (DoubleFacts.integer_is_double 1). lia. }
  destruct (Math_round_bounds (JS.mul (JS.num score) 100) 0 100) as [Hlo Hhi].
  { change (inject_Z 0) with 0%Q. change (inject_Z 100) with 100%Q.
    unfold JS.mul. split.
    - apply DoubleFacts.fl_nonneg. lra.
    - apply DoubleFacts.fl_le_double; [apply EvolutionFacts.double_100 | lra]. }
  split.
  - change 0%Q with (inject_Z 0). rewrite <- Zle_Qle. exact Hlo.
  - change 100%Q with (inject_Z 100). rewrite <- Zle_Qle. exact Hhi.
Qed.

Lemma verified_confidence_bounds env name profile :
  (verified (verify_profile env name profile) = true ->
   (confidenceScore (verify_profile env name profile) <= 100)%Q)
  /\ (verified (verify_profile env name profile) = false ->
      (30 <= confidenceScore (verify_profile env name profile))%Q).
Proof.
  unfold verify_profile. cbn [verified confidenceScore compose].
  destruct (verifyWithTavily env name (url profile)); split; intros H;
    try discriminate H; unfold JS.Math_min, JS.Math_max;
    [apply Q.le_min_r | apply Q.le_max_r].
Qed.

Lemma hunt_confidence_in_range env name w p l :
  exa_scores_in_range env ->
  Forall (fun profile => (10 <= confidenceScore profile <= 100)%Q)
    (platforms (huntSocialProfiles env name w p l)).
Proof.
  cbn [platforms huntSocialProfiles].
  intros Hrange. apply Forall_fmap, Forall_forall. intros profile Hin.
  assert (Hconf : (0 <= confidenceScore profile <= 100)%Q).
  { apply list_elem_of_omap in Hin. destruct Hin as (o & Ho & Hsome).
    cbn in Hsome. subst o. apply list_elem_of_fmap in Ho.
    destruct Ho as ([pl dom] & Hsearch & _). cbn [fst snd] in Hsearch.
    eapply searchPlatform_confidence; [exact Hrange | symmetry; exact Hsearch]. }
  unfold verify_profile. cbn [confidenceScore compose].
  destruct (verifyWithTavily env name (url profile));
    unfold JS.Math_min, JS.Math_max.
  - split; [apply Q.min_glb; lra | apply Q.le_min_r].
  - split; [apply Qle_trans with 30%Q; [lra | apply Q.le_max_r]|].
    apply Q.max_lub; lra.
Qed.

(** X11. Verification moves the confidence of a profile up by 10 but
    not above 100 when it is verified, and down by 20 but not below 30
    when it is not: a verified profile never has a confidence above 100,
    an unverified one never below 30; and when the scores of the search
    lie in [0,1], every confidence the hunt reports lies in [10,100]. *)
Theorem profile_confidence_bounds env name w p l :
  Forall (fun profile =>
            (verified profile = true -> (confidenceScore profile <= 100)%Q)
            /\ (verified profile = false -> (30 <= confidenceScore profile)%Q))
    (platforms (huntSocialProfiles env name w p l))
  /\ (exa_scores_in_range env ->
      Forall (fun profile => (10 <= confidenceScore profile <= 100)%Q)
        (platforms (huntSocialProfiles env name w p l))).
Proof.
  split; [|apply hunt_confidence_in_range].
  cbn [platforms huntSocialProfiles].
  apply Forall_fmap, Forall_forall. intros profile _.
  apply verified_confidence_bounds.
Qed.

Lemma weight_of_positive name : (0 < weight_of platformWeights name)%Q.
Proof.
  unfold platformWeights. cbn [weight_of].
  repeat match goal with
         | |- context [String.eqb ?a ?b] => destruct (String.eqb a b)
         end; reflexivity.
Qed.

(** The weights of a list of platform names, added up. *)
Lemma names_weight_sublist (l1 l2 : list string) :
  l1 `sublist_of` l2 ->
  (fold_right Qplus 0 (map (weight_of platformWeights) l1)
   <= fold_right Qplus 0 (map (weight_of platformWeights) l2))%Q.
Proof.
  induction 1 as [| x l1 l2 _ IH | x l1 l2 _ IH]; cbn [map fold_right].
  - lra.
  - lra.
  - pose proof (weight_of_positive x). lra.
Qed.

Lemma verified_weight_le (profiles : list SocialProfile) :
  (0 <= verified_weight profiles
   <= fold_right Qplus 0 (map (weight_of platformWeights) (map platform profiles)))%Q.
Proof.
  unfold verified_weight.
  induction profiles as [|p ps IH]; cbn [List.filter map fold_right]; [lra|].
  pose proof (weight_of_positive (platform p)).
  destruct (verified p); cbn [map fold_right]; lra.
Qed.

Lemma presence_fold (profiles : list SocialProfile) (a : Q) :
  (fold_left
     (fun score profile =>
        if verified profile
        then score + weight_of platformWeights (platform profile)
        else score) profiles a
   == a + verified_weight profiles)%Q.
Proof.
  unfold verified_weight. revert a.
  induction profiles as [|p ps IH]; intros a; cbn [fold_left List.filter]; [cbn; lra|].
  rewrite IH. destruct (verified p); cbn [map fold_right]; lra.
Qed.

(** X12. The social presence score is the plain sum of the weights of
    the verified platforms: since each platform is found at most once and
    the six weights add up to 100, the cap at 100 never cuts anything off
    and the score lies in [0,100]. *)
Theorem presence_score_is_weight_sum env name w p l :
  (socialPresenceScore (huntSocialProfiles env name w p l)
   == verified_weight (platforms (huntSocialProfiles env name w p l)))%Q
  /\ (0 <= socialPresenceScore (huntSocialProfiles env name w p l) <= 100)%Q.
Proof.
  pose proof (verified_weight_le (platforms (huntSocialProfiles env name w p l)))
    as [Hlo Hhi].
  pose proof (names_weight_sublist _ _ (platforms_sublist env name w p l)) as Hsub.
  assert (Htotal : (fold_right Qplus 0 (map (weight_of platformWeights) platform_names)
                    == 100)%Q) by reflexivity.
  assert (Hscore : (socialPresenceScore (huntSocialProfiles env name w p l)
                    == verified_weight (platforms (huntSocialProfiles env name w p l)))%Q).
  { cbn [socialPresenceScore platforms huntSocialProfiles]. unfold JS.Math_min.
    rewrite presence_fold, Qplus_0_l.
    apply Q.min_l. cbn [platforms huntSocialProfiles] in Hhi, Hsub. lra. }
  split; [exact Hscore|]. rewrite Hscore. lra.
Qed.

Lemma mean_bounds (a b : Q) (xs : list Q) :
  xs <> [] ->
  Forall (fun x => a <= x <= b)%Q xs ->
  (a <= mean xs <= b)%Q.
Proof.
  intros Hne Hall. unfold mean.
  assert (Hsum : (a * inject_Z (Z.of_nat (length xs)) <= fold_right Qplus 0 xs
                  <= b * inject_Z (Z.of_nat (length xs)))%Q).
  { clear Hne. induction Hall as [|x xs Hx _ IH]; cbn [fold_right length].
    - change (inject_Z (Z.of_nat 0)) with 0%Q. lra.
    - rewrite Nat2Z.inj_succ, <- Z.add_1_r, inject_Z_plus.
      change (inject_Z 1) with 1%Q. lra. }
  assert (Hpos : (0 < inject_Z (Z.of_nat (length xs)))%Q).
  { change 0%Q with (inject_Z 0). rewrite <- Zlt_Qlt.
    destruct xs; [congruence | cbn [length]; lia]. }
  split; [apply Qle_shift_div_l | apply Qle_shift_div_r]; tauto.
Qed.

End SocialFacts.

(** ** The range of the confidence score *)

Module ConfidenceFacts.

(** X13. With inputs in their documented ranges the confidence score
    stays in range: when the website confidence of a returned record lies
    in [0,100] and the scores of the social search lie in [0,1], its
    confidence score lies between 25 and 100. *)
Theorem confidence_in_range env jobId db db' intel :
  exa_scores_in_range env ->
  (0 <= Criteria.website_confidence intel <= 100)%Q ->
  Orchestrator.executeResearch env jobId db = (db', Returned intel) ->
  25 <= confidenceScore intel <= 100.
Proof.
  intros Hrange Hweb Hrun.
  apply FuserFacts.executeResearch_fused in Hrun. unfold fused_by in Hrun.
  destruct Hrun as [(name & w & p & l & Hsocial) [_ [Hconf _]]].
  rewrite Hconf, FuserFacts.calculateConfidence_formula.
  unfold Criteria.confidence_formula.
  assert (Hmean : (0 <= Criteria.social_confidence intel <= 100)%Q).
  { unfold Criteria.social_confidence, Orchestrator.social_platforms.
    rewrite Hsocial.
    pose proof (SocialFacts.hunt_confidence_in_range env name w p l Hrange) as Hall.
    destruct (SocialHunter.platforms (SocialHunt.huntSocialProfiles env name w p l))
      as [|q qs] eqn:Hps; [lra|].
    apply SocialFacts.mean_bounds; [discriminate|].
    apply Forall_fmap. eapply Forall_impl; [exact Hall|].
    cbn. intros x Hx. lra. }
  apply SocialFacts.Math_round_bounds.
  change (inject_Z 25) with 25%Q. change (inject_Z 100) with 100%Q.
  unfold Qdiv. change (/ 2)%Q with (1 # 2)%Q. change (/ 4)%Q with (1 # 4)%Q. lra.
Qed.

Lemma confidence_in_range_witness :
  exists intel,
    (Orchestrator.executeResearch Samples.env_ok "j1" Samples.db_job).2
    = Returned intel
    /\ 25 <= confidenceScore intel <= 100.
Proof.
  destruct (Orchestrator.executeResearch Samples.env_ok "j1" Samples.db_job)
    as [db' r] eqn:Hrun.
  assert (Hr : exists intel,
             r = Returned intel
             /\ (0 <= Criteria.website_confidence intel <= 100)%Q).
  { replace r with (Orchestrator.executeResearch Samples.env_ok "j1" Samples.db_job).2
      by (rewrite Hrun; reflexivity).
    eexists. split; [vm_compute; reflexivity|].
    split; vm_compute; discriminate. }
  destruct Hr as (intel & -> & Hweb).
  exists intel. split; [reflexivity|].
  apply (confidence_in_range Samples.env_ok "j1" Samples.db_job db' intel).
  - intros name platform_ domain location m score Hm Hscore.
    cbn in Hm. destruct (_ || _) in Hm; [|discriminate Hm].
    injection Hm as <-. injection Hscore as <-. split; vm_compute; discriminate.
  - exact Hweb.
  - exact Hrun.
Defined.

End ConfidenceFacts.

(** ** Histories of logging calls *)

Module EngineFacts.
Import Evolution.

Lemma updateSourceMetrics_step env name success d q db :
  evolutionLog (updateSourceMetrics env name success d q db).1 = evolutionLog db
  /\ researchJob (updateSourceMetrics env name success d q db).1 = researchJob db
  /\ company (updateSourceMetrics env name success d q db).1 = company db
  /\ researchResult (updateSourceMetrics env name success d q db).1
     = researchResult db
  /\ (sourceConfig (updateSourceMetrics env name success d q db).1 = sourceConfig db
      \/ exists row',
           sourceConfig (updateSourceMetrics env name success d q db).1
           = <[name := row']> (sourceConfig db)
           /\ row_updated (sourceConfig db !! name) row').
Proof.
  unfold updateSourceMetrics, try_catch, bind, prisma_call.
  destruct (dbFault env updateSourceMetrics_findUnique);
    [cbn; repeat split; left; reflexivity|].
  cbn [fst snd].
  destruct (sourceConfig db !! name) as [row|] eqn:Hrow.
  - destruct (dbFault env updateSourceMetrics_update);
      [cbn; repeat split; left; reflexivity|].
    rewrite Hrow. cbn [fst snd set_sourceConfig evolutionLog researchJob company
                         researchResult sourceConfig].
    repeat split. right. eexists. split; [reflexivity|].
    cbn [row_updated source_limits priority requestsPerMinute delayBetweenMs
           dailyLimit currentDailyUsage successRate isEnabled].
    repeat split. destruct success; [left | right]; reflexivity.
  - destruct (dbFault env updateSourceMetrics_create);
      [cbn; repeat split; left; reflexivity|].
    rewrite Hrow. cbn [fst snd set_sourceConfig evolutionLog researchJob company
                         researchResult sourceConfig].
    repeat split. right. eexists. split; [reflexivity|].
    cbn [row_updated source_limits priority requestsPerMinute delayBetweenMs
           dailyLimit currentDailyUsage successRate isEnabled].
    repeat split. destruct success; [left | right]; reflexivity.
Qed.

Lemma logged_then_updated env ev name success d q db :
  eventType ev <> ADAPTATION_APPLIED ->
  engine_step db
    (updateSourceMetrics env name success d q (set_evolutionLog (cons ev) db)).1.
Proof.
  intros Hev.
  destruct (updateSourceMetrics_step env name success d q
              (set_evolutionLog (cons ev) db)) as (Hlog & Hjob & Hcomp & Hres & Hsrc).
  unfold engine_step. rewrite Hlog, Hjob, Hcomp, Hres.
  cbn [set_evolutionLog evolutionLog researchJob company researchResult sourceConfig]
    in *.
  split; [reflexivity|]. split; [reflexivity|]. split; [reflexivity|].
  split; [right; eauto|].
  destruct Hsrc as [Hsame | (row' & Hins & Hrow)]; [left; exact Hsame|].
  right. exists name, row'. split; assumption.
Qed.

Lemma engine_step_refl db : engine_step db db.
Proof. unfold engine_step. repeat split; left; reflexivity. Qed.

Ltac logged_update :=
  match goal with
  | |- context [updateSourceMetrics ?e ?n ?b ?x ?y (set_evolutionLog (cons ?ev) ?d)] =>
      let Hstep := fresh "Hstep" in
      let Hret := fresh "Hret" in
      pose proof (logged_then_updated e ev n b x y d) as Hstep;
      pose proof (ProcessingTimeFacts.updateSourceMetrics_returns e n b x y
                    (set_evolutionLog (cons ev) d)) as Hret;
      destruct (updateSourceMetrics e n b x y (set_evolutionLog (cons ev) d))
        as [? [[]|?]]; cbn [fst snd] in Hstep, Hret |- *;
      [apply Hstep; discriminate | discriminate Hret]
  end.

(** One logging call returns, whatever Prisma does, and makes one step. *)
Lemma run_call_step env c db :
  (run_call env c db).2 = Returned tt /\ engine_step db (run_call env c db).1.
Proof.
  split; [destruct c; apply try_catch_swallow|].
  destruct c as [s d q i|s c m r f|c s u f g]; cbn [run_call].
  - unfold logSourceSuccess, try_catch, bind, evolutionLog_create, prisma_call.
    destruct (dbFault env logSourceSuccess_create); [apply engine_step_refl|].
    cbn [modify fst snd]. logged_update.
  - unfold logSourceFailure, try_catch, bind, evolutionLog_create, prisma_call.
    destruct (dbFault env logSourceFailure_create); [apply engine_step_refl|].
    cbn [modify fst snd]. logged_update.
  - unfold logResearchComplete, try_catch, evolutionLog_create, prisma_call.
    destruct (dbFault env logResearchComplete_create); [apply engine_step_refl|].
    cbn [modify fst snd]. unfold engine_step.
    cbn [set_evolutionLog evolutionLog researchJob company researchResult
           sourceConfig].
    repeat split; [right; eexists; split; [reflexivity|discriminate] | left; reflexivity].
Qed.

Lemma run_calls_cons env c calls db :
  run_calls ((env, c) :: calls) db = run_calls calls (run_call env c db).1.
Proof.
  cbn [run_calls]. unfold bind.
  destruct (run_call_step env c db) as [Hret _].
  destruct (run_call env c db) as [db1 r]. cbn [snd] in Hret. subst r. reflexivity.
Qed.

Lemma run_calls_log_grows calls db :
  exists new,
    evolutionLog (run_calls calls db).1 = (new ++ evolutionLog db)%list
    /\ (length new <= length calls)%nat
    /\ no_adaptation new.
Proof.
  revert db. induction calls as [|[env c] calls IH]; intros db.
  - exists []. repeat split; [cbn [length]; lia | constructor].
  - rewrite run_calls_cons.
    destruct (run_call_step env c db) as [_ (_ & _ & _ & Hlog & _)].
    destruct (IH (run_call env c db).1) as (new & Hnew & Hlen & Hnone).
    rewrite Hnew.
    destruct Hlog as [-> | (ev & -> & Hev)].
    + exists new. repeat split; [cbn [length]; lia | exact Hnone].
    + exists (new ++ [ev])%list. rewrite <- app_assoc.
      repeat split.
      * rewrite length_app. cbn [length]. lia.
      * apply Forall_app. split; [exact Hnone|]. constructor; [exact Hev|constructor].
Qed.

(** X14. The logging calls of the engine never throw and never reach
    beyond the engine: whatever Prisma does during a history of calls,
    the history returns, the jobs, subjects and intelligence rows are as
    before, and the log has grown at its front by at most one event per
    call, none of them an adaptation event. *)
Theorem history_is_contained calls db :
  (run_calls calls db).2 = Returned tt
  /\ researchJob (run_calls calls db).1 = researchJob db
  /\ company (run_calls calls db).1 = company db
  /\ researchResult (run_calls calls db).1 = researchResult db
  /\ exists new,
       evolutionLog (run_calls calls db).1 = (new ++ evolutionLog db)%list
       /\ (length new <= length calls)%nat
       /\ no_adaptation new.
Proof.
  split; [|split; [|split; [|split; [|apply run_calls_log_grows]]]];
    revert db; induction calls as [|[env c] calls IH]; intros db;
    try reflexivity; rewrite run_calls_cons, IH;
    try reflexivity; apply run_call_step.
Qed.

Lemma num_in_range (r : Q) : (0 <= r <= 100)%Q -> (0 <= JS.num r <= 100)%Q.
Proof.
  intros [H0 H1]. unfold JS.num. split; [apply DoubleFacts.fl_nonneg, H0|].
  apply DoubleFacts.fl_le_double; [apply EvolutionFacts.double_100 | exact H1].
Qed.

Lemma rate_up_in_range (r : Q) :
  (0 <= r <= 100)%Q -> (0 <= rate_after_success (JS.num r) <= 100)%Q.
Proof.
  intros Hr. apply num_in_range in Hr. set (x := JS.num r) in *.
  unfold rate_after_success, JS.Math_min, JS.add, JS.mul, JS.sub.
  split; [|apply Q.le_min_l].
  apply Q.min_glb; [lra|]. apply DoubleFacts.fl_nonneg.
  assert (Hgap : (0 <= JS.fl (100 - x))%Q) by (apply DoubleFacts.fl_nonneg; lra).
  assert (Hinc : (0 <= JS.fl (JS.fl (100 - x) * JS.tenth))%Q).
  { apply DoubleFacts.fl_nonneg. rewrite EvolutionFacts.tenth_value.
    set (g := JS.fl (100 - x)) in *. lra. }
  lra.
Qed.

Lemma rate_down_in_range (r : Q) :
  (0 <= r <= 100)%Q -> (0 <= rate_after_failure (JS.num r) <= 100)%Q.
Proof.
  intros Hr. apply num_in_range in Hr. set (x := JS.num r) in *.
  unfold rate_after_failure, JS.Math_max, JS.sub.
  split; [apply Q.le_max_l|]. apply Q.max_lub; [lra|].
  apply DoubleFacts.fl_le_double; [apply EvolutionFacts.double_100 | lra].
Qed.

Lemma engine_step_rates db db' :
  engine_step db db' -> rates_in_range db -> rates_in_range db'.
Proof.
  intros (_ & _ & _ & _ & Hsrc) Hinv. unfold rates_in_range in *.
  destruct Hsrc as [-> | (name & row' & -> & Hrow)]; [exact Hinv|].
  apply map_Forall_insert_2; [|exact Hinv].
  destruct (sourceConfig db !! name) as [row|] eqn:Hold; cbn [row_updated] in Hrow.
  - destruct Hrow as (_ & _ & Hrate & Henabled).
    destruct (Hinv name row Hold) as [Hrange _].
    split.
    + destruct Hrate as [-> | ->];
        [apply rate_up_in_range | apply rate_down_in_range]; exact Hrange.
    + rewrite Henabled. intros Hoff. apply gt_false_iff in Hoff. exact Hoff.
  - destruct Hrow as (_ & _ & Hrate & Henabled).
    split; [destruct Hrate as [-> | ->]; lra | rewrite Henabled; discriminate].
Qed.

(** X15. Rates stay percentages: if every rate of the source table
    lies in [0,100] and every disabled source has a rate of at most 20,
    the same holds after any history of logging calls, whatever Prisma
    does meanwhile. *)
Theorem rates_stay_in_range calls db :
  rates_in_range db -> rates_in_range (run_calls calls db).1.
Proof.
  revert db. induction calls as [|[env c] calls IH]; intros db Hinv; [exact Hinv|].
  rewrite run_calls_cons. apply IH.
  eapply engine_step_rates; [apply run_call_step | exact Hinv].
Qed.

Lemma rates_stay_in_range_witness :
  rates_in_range
    (run_calls
       [(Samples.env_ok, call_logSourceFailure "exa" "TIMEOUT" "timed out" None None);
        (Samples.env_ok, call_logSourceSuccess "exa" 120 70 None);
        (Samples.env_ok, call_logSourceSuccess "tavily" 300 55 None)]
       Samples.db_empty).1.
Proof.
  apply (rates_stay_in_range _ Samples.db_empty).
  unfold rates_in_range. cbn [Samples.db_empty sourceConfig].
  apply map_Forall_empty.
Defined.

Lemma engine_step_source db db' name row :
  engine_step db db' ->
  sourceConfig db !! name = Some row ->
  exists row',
    sourceConfig db' !! name = Some row'
    /\ source_limits row' = source_limits row
    /\ currentDailyUsage row <= currentDailyUsage row' <= currentDailyUsage row + 1.
Proof.
  intros (_ & _ & _ & _ & Hsrc) Hrow.
  destruct Hsrc as [-> | (name' & row' & -> & Hupd)].
  - exists row. repeat split; [exact Hrow | lia | lia].
  - destruct (decide (name' = name)) as [->|Hne].
    + rewrite Hrow in Hupd. cbn [row_updated] in Hupd.
      destruct Hupd as (Hlimits & Husage & _).
      exists row'. rewrite lookup_insert_eq. repeat split; [exact Hlimits | lia | lia].
    + exists row. rewrite lookup_insert_ne by exact Hne.
      repeat split; [exact Hrow | lia | lia].
Qed.

(** X16. The engine never removes a source and never touches its
    configuration: a source of the table is still there after any history
    of logging calls, with its priority and limits as they were, and its
    daily usage counter has grown by at most one per call. *)
Theorem history_keeps_sources calls db name row :
  sourceConfig db !! name = Some row ->
  exists row',
    sourceConfig (run_calls calls db).1 !! name = Some row'
    /\ source_limits row' = source_limits row
    /\ currentDailyUsage row <= currentDailyUsage row'
       <= currentDailyUsage row + Z.of_nat (length calls).
Proof.
  revert db row. induction calls as [|[env c] calls IH]; intros db row Hrow.
  - exists row. cbn [run_calls ret fst length]. repeat split; [exact Hrow | lia | lia].
  - rewrite run_calls_cons.
    destruct (engine_step_source db (run_call env c db).1 name row)
      as (row1 & Hrow1 & Hlimits1 & Husage1); [apply run_call_step | exact Hrow |].
    destruct (IH _ _ Hrow1) as (row' & Hrow' & Hlimits & Husage).
    exists row'. split; [exact Hrow'|]. split; [congruence|].
    cbn [length]. lia.
Qed.

Lemma history_keeps_sources_witness :
  exists row',
    sourceConfig
      (run_calls
         [(Samples.env_ok, call_logSourceFailure "exa" "TIMEOUT" "timed out" None None);
          (Samples.env_ok, call_logSourceSuccess "exa" 120 70 None)]
         Samples.db_exa).1 !! "exa" = Some row'
    /\ source_limits row' = source_limits (Samples.source_row 80 100 60)
    /\ currentDailyUsage (Samples.source_row 80 100 60) <= currentDailyUsage row'
       <= currentDailyUsage (Samples.source_row 80 100 60) + Z.of_nat 2.
Proof.
  apply (history_keeps_sources
           [(Samples.env_ok, call_logSourceFailure "exa" "TIMEOUT" "timed out" None None);
            (Samples.env_ok, call_logSourceSuccess "exa" 120 70 None)]
           Samples.db_exa "exa" (Samples.source_row 80 100 60)).
  vm_compute. reflexivity.
Defined.

End EngineFacts.

(** ** Queries *)

Section QueryFacts.

Context {A : Type}.

Lemma insert_sorted_Permutation (leb : A -> A -> bool) (x : A) (l : list A) :
  insert_sorted leb x l ≡ₚ x :: l.
Proof.
  induction l as [|y l IH]; cbn [insert_sorted]; [reflexivity|].
  destruct (leb x y); [reflexivity|].
  rewrite IH. apply Permutation_swap.
Qed.

Lemma sort_by_Permutation (leb : A -> A -> bool) (l : list A) : sort_by leb l ≡ₚ l.
Proof.
  unfold sort_by. induction l as [|x l IH]; cbn [foldr]; [reflexivity|].
  rewrite insert_sorted_Permutation, IH. reflexivity.
Qed.

Lemma findMany_length (rows : list A) where_ orderBy n :
  (length (findMany rows where_ orderBy n) <= n)%nat.
Proof. unfold findMany. rewrite length_take. lia. Qed.

Lemma findMany_In (rows : list A) where_ orderBy n x :
  In x (findMany rows where_ orderBy n) -> In x rows /\ where_ x = true.
Proof.
  unfold findMany. intros Hin. apply list_elem_of_In in Hin.
  apply (sublist_subseteq _ _ (sublist_take _ _)) in Hin.
  rewrite sort_by_Permutation in Hin. apply list_elem_of_In in Hin.
  apply filter_In in Hin. exact Hin.
Qed.

Lemma filter_sublist (f : A -> bool) (l : list A) : List.filter f l `sublist_of` l.
Proof.
  induction l as [|x l IH]; cbn [List.filter]; [constructor|].
  destruct (f x); [apply sublist_skip | apply sublist_cons]; exact IH.
Qed.

Lemma findMany_NoDup {B} (key : A -> B) (rows : list A) where_ orderBy n :
  NoDup (map key rows) -> NoDup (map key (findMany rows where_ orderBy n)).
Proof.
  intros Hnd. unfold findMany.
  eapply sublist_NoDup; [|apply (fmap_sublist key), sublist_take].
  change (NoDup (key <$> sort_by orderBy (List.filter where_ rows))).
  rewrite sort_by_Permutation.
  eapply sublist_NoDup; [exact Hnd | apply (fmap_sublist key), filter_sublist].
Qed.

End QueryFacts.

Lemma sourceConfig_rows_In db name row :
  In (name, row) (Evolution.sourceConfig_rows db) <-> sourceConfig db !! name = Some row.
Proof.
  unfold Evolution.sourceConfig_rows.
  rewrite <- list_elem_of_In. apply elem_of_map_to_list.
Qed.

Lemma sourceConfig_rows_NoDup db : NoDup (map fst (Evolution.sourceConfig_rows db)).
Proof. apply NoDup_fst_map_to_list. Qed.

Lemma ge_iff (x y : Q) : JS.ge x y = true <-> (y <= x)%Q.
Proof. unfold JS.ge. apply Qle_bool_iff. Qed.

(** ** The source lists of the learning insights *)

Module InsightListFacts.
Import Evolution.

(** The two source queries of [analyzeLearningInsights]. *)
Lemma analyze_lists env db :
  (topSources (analyzeLearningInsights env db) = []
   \/ topSources (analyzeLearningInsights env db)
      = map fst (findMany (sourceConfig_rows db)
                   (fun s => isEnabled s.2 && JS.ge (successRate s.2) 70)
                   (fun a b => JS.ge (successRate a.2) (successRate b.2)) 5))
  /\ (problematicSources (analyzeLearningInsights env db) = []
      \/ problematicSources (analyzeLearningInsights env db)
         = map fst (findMany (sourceConfig_rows db)
                      (fun s => JS.lt (successRate s.2) 50)
                      (fun a b => JS.ge (successRate b.2) (successRate a.2)) 5))
  /\ (length (recommendations (analyzeLearningInsights env db)) <= 3)%nat.
Proof.
  unfold analyzeLearningInsights, analyzeLearningInsights_try, try_catch, bind,
    prisma_call.
  destruct (dbFault env insights_topSources);
    [cbn; split; [left; reflexivity | split; [left; reflexivity | lia]]|].
  cbn [ret modify get fst snd throw].
  destruct (dbFault env insights_badSources);
    [cbn; split; [right; reflexivity | split; [left; reflexivity | lia]]|].
  cbn [ret modify get fst snd throw].
  destruct (dbFault env insights_recentLogs);
    [cbn; split; [right; reflexivity | split; [right; reflexivity | lia]]|].
  cbv zeta. cbn [ret modify get fst snd throw].
  repeat match goal with
         | |- context [if ?c then _ else _] =>
             destruct c eqn:?; cbn [ret modify get fst snd]
         end;
    (split; [right; reflexivity | split; [right; reflexivity | cbn; lia]]).
Qed.

(** X17. The two source lists of the learning insights: whatever
    Prisma does, each names at most five sources of the table, the top
    sources are enabled with a rate of at least 70, the problematic ones
    have a rate below 50, so no source is in both; and there are at most
    three recommendations. *)
Theorem insight_lists_apart env db :
  let insights := analyzeLearningInsights env db in
  (length (topSources insights) <= 5)%nat
  /\ (length (problematicSources insights) <= 5)%nat
  /\ (forall name, In name (topSources insights) ->
        exists row, sourceConfig db !! name = Some row
                    /\ isEnabled row = true /\ (70 <= successRate row)%Q)
  /\ (forall name, In name (problematicSources insights) ->
        exists row, sourceConfig db !! name = Some row
                    /\ (successRate row < 50)%Q)
  /\ (forall name, In name (topSources insights) ->
                   ~ In name (problematicSources insights))
  /\ (length (recommendations insights) <= 3)%nat.
Proof.
  cbv zeta. destruct (analyze_lists env db) as (Htop & Hbad & Hrecs).
  assert (Htop_row : forall name,
             In name (topSources (analyzeLearningInsights env db)) ->
             exists row, sourceConfig db !! name = Some row
                         /\ isEnabled row = true /\ (70 <= successRate row)%Q).
  { intros name Hin. destruct Htop as [Htop | Htop]; rewrite Htop in Hin;
      [destruct Hin|].
    apply in_map_iff in Hin. destruct Hin as ([n row] & <- & Hin).
    apply findMany_In in Hin. destruct Hin as [Hrow Hwhere].
    apply sourceConfig_rows_In in Hrow. cbn [fst snd] in *.
    apply andb_true_iff in Hwhere. destruct Hwhere as [Hon Hrate].
    apply ge_iff in Hrate. eauto. }
  assert (Hbad_row : forall name,
             In name (problematicSources (analyzeLearningInsights env db)) ->
             exists row, sourceConfig db !! name = Some row
                         /\ (successRate row < 50)%Q).
  { intros name Hin. destruct Hbad as [Hbad | Hbad]; rewrite Hbad in Hin;
      [destruct Hin|].
    apply in_map_iff in Hin. destruct Hin as ([n row] & <- & Hin).
    apply findMany_In in Hin. destruct Hin as [Hrow Hwhere].
    apply sourceConfig_rows_In in Hrow. cbn [fst snd] in *.
    apply lt_iff in Hwhere. eauto. }
  split; [|split; [|split; [exact Htop_row|split; [exact Hbad_row|split; [|exact Hrecs]]]]].
  - destruct Htop as [-> | ->]; [cbn; lia|].
    rewrite length_map. apply findMany_length.
  - destruct Hbad as [-> | ->]; [cbn; lia|].
    rewrite length_map. apply findMany_length.
  - intros name Hin Hin'.
    destruct (Htop_row name Hin) as (row & Hrow & _ & Hrate).
    destruct (Hbad_row name Hin') as (row' & Hrow' & Hrate').
    rewrite Hrow in Hrow'. injection Hrow' as <-. lra.
Qed.

End InsightListFacts.

(** ** The read side of the engine *)

Module ReadFacts.
Import Evolution EvolutionReads.

Lemma read_call_ok {A} readFault site (read : Db -> A) db :
  readFault site = None -> read_call readFault site read db = (db, Returned (read db)).
Proof. unfold read_call. intros ->. reflexivity. Qed.

Lemma getBestSources_rows readFault min db db' names :
  getBestSources readFault min db = (db', Returned names) ->
  db' = db
  /\ names = map fst (findMany (sourceConfig_rows db)
                        (fun s => isEnabled s.2 && JS.ge (successRate s.2) min)
                        by_rate_then_quality 5).
Proof.
  unfold getBestSources, bind, read_call.
  destruct (readFault getBestSources_findMany); [discriminate|].
  cbn [ret]. intros [= <- <-]. split; reflexivity.
Qed.

Lemma best_source_row readFault min db db' names name :
  getBestSources readFault min db = (db', Returned names) ->
  In name names ->
  exists row, sourceConfig db !! name = Some row
              /\ isEnabled row = true /\ (min <= successRate row)%Q.
Proof.
  intros Hrun Hin. apply getBestSources_rows in Hrun. destruct Hrun as [_ ->].
  apply in_map_iff in Hin. destruct Hin as ([n row] & <- & Hin).
  apply findMany_In in Hin. destruct Hin as [Hrow Hwhere].
  apply sourceConfig_rows_In in Hrow. cbn [fst snd] in *.
  apply andb_true_iff in Hwhere. destruct Hwhere as [Hon Hrate].
  apply ge_iff in Hrate. eauto.
Qed.

(** X18. [getBestSources] throws exactly when its query fails, and
    changes nothing; what it returns are at most five different names,
    each of an enabled source whose rate is at least the threshold. *)
Theorem best_sources_qualify readFault min db :
  match readFault getBestSources_findMany with
  | Some e => getBestSources readFault min db = (db, Thrown e)
  | None =>
      exists names,
        getBestSources readFault min db = (db, Returned names)
        /\ (length names <= 5)%nat
        /\ NoDup names
        /\ forall name, In name names ->
             exists row, sourceConfig db !! name = Some row
                         /\ isEnabled row = true /\ (min <= successRate row)%Q
  end.
Proof.
  destruct (readFault getBestSources_findMany) as [e|] eqn:Hfault.
  - unfold getBestSources, bind, read_call. rewrite Hfault. reflexivity.
  - assert (Hrun : getBestSources readFault min db
                   = (db, Returned
                            (map fst (findMany (sourceConfig_rows db)
                                        (fun s => isEnabled s.2
                                                  && JS.ge (successRate s.2) min)
                                        by_rate_then_quality 5)))).
    { unfold getBestSources, bind, read_call. rewrite Hfault. reflexivity. }
    eexists. split; [exact Hrun|]. split; [|split].
    + rewrite length_map. apply findMany_length.
    + apply findMany_NoDup, sourceConfig_rows_NoDup.
    + intros name Hin. eapply best_source_row; [exact Hrun | exact Hin].
Qed.

(** X19. At its default threshold of 50, or any higher one,
    [getBestSources] never returns a source that [analyzeLearningInsights]
    lists as problematic on the same tables. *)
Theorem best_sources_not_problematic env readFault min db db' names :
  (default_minSuccessRate <= min)%Q ->
  getBestSources readFault min db = (db', Returned names) ->
  forall name, In name names ->
               ~ In name (problematicSources (analyzeLearningInsights env db)).
Proof.
  intros Hmin Hrun name Hin Hbad.
  destruct (best_source_row _ _ _ _ _ _ Hrun Hin) as (row & Hrow & _ & Hrate).
  destruct (InsightListFacts.analyze_lists env db) as (_ & Hlist & _).
  destruct Hlist as [Hlist | Hlist]; rewrite Hlist in Hbad; [destruct Hbad|].
  apply in_map_iff in Hbad. destruct Hbad as ([n row'] & <- & Hbad).
  apply findMany_In in Hbad. destruct Hbad as [Hrow' Hwhere].
  apply sourceConfig_rows_In in Hrow'. cbn [fst snd] in *.
  apply lt_iff in Hwhere. rewrite Hrow in Hrow'. injection Hrow' as <-.
  unfold default_minSuccessRate in Hmin. lra.
Qed.

Lemma best_sources_not_problematic_witness :
  Forall
    (fun name =>
       ~ In name (problematicSources
                    (analyzeLearningInsights Samples.env_ok Samples.db_exa)))
    ["exa"].
Proof.
  constructor; [|constructor].
  apply (best_sources_not_problematic Samples.env_ok (fun _ => None) 50
           Samples.db_exa Samples.db_exa ["exa"]).
  - vm_compute. discriminate.
  - vm_compute. reflexivity.
  - left. reflexivity.
Defined.

Lemma count_events_add_up (log : list EvolutionLog) :
  no_adaptation log ->
  (length (List.filter (fun r => EventType_eqb (eventType r) SOURCE_SUCCESS) log)
   + length (List.filter (fun r => EventType_eqb (eventType r) SOURCE_FAILURE) log)
   + length (List.filter (fun r => EventType_eqb (eventType r) RESEARCH_COMPLETE) log)
   = length log)%nat.
Proof.
  induction 1 as [|r log Hr _ IH]; cbn [List.filter length]; [reflexivity|].
  destruct (eventType r); cbn [EventType_eqb length]; try lia. congruence.
Qed.

(** X20. The statistics add up: on a log without adaptation events,
    which is every log the engine has written, the three counts of
    [getEvolutionStats] add up to its total after any history of logging
    calls; the total has grown by at most one per call, and the recent
    events are the first ten of the log, or all of it. *)
Theorem stats_add_up readFault calls db0 :
  reads_ok readFault ->
  no_adaptation (evolutionLog db0) ->
  exists stats,
    getEvolutionStats readFault (run_calls calls db0).1
    = ((run_calls calls db0).1, Returned stats)
    /\ (successCount stats + failureCount stats + researchCompleteCount stats
        = totalEvents stats)%nat
    /\ (length (evolutionLog db0) <= totalEvents stats
        <= length (evolutionLog db0) + length calls)%nat
    /\ recentEvents stats = take 10 (evolutionLog (run_calls calls db0).1)
    /\ length (recentEvents stats) = Nat.min 10 (totalEvents stats).
Proof.
  intros Hok Hnone.
  destruct (EngineFacts.run_calls_log_grows calls db0) as (new & Hlog & Hlen & Hnew).
  eexists. split.
  { unfold getEvolutionStats, bind.
    rewrite !(read_call_ok _ _ _ _ (Hok _)). reflexivity. }
  cbn [successCount failureCount researchCompleteCount totalEvents recentEvents].
  unfold count_events. split; [|split; [|split]].
  - apply count_events_add_up. rewrite Hlog. apply Forall_app. split; assumption.
  - rewrite Hlog, length_app. lia.
  - reflexivity.
  - apply length_take.
Qed.

Lemma stats_add_up_witness :
  exists stats,
    getEvolutionStats (fun _ => None)
      (run_calls
         [(Samples.env_ok, call_logSourceSuccess "exa" 120 70 None);
          (Samples.env_ok, call_logResearchComplete "c1" 80 ["exa"] [] [])]
         Samples.db_empty).1
    = ((run_calls
          [(Samples.env_ok, call_logSourceSuccess "exa" 120 70 None);
           (Samples.env_ok, call_logResearchComplete "c1" 80 ["exa"] [] [])]
          Samples.db_empty).1, Returned stats)
    /\ (successCount stats + failureCount stats + researchCompleteCount stats
        = totalEvents stats)%nat
    /\ (length (evolutionLog Samples.db_empty) <= totalEvents stats
        <= length (evolutionLog Samples.db_empty) + 2)%nat
    /\ recentEvents stats
       = take 10
           (evolutionLog
              (run_calls
                 [(Samples.env_ok, call_logSourceSuccess "exa" 120 70 None);
                  (Samples.env_ok, call_logResearchComplete "c1" 80 ["exa"] [] [])]
                 Samples.db_empty).1)
    /\ length (recentEvents stats) = Nat.min 10 (totalEvents stats).
Proof.
  apply (stats_add_up (fun _ => None)
           [(Samples.env_ok, call_logSourceSuccess "exa" 120 70 None);
            (Samples.env_ok, call_logResearchComplete "c1" 80 ["exa"] [] [])]
           Samples.db_empty).
  - intros site. reflexivity.
  - constructor.
Defined.

End ReadFacts.

(** ** The performance listing *)

Section SortFacts.

Context {A : Type} (leb : A -> A -> bool).
Hypothesis leb_total : forall x y, leb x y = false -> leb y x = true.
Hypothesis leb_trans : forall x y z, leb x y = true -> leb y z = true -> leb x z = true.

Lemma insert_sorted_sorted (x : A) (l : list A) :
  StronglySorted (fun a b => leb a b = true) l ->
  StronglySorted (fun a b => leb a b = true) (insert_sorted leb x l).
Proof.
  induction 1 as [|y l Hsorted IH Hall]; cbn [insert_sorted].
  - repeat constructor.
  - destruct (leb x y) eqn:Hxy.
    + constructor; [constructor; assumption|].
      constructor; [exact Hxy|].
      eapply Forall_impl; [exact Hall|]. cbn. intros z Hyz. eauto.
    + constructor; [exact IH|].
      rewrite insert_sorted_Permutation. constructor; [|exact Hall].
      apply leb_total. exact Hxy.
Qed.

Lemma sort_by_sorted (l : list A) :
  StronglySorted (fun a b => leb a b = true) (sort_by leb l).
Proof.
  unfold sort_by. induction l as [|x l IH]; cbn [foldr]; [constructor|].
  apply insert_sorted_sorted. exact IH.
Qed.

End SortFacts.

Module PerformanceFacts.
Import Evolution EvolutionReads.

(** X21. [getSourcePerformance] throws exactly when its query fails,
    and changes nothing; what it returns lists every source of the table
    exactly once, each with its own figures, in the order of
    non-increasing success rates. *)
Theorem performance_lists_every_source readFault db :
  match readFault getSourcePerformance_findMany with
  | Some e => getSourcePerformance readFault db = (db, Thrown e)
  | None =>
      exists perfs,
        getSourcePerformance readFault db = (db, Returned perfs)
        /\ NoDup (map sourceName perfs)
        /\ (forall name, In name (map sourceName perfs)
                         <-> is_Some (sourceConfig db !! name))
        /\ (forall p, In p perfs ->
              exists row,
                sourceConfig db !! sourceName p = Some row
                /\ perf_successRate p = successRate row
                /\ perf_avgDurationMs p = avgDurationMs row
                /\ perf_avgQualityScore p = avgQualityScore row
                /\ perf_lastUsed p = lastUsed row
                /\ perf_isEnabled p = isEnabled row)
        /\ StronglySorted (fun p q => (perf_successRate q <= perf_successRate p)%Q)
             perfs
  end.
Proof.
  destruct (readFault getSourcePerformance_findMany) as [e|] eqn:Hfault.
  - unfold getSourcePerformance, bind, read_call. rewrite Hfault. reflexivity.
  - eexists. split.
    { unfold getSourcePerformance, bind, read_call. rewrite Hfault. reflexivity. }
    set (order := fun a b : string * SourceConfig =>
                    JS.ge (successRate a.2) (successRate b.2)).
    assert (Hperm : sort_by order (sourceConfig_rows db) ≡ₚ sourceConfig_rows db)
      by apply sort_by_Permutation.
    split; [|split; [|split]].
    + rewrite map_map. cbn [sourceName].
      change (NoDup (fst <$> sort_by order (sourceConfig_rows db))).
      rewrite Hperm. apply sourceConfig_rows_NoDup.
    + intros name. rewrite map_map. cbn [sourceName]. rewrite in_map_iff. split.
      * intros ([n row] & <- & Hin). apply list_elem_of_In in Hin.
        rewrite Hperm in Hin. apply list_elem_of_In, sourceConfig_rows_In in Hin.
        eauto.
      * intros [row Hrow]. exists (name, row). split; [reflexivity|].
        apply list_elem_of_In. rewrite Hperm.
        apply list_elem_of_In, sourceConfig_rows_In. exact Hrow.
    + intros p Hin. apply in_map_iff in Hin. destruct Hin as ([n row] & <- & Hin).
      apply list_elem_of_In in Hin. rewrite Hperm in Hin.
      apply list_elem_of_In, sourceConfig_rows_In in Hin.
      exists row. cbn. repeat split. exact Hin.
    + apply (StronglySorted_fmap _ (fun a b => order a b = true)).
      * intros a b Hab. cbn. apply ge_iff in Hab. exact Hab.
      * apply sort_by_sorted.
        -- intros x y Hxy. unfold order, JS.ge in *.
           apply Qle_bool_iff. apply not_true_iff_false in Hxy.
           rewrite Qle_bool_iff in Hxy. lra.
        -- intros x y z Hxy Hyz. unfold order, JS.ge in *.
           rewrite Qle_bool_iff in *. lra.
Qed.

End PerformanceFacts.

(** ** More on the cancel route *)

Module CancelMoreFacts.
Import ResearchRoutes.

(** X22. Nobody cancels the job of another user: when the job does
    not exist or belongs to somebody else, the cancel route answers 404
    and changes nothing. *)
Theorem cancel_foreign_job env userId id db :
  dbFault env cancel_findFirst = None ->
  (forall job, researchJob db !! id = Some job -> job_userId job <> userId) ->
  cancel env userId id db
  = (db, Returned {| statusCode := 404;
                     body := error_body "Research job not found" |}).
Proof.
  intros Hfind Hforeign. unfold cancel, try_catch, bind.
  rewrite (prisma_call_ok _ _ _ Hfind).
  destruct (researchJob db !! id) as [job|] eqn:Hjob; [|reflexivity].
  destruct (String.eqb (job_userId job) userId) eqn:Huser; [|reflexivity].
  apply String.eqb_eq in Huser. destruct (Hforeign job eq_refl Huser).
Qed.

Lemma cancel_foreign_job_witness :
  cancel Samples.env_ok "u2" "j1" (Samples.db_job_in JobStatus.RUNNING)
  = (Samples.db_job_in JobStatus.RUNNING,
     Returned {| statusCode := 404; body := error_body "Research job not found" |}).
Proof.
  apply (cancel_foreign_job Samples.env_ok "u2" "j1"
           (Samples.db_job_in JobStatus.RUNNING)).
  - reflexivity.
  - intros job Hjob. vm_compute in Hjob. injection Hjob as <-.
    vm_compute. discriminate.
Defined.

(** X23. The cancel route always answers, with 200, 400, 404 or 500,
    and whatever Prisma does it touches nothing but the status of the job
    it was asked for and the status of the subject of that job: the
    engine's tables, the intelligence rows, the other jobs and the other
    subjects are as before, a 400 or 404 answer changes nothing at all,
    and after a 200 answer the job is Cancelled. *)
Theorem cancel_is_contained env userId id db :
  exists response,
    (cancel env userId id db).2 = Returned response
    /\ In (statusCode response) [200; 400; 404; 500]
    /\ evolutionLog (cancel env userId id db).1 = evolutionLog db
    /\ sourceConfig (cancel env userId id db).1 = sourceConfig db
    /\ researchResult (cancel env userId id db).1 = researchResult db
    /\ (forall id', id' <> id ->
          researchJob (cancel env userId id db).1 !! id' = researchJob db !! id')
    /\ (forall job c,
          researchJob db !! id = Some job -> c <> job_companyId job ->
          company (cancel env userId id db).1 !! c = company db !! c)
    /\ (statusCode response = 400 \/ statusCode response = 404 ->
        (cancel env userId id db).1 = db)
    /\ (statusCode response = 200 ->
        job_status <$> researchJob (cancel env userId id db).1 !! id
        = Some JobStatus.CANCELLED).
Proof.
  unfold cancel, try_catch, bind, prisma_call.
  destruct (dbFault env cancel_findFirst);
    [cbn; eexists; split; [reflexivity|]; cbn; intuition discriminate|].
  cbn [fst snd].
  destruct (researchJob db !! id) as [job|] eqn:Hjob;
    [|cbn; eexists; split; [reflexivity|]; cbn; intuition discriminate].
  destruct (String.eqb (job_userId job) userId);
    [|cbn; eexists; split; [reflexivity|]; cbn; intuition discriminate].
  destruct (cancellable (job_status job));
    [|cbn; eexists; split; [reflexivity|]; cbn; intuition discriminate].
  cbn [negb]. unfold researchJob_update, company_update, prisma_call.
  destruct (dbFault env cancel_jobUpdate);
    [cbn; eexists; split; [reflexivity|]; cbn; intuition discriminate|].
  rewrite Hjob. cbn [fst snd].
  destruct (dbFault env cancel_companyUpdate).
  - cbn. eexists. split; [reflexivity|]. cbn.
    repeat split; try (intuition discriminate); try tauto.
    intros id' Hne. apply lookup_insert_ne. congruence.
  - cbn [set_researchJob company].
    destruct (company db !! job_companyId job) as [comp|] eqn:Hcomp.
    + cbn. eexists. split; [reflexivity|]. cbn.
      repeat split; try (intuition discriminate); try tauto.
      * intros id' Hne. apply lookup_insert_ne. congruence.
      * intros job' c [= <-] Hne. apply lookup_insert_ne. congruence.
      * intros _. rewrite lookup_insert_eq. reflexivity.
    + cbn. eexists. split; [reflexivity|]. cbn.
      repeat split; try (intuition discriminate); try tauto.
      intros id' Hne. apply lookup_insert_ne. congruence.
Qed.

(** X24. Cancelling is not atomic: when the job was marked Cancelled
    and the write to its subject then fails, the route answers 500 and
    the job stays Cancelled while the subject keeps its status. *)
Theorem cancel_half_done env userId id db job e :
  researchJob db !! id = Some job ->
  job_userId job = userId ->
  cancellable (job_status job) = true ->
  dbFault env cancel_findFirst = None ->
  dbFault env cancel_jobUpdate = None ->
  dbFault env cancel_companyUpdate = Some e ->
  cancel env userId id db
  = (set_researchJob (insert id (set_job_status JobStatus.CANCELLED job)) db,
     Returned {| statusCode := 500; body := error_body "Failed to cancel job" |}).
Proof.
  intros Hjob Huser Hcan Hfind Hupdate Hfault.
  unfold cancel, try_catch, bind.
  rewrite (prisma_call_ok _ _ _ Hfind), Hjob, Huser, String.eqb_refl, Hcan.
  cbn [negb]. unfold researchJob_update, company_update.
  rewrite (prisma_call_ok _ _ _ Hupdate), Hjob.
  rewrite (prisma_call_fault _ _ _ _ Hfault). reflexivity.
Qed.

Lemma cancel_half_done_witness :
  let env := Samples.env_fault cancel_companyUpdate "connection lost" in
  let db' := (cancel env "u1" "j1" (Samples.db_job_in JobStatus.RUNNING)).1 in
  statusCode
    <$> (match (cancel env "u1" "j1" (Samples.db_job_in JobStatus.RUNNING)).2 with
         | Returned response => Some response
         | Thrown _ => None
         end) = Some 500
  /\ job_status <$> researchJob db' !! "j1" = Some JobStatus.CANCELLED
  /\ company_status <$> company db' !! "c1" = Some CompanyStatus.RESEARCHING.
Proof.
  cbv zeta.
  rewrite (cancel_half_done
             (Samples.env_fault cancel_companyUpdate "connection lost")
             "u1" "j1" (Samples.db_job_in JobStatus.RUNNING)
             (set_job_status JobStatus.RUNNING Samples.job_queued)
             "connection lost");
    [repeat split | reflexivity..].
Defined.

End CancelMoreFacts.

(** ** The routes that start a run *)

Module StartFacts.
Import StartRoutes.

Lemma job_findFirst_Some companyId_ db id job :
  job_findFirst companyId_ db = Some (id, job) ->
  researchJob db !! id = Some job
  /\ job_companyId job = companyId_
  /\ in_progress (job_status job) = true.
Proof.
  unfold job_findFirst. intros Hhead.
  apply head_Some_elem_of, list_elem_of_In, filter_In in Hhead.
  destruct Hhead as [Hin Hwhere]. cbn [fst snd] in Hwhere.
  apply andb_true_iff in Hwhere. destruct Hwhere as [Hc Hs].
  apply String.eqb_eq in Hc.
  apply list_elem_of_In, elem_of_map_to_list in Hin. auto.
Qed.

Lemma job_findFirst_found companyId_ db id job :
  researchJob db !! id = Some job ->
  job_companyId job = companyId_ ->
  in_progress (job_status job) = true ->
  is_Some (job_findFirst companyId_ db).
Proof.
  intros Hjob Hc Hs. unfold job_findFirst.
  assert (Hin : In (id, job)
                  (List.filter
                     (fun row => String.eqb (job_companyId row.2) companyId_
                                 && in_progress (job_status row.2))
                     (map_to_list (researchJob db)))).
  { apply filter_In. split.
    - apply list_elem_of_In, elem_of_map_to_list. exact Hjob.
    - cbn [snd]. rewrite Hc, String.eqb_refl, Hs. reflexivity. }
  destruct (List.filter _ _) as [|x l]; [destruct Hin | cbn; eauto].
Qed.

Lemma job_findFirst_None companyId_ db :
  no_job_in_progress companyId_ db -> job_findFirst companyId_ db = None.
Proof.
  intros Hnone. destruct (job_findFirst companyId_ db) as [[id job]|] eqn:Hfind;
    [|reflexivity].
  apply job_findFirst_Some in Hfind. destruct Hfind as (Hjob & Hc & Hs).
  rewrite (Hnone id job Hjob Hc) in Hs. discriminate.
Qed.

Lemma job_findFirst_only companyId_ db id job :
  researchJob db !! id = Some job ->
  job_companyId job = companyId_ ->
  in_progress (job_status job) = true ->
  (forall id' job',
      researchJob db !! id' = Some job' -> job_companyId job' = companyId_ ->
      in_progress (job_status job') = true -> id' = id) ->
  job_findFirst companyId_ db = Some (id, job).
Proof.
  intros Hjob Hc Hs Honly.
  destruct (job_findFirst_found companyId_ db id job Hjob Hc Hs) as [[id' job'] Hfind].
  rewrite Hfind.
  apply job_findFirst_Some in Hfind. destruct Hfind as (Hjob' & Hc' & Hs').
  pose proof (Honly id' job' Hjob' Hc' Hs') as ->. congruence.
Qed.

Lemma company_findFirst_owned companyId_ userId db comp :
  company db !! companyId_ = Some comp ->
  company_userId comp = userId ->
  company_findFirst companyId_ userId db = Some comp.
Proof.
  intros Hcomp Howner. unfold company_findFirst.
  rewrite Hcomp, Howner, String.eqb_refl. reflexivity.
Qed.

Lemma priority_or_zero (p : Z) : (if p =? 0 then 0 else p) = p.
Proof. destruct (Z.eqb_spec p 0); congruence. Qed.

(** A [start] that finds a job in progress. *)
Lemma start_refused renv spawn userId request companyId_ priority_ comp db id job :
  parse request = Some (companyId_, priority_) ->
  routeFault renv start_companyFindFirst = None ->
  routeFault renv start_jobFindFirst = None ->
  company db !! companyId_ = Some comp ->
  company_userId comp = userId ->
  job_findFirst companyId_ db = Some (id, job) ->
  start renv spawn userId request db
  = (db, Returned {| statusCode := 400;
                     body := in_progress_body "Research job already in progress"
                               id |}).
Proof.
  intros Hparse Hf1 Hf2 Hcomp Howner Hfind.
  unfold start. rewrite Hparse. unfold try_catch, bind, route_call.
  rewrite Hf1, Hf2, (company_findFirst_owned _ _ _ _ Hcomp Howner), Hfind.
  reflexivity.
Qed.

(** A [start] that is accepted, with what it sets going. *)
Lemma start_accepted renv spawn userId request companyId_ priority_ comp db :
  parse request = Some (companyId_, priority_) ->
  start_sites_ok renv ->
  company db !! companyId_ = Some comp ->
  company_userId comp = userId ->
  no_job_in_progress companyId_ db ->
  researchJob db !! newJobId renv = None ->
  start renv spawn userId request db
  = ((spawn (newJobId renv) (started renv userId companyId_ priority_ comp db)).1,
     match (spawn (newJobId renv)
              (started renv userId companyId_ priority_ comp db)).2 with
     | Returned _ =>
         Returned {| statusCode := 201;
                     body := job_body (newJobId renv)
                               (created_job (jobDefaults renv) companyId_ userId
                                  priority_) |}
     | Thrown _ =>
         Returned {| statusCode := 500;
                     body := error_body "Failed to start research" |}
     end).
Proof.
  intros Hparse (Hf1 & Hf2 & Hf3 & Hf4) Hcomp Howner Hnone Hfresh.
  unfold start. rewrite Hparse. unfold try_catch, bind, route_call.
  rewrite Hf1, Hf2, Hf3, Hf4, (company_findFirst_owned _ _ _ _ Hcomp Howner),
    (job_findFirst_None _ _ Hnone), priority_or_zero.
  unfold researchJob_create. rewrite Hfresh.
  unfold company_write. cbn [company set_researchJob]. rewrite Hcomp.
  cbn [fst snd]. fold (started renv userId companyId_ priority_ comp db).
  destruct (spawn (newJobId renv) (started renv userId companyId_ priority_ comp db))
    as [db1 [[]|e]]; reflexivity.
Qed.

Lemma started_job renv userId companyId_ priority_ comp db :
  researchJob (started renv userId companyId_ priority_ comp db) !! newJobId renv
  = Some (created_job (jobDefaults renv) companyId_ userId priority_).
Proof. cbn. apply lookup_insert_eq. Qed.

Lemma started_only renv userId companyId_ priority_ comp db id job :
  no_job_in_progress companyId_ db ->
  researchJob (started renv userId companyId_ priority_ comp db) !! id = Some job ->
  job_companyId job = companyId_ ->
  in_progress (job_status job) = true ->
  id = newJobId renv.
Proof.
  intros Hnone Hjob Hc Hs. cbn in Hjob.
  destruct (decide (id = newJobId renv)) as [->|Hne]; [reflexivity|].
  rewrite lookup_insert_ne in Hjob by congruence.
  rewrite (Hnone id job Hjob Hc) in Hs. discriminate.
Qed.

(** X25. The guard of [start]: while a job of the subject is pending,
    queued or running, the route answers 400 with the id of such a job,
    creates nothing, starts no run and changes nothing. *)
Theorem start_guard renv spawn userId request companyId_ priority_ comp db id job :
  parse request = Some (companyId_, priority_) ->
  routeFault renv start_companyFindFirst = None ->
  routeFault renv start_jobFindFirst = None ->
  company db !! companyId_ = Some comp ->
  company_userId comp = userId ->
  researchJob db !! id = Some job ->
  job_companyId job = companyId_ ->
  in_progress (job_status job) = true ->
  exists existing job',
    start renv spawn userId request db
    = (db, Returned {| statusCode := 400;
                       body := in_progress_body "Research job already in progress"
                                 existing |})
    /\ researchJob db !! existing = Some job'
    /\ job_companyId job' = companyId_
    /\ in_progress (job_status job') = true.
Proof.
  intros Hparse Hf1 Hf2 Hcomp Howner Hjob Hc Hs.
  destruct (job_findFirst_found companyId_ db id job Hjob Hc Hs)
    as [[existing job'] Hfind].
  exists existing, job'. split.
  - eapply start_refused; eassumption.
  - apply job_findFirst_Some. exact Hfind.
Qed.

Lemma start_guard_witness :
  exists existing job',
    start RouteSamples.renv_ok (background Samples.env_ok) "u1"
      (RouteSamples.request (Some 3)) (Samples.db_job_in JobStatus.RUNNING)
    = (Samples.db_job_in JobStatus.RUNNING,
       Returned {| statusCode := 400;
                   body := in_progress_body "Research job already in progress"
                             existing |})
    /\ researchJob (Samples.db_job_in JobStatus.RUNNING) !! existing = Some job'
    /\ job_companyId job' = "c1"
    /\ in_progress (job_status job') = true.
Proof.
  apply (start_guard RouteSamples.renv_ok (background Samples.env_ok) "u1"
           (RouteSamples.request (Some 3)) "c1" 3
           (set_company_status CompanyStatus.RESEARCHING Samples.acme)
           (Samples.db_job_in JobStatus.RUNNING) "j1"
           (set_job_status JobStatus.RUNNING Samples.job_queued));
    reflexivity.
Defined.

(** The run that [start] and [execute] set going, on the job they have
    just created. *)
Lemma run_of_new_job env jobId db job comp :
  researchJob db !! jobId = Some job ->
  company db !! job_companyId job = Some comp ->
  enters_stages env ->
  failure_marking_ok env ->
  (exists intel,
      (Orchestrator.executeResearch env jobId db).2 = Returned intel
      /\ job_status <$> researchJob (Orchestrator.executeResearch env jobId db).1 !! jobId
         = Some JobStatus.COMPLETED
      /\ company_status
           <$> company (Orchestrator.executeResearch env jobId db).1 !! job_companyId job
         = Some CompanyStatus.COMPLETED
      /\ is_Some (researchResult (Orchestrator.executeResearch env jobId db).1
                    !! job_companyId job))
  \/ (exists e,
        (Orchestrator.executeResearch env jobId db).2 = Thrown e
        /\ job_status <$> researchJob (Orchestrator.executeResearch env jobId db).1 !! jobId
           = Some JobStatus.FAILED
        /\ company_status
             <$> company (Orchestrator.executeResearch env jobId db).1 !! job_companyId job
           = Some CompanyStatus.FAILED).
Proof.
  intros Hjob Hcomp Henter Hmark.
  pose proof (RunFacts.executeResearch_outcome env jobId db job comp
                Hjob Hcomp Henter Hmark) as Hout.
  unfold wp in Hout.
  destruct (Orchestrator.executeResearch env jobId db) as [db' [intel|e]];
    cbn [fst snd] in *.
  - left. exists intel. destruct Hout as (Hj & Hc & _ & Hrow).
    repeat split; try assumption. rewrite Hrow, lookup_insert_eq. eauto.
  - right. exists e. destruct Hout as (Hj & _ & Hc & _). repeat split; assumption.
Qed.

(** X28. [start] does not wait for the run and answers 201 whatever
    becomes of it; once the run has settled, with its first three calls
    and the two writes of its failure handler going through, the job is
    Completed or Failed and the status of the subject says the same. *)
Theorem start_settles env renv userId request companyId_ priority_ comp db :
  parse request = Some (companyId_, priority_) ->
  start_sites_ok renv ->
  company db !! companyId_ = Some comp ->
  company_userId comp = userId ->
  no_job_in_progress companyId_ db ->
  researchJob db !! newJobId renv = None ->
  enters_stages env ->
  failure_marking_ok env ->
  let settled := (start renv (background env) userId request db).1 in
  (start renv (background env) userId request db).2
  = (start renv no_spawn userId request db).2
  /\ (start renv no_spawn userId request db).2
     = Returned {| statusCode := 201;
                   body := job_body (newJobId renv)
                             (created_job (jobDefaults renv) companyId_ userId
                                priority_) |}
  /\ ((job_status <$> researchJob settled !! newJobId renv = Some JobStatus.COMPLETED
       /\ company_status <$> company settled !! companyId_
          = Some CompanyStatus.COMPLETED
       /\ is_Some (researchResult settled !! companyId_))
      \/ (job_status <$> researchJob settled !! newJobId renv = Some JobStatus.FAILED
          /\ company_status <$> company settled !! companyId_
             = Some CompanyStatus.FAILED)).
Proof.
  intros Hparse Hok Hcomp Howner Hnone Hfresh Henter Hmark. cbv zeta.
  rewrite (start_accepted renv (background env) userId request companyId_ priority_
             comp db) by assumption.
  rewrite (start_accepted renv no_spawn userId request companyId_ priority_ comp db)
    by assumption.
  cbn [no_spawn ret fst snd].
  destruct (run_of_new_job env (newJobId renv)
              (started renv userId companyId_ priority_ comp db)
              (created_job (jobDefaults renv) companyId_ userId priority_)
              (set_company_status CompanyStatus.QUEUED comp))
    as [(intel & Hret & Hj & Hc & Hres) | (e & Hret & Hj & Hc)];
    [apply started_job | cbn; apply lookup_insert_eq | exact Henter | exact Hmark | |];
    cbn [job_companyId created_job] in *;
    unfold background, try_catch, bind;
    destruct (Orchestrator.executeResearch env (newJobId renv)
                (started renv userId companyId_ priority_ comp db))
      as [db' r]; cbn [fst snd] in *; subst r; cbn [ret fst snd];
    (split; [reflexivity|]; split; [reflexivity|]); [left | right]; auto.
Qed.

Lemma start_settles_witness :
  let settled := (start RouteSamples.renv_ok (background Samples.env_ok) "u1"
                    (RouteSamples.request (Some 3)) RouteSamples.db_company).1 in
  (start RouteSamples.renv_ok (background Samples.env_ok) "u1"
     (RouteSamples.request (Some 3)) RouteSamples.db_company).2
  = (start RouteSamples.renv_ok no_spawn "u1" (RouteSamples.request (Some 3))
       RouteSamples.db_company).2
  /\ (start RouteSamples.renv_ok no_spawn "u1" (RouteSamples.request (Some 3))
        RouteSamples.db_company).2
     = Returned {| statusCode := 201;
                   body := job_body "j2"
                             (created_job Samples.job_queued "c1" "u1" 3) |}
  /\ ((job_status <$> researchJob settled !! "j2" = Some JobStatus.COMPLETED
       /\ company_status <$> company settled !! "c1" = Some CompanyStatus.COMPLETED
       /\ is_Some (researchResult settled !! "c1"))
      \/ (job_status <$> researchJob settled !! "j2" = Some JobStatus.FAILED
          /\ company_status <$> company settled !! "c1" = Some CompanyStatus.FAILED)).
Proof.
  apply (start_settles Samples.env_ok RouteSamples.renv_ok "u1"
           (RouteSamples.request (Some 3)) "c1" 3
           (set_company_status CompanyStatus.PENDING Samples.acme)
           RouteSamples.db_company);
    try reflexivity.
  - repeat split; reflexivity.
  - intros id job Hjob. vm_compute in Hjob. discriminate Hjob.
  - repeat split; reflexivity.
  - repeat split; reflexivity.
Defined.







(** X29. [execute] has no guard and waits for the run: for a subject
    of the user, whatever jobs the subject already has, it creates a job
    and runs it; with the first three calls of the run and the two writes
    of its failure handler going through, it answers 200 with the
    intelligence, the job and the subject Completed and the intelligence
    row written, or it answers 500 with the job and the subject Failed. *)
Theorem execute_outcome env renv userId companyId_ comp db :
  execute_sites_ok renv ->
  company db !! companyId_ = Some comp ->
  company_userId comp = userId ->
  researchJob db !! newJobId renv = None ->
  enters_stages env ->
  failure_marking_ok env ->
  let db' := (execute renv env userId companyId_ db).1 in
  ((exists intel,
       (execute renv env userId companyId_ db).2
       = Returned {| statusCode := 200; body := result_body (newJobId renv) intel |})
   /\ job_status <$> researchJob db' !! newJobId renv = Some JobStatus.COMPLETED
   /\ company_status <$> company db' !! companyId_ = Some CompanyStatus.COMPLETED
   /\ is_Some (researchResult db' !! companyId_))
  \/ ((execute renv env userId companyId_ db).2
      = Returned {| statusCode := 500;
                    body := error_body "Failed to execute research" |}
      /\ job_status <$> researchJob db' !! newJobId renv = Some JobStatus.FAILED
      /\ company_status <$> company db' !! companyId_ = Some CompanyStatus.FAILED).
Proof.
  intros (Hf1 & Hf2) Hcomp Howner Hfresh Henter Hmark. cbv zeta.
  unfold execute, try_catch, bind, route_call.
  rewrite Hf1, Hf2, (company_findFirst_owned _ _ _ _ Hcomp Howner).
  unfold researchJob_create. rewrite Hfresh. cbn [fst snd].
  destruct (run_of_new_job env (newJobId renv)
              (set_researchJob
                 (insert (newJobId renv)
                    (created_job (jobDefaults renv) companyId_ userId 10)) db)
              (created_job (jobDefaults renv) companyId_ userId 10) comp)
    as [(intel & Hret & Hj & Hc & Hres) | (e & Hret & Hj & Hc)];
    [cbn; apply lookup_insert_eq | exact Hcomp | exact Henter | exact Hmark | |];
    cbn [job_companyId created_job] in *;
    destruct (Orchestrator.executeResearch env (newJobId renv) _) as [db' r];
    cbn [fst snd] in *; subst r; cbn [ret fst snd]; [left | right]; eauto.
Qed.

Lemma execute_outcome_witness :
  let db' := (execute RouteSamples.renv_ok Samples.env_ok "u1" "c1"
                (Samples.db_job_in JobStatus.RUNNING)).1 in
  ((exists intel,
       (execute RouteSamples.renv_ok Samples.env_ok "u1" "c1"
          (Samples.db_job_in JobStatus.RUNNING)).2
       = Returned {| statusCode := 200; body := result_body "j2" intel |})
   /\ job_status <$> researchJob db' !! "j2" = Some JobStatus.COMPLETED
   /\ company_status <$> company db' !! "c1" = Some CompanyStatus.COMPLETED
   /\ is_Some (researchResult db' !! "c1"))
  \/ ((execute RouteSamples.renv_ok Samples.env_ok "u1" "c1"
         (Samples.db_job_in JobStatus.RUNNING)).2
      = Returned {| statusCode := 500;
                    body := error_body "Failed to execute research" |}
      /\ job_status <$> researchJob db' !! "j2" = Some JobStatus.FAILED
      /\ company_status <$> company db' !! "c1" = Some CompanyStatus.FAILED).
Proof.
  apply (execute_outcome Samples.env_ok RouteSamples.renv_ok "u1" "c1"
           (set_company_status CompanyStatus.RESEARCHING Samples.acme)
           (Samples.db_job_in JobStatus.RUNNING));
    try reflexivity; repeat split; reflexivity.
Defined.

(** X30. Starting is not atomic: when the job was created and the
    write that queues the subject then fails, [start] answers 500, no run
    is set going and the job stays Queued; every further [start] of the
    owner for the subject is then refused with the id of that job. *)
Theorem start_half_done
    renv spawn userId request companyId_ priority_ comp db e
    renv' spawn' request' priority' :
  parse request = Some (companyId_, priority_) ->
  routeFault renv start_companyFindFirst = None ->
  routeFault renv start_jobFindFirst = None ->
  routeFault renv start_jobCreate = None ->
  routeFault renv start_companyUpdate = Some e ->
  company db !! companyId_ = Some comp ->
  company_userId comp = userId ->
  no_job_in_progress companyId_ db ->
  researchJob db !! newJobId renv = None ->
  parse request' = Some (companyId_, priority') ->
  routeFault renv' start_companyFindFirst = None ->
  routeFault renv' start_jobFindFirst = None ->
  let db1 :=
    set_researchJob
      (insert (newJobId renv)
         (created_job (jobDefaults renv) companyId_ userId priority_)) db in
  start renv spawn userId request db
  = (db1, Returned {| statusCode := 500;
                      body := error_body "Failed to start research" |})
  /\ start renv' spawn' userId request' db1
     = (db1, Returned {| statusCode := 400;
                         body := in_progress_body "Research job already in progress"
                                   (newJobId renv) |}).
Proof.
  intros Hparse Hf1 Hf2 Hf3 Hf4 Hcomp Howner Hnone Hfresh Hparse' Hf1' Hf2'.
  cbv zeta. split.
  - unfold start. rewrite Hparse. unfold try_catch, bind, route_call.
    rewrite Hf1, Hf2, Hf3, Hf4, (company_findFirst_owned _ _ _ _ Hcomp Howner),
      (job_findFirst_None _ _ Hnone), priority_or_zero.
    unfold researchJob_create. rewrite Hfresh. reflexivity.
  - apply (start_refused renv' spawn' userId request' companyId_ priority' comp _
             (newJobId renv)
             (created_job (jobDefaults renv) companyId_ userId priority_));
      try assumption.
    apply job_findFirst_only.
    + cbn. apply lookup_insert_eq.
    + reflexivity.
    + reflexivity.
    + intros id' job' Hjob Hc Hs. cbn in Hjob.
      destruct (decide (id' = newJobId renv)) as [->|Hid]; [reflexivity|].
      rewrite lookup_insert_ne in Hjob by congruence.
      rewrite (Hnone id' job' Hjob Hc) in Hs. discriminate.
Qed.

Lemma start_half_done_witness :
  let renv :=
    {| routeFault :=
         fun site =>
           match site with
           | start_companyUpdate => Some "connection lost"
           | _ => None
           end;
       newJobId := "j2"; jobDefaults := Samples.job_queued |} in
  let db1 :=
    set_researchJob (insert "j2" (created_job Samples.job_queued "c1" "u1" 3))
      RouteSamples.db_company in
  start renv (background Samples.env_ok) "u1" (RouteSamples.request (Some 3))
    RouteSamples.db_company
  = (db1, Returned {| statusCode := 500;
                      body := error_body "Failed to start research" |})
  /\ start RouteSamples.renv_ok (background Samples.env_ok) "u1"
       (RouteSamples.request None) db1
     = (db1, Returned {| statusCode := 400;
                         body := in_progress_body "Research job already in progress"
                                   "j2" |}).
Proof.
  apply (start_half_done
           {| routeFault :=
                fun site =>
                  match site with
                  | start_companyUpdate => Some "connection lost"
                  | _ => None
                  end;
              newJobId := "j2"; jobDefaults := Samples.job_queued |}
           (background Samples.env_ok) "u1" (RouteSamples.request (Some 3)) "c1" 3
           (set_company_status CompanyStatus.PENDING Samples.acme)
           RouteSamples.db_company "connection lost"
           RouteSamples.renv_ok (background Samples.env_ok)
           (RouteSamples.request None) 0);
    try reflexivity.
  intros id job Hjob. vm_compute in Hjob. discriminate Hjob.
Defined.

End StartFacts.

